(** * eopf-safe-2-healpix: the notebook's helper code, embedded in Rocq

    The notebook [src/notebook/cdse-stac-eopf-to-zarr.ipynb] defines a
    connection holder ([S3Connector]), a URI-to-key transform
    ([extract_s3_path_from_url]), the download of one object
    ([get_product]) and a recursive copy of an S3 prefix to a local
    directory ([download]); its cells then fetch a product and name the
    Zarr store to convert it to.  This file embeds those pieces, together
    with the parts of the Python standard library they call ([str]
    methods, [urllib.parse], [posixpath]), and models the object store,
    the POSIX file system and the standard output they act on. *)

From Stdlib Require Import String Ascii List Bool Arith Lia.
From stdpp Require Import gmap strings list.

Open Scope string_scope.
Open Scope list_scope.
Open Scope nat_scope.

(** ** Python exceptions that the modelled code can raise *)

Inductive exn : Type :=
| FileNotFoundError (msg : string)
| ValueError (msg : string)
| FileExistsError (path : string)
| NotADirectoryError (path : string)
| IsADirectoryError (path : string)
| OSError (path : string)
| ClientError (msg : string).

(** Fallible pure code: [inl e] is "raise e", [inr v] is "return v". *)
Definition result (A : Type) : Type := exn + A.

Definition rbind {A B} (r : result A) (k : A -> result B) : result B :=
  match r with
  | inl e => inl e
  | inr v => k v
  end.

(** ** Python [str] methods *)

Module Str.

Definition chr_in (c : ascii) (cs : string) : bool :=
  existsb (Ascii.eqb c) (list_ascii_of_string cs).

(** [s.startswith(p)] *)
Fixpoint startswith (s p : string) {struct p} : bool :=
  match p with
  | EmptyString => true
  | String a p' =>
      match s with
      | EmptyString => false
      | String b s' => Ascii.eqb a b && startswith s' p'
      end
  end.

(** [s.endswith(suf)]: [suf] is [s] itself or a suffix of its tail. *)
Fixpoint endswith (s suf : string) : bool :=
  if String.eqb s suf then true
  else match s with
       | EmptyString => false
       | String _ s' => endswith s' suf
       end.

(** [s[:n]] and [s[n:]] for a non-negative index [n]. *)
Fixpoint take (n : nat) (s : string) : string :=
  match n, s with
  | S n', String c s' => String c (take n' s')
  | _, _ => EmptyString
  end.

Fixpoint drop (n : nat) (s : string) : string :=
  match n, s with
  | S n', String _ s' => drop n' s'
  | _, _ => s
  end.

(** [s[i:j]] for non-negative indices. *)
Definition slice (s : string) (i j : nat) : string := take (j - i) (drop i s).

(** [s.find(c)] for a one-character [c]; Python's [-1] is [None]. *)
Fixpoint find (c : ascii) (s : string) : option nat :=
  match s with
  | EmptyString => None
  | String a s' =>
      if Ascii.eqb a c then Some 0
      else match find c s' with
           | Some i => Some (S i)
           | None => None
           end
  end.

(** [s.find(c, start)] *)
Definition find_from (c : ascii) (start : nat) (s : string) : option nat :=
  if String.length s <? start then None
  else match find c (drop start s) with
       | Some i => Some (start + i)
       | None => None
       end.

(** [s.rfind(c) + 1]: the index just after the last [c], [0] when there
    is none (Python's [-1 + 1]). *)
Fixpoint rfind1 (c : ascii) (s : string) : nat :=
  match s with
  | EmptyString => 0
  | String a s' =>
      match rfind1 c s' with
      | 0 => if Ascii.eqb a c then 1 else 0
      | S i => S (S i)
      end
  end.

(** [s.lstrip(cs)]: drop leading characters that satisfy [p]. *)
Fixpoint lstrip_by (p : ascii -> bool) (s : string) : string :=
  match s with
  | EmptyString => EmptyString
  | String a s' => if p a then lstrip_by p s' else s
  end.

Definition lstrip (cs : string) (s : string) : string :=
  lstrip_by (fun a => chr_in a cs) s.

(** [s.rstrip(c)] for a one-character [c]. *)
Fixpoint rstrip (c : ascii) (s : string) : string :=
  match s with
  | EmptyString => EmptyString
  | String a s' =>
      match rstrip c s' with
      | EmptyString => if Ascii.eqb a c then EmptyString else String a EmptyString
      | r => String a r
      end
  end.

(** [s.replace(c, "")] for a one-character [c]. *)
Fixpoint remove (c : ascii) (s : string) : string :=
  match s with
  | EmptyString => EmptyString
  | String a s' => if Ascii.eqb a c then remove c s' else String a (remove c s')
  end.

(** [s.split(c)] for a one-character separator: never the empty list. *)
Fixpoint split (c : ascii) (s : string) : list string :=
  match s with
  | EmptyString => [EmptyString]
  | String a s' =>
      if Ascii.eqb a c then EmptyString :: split c s'
      else match split c s' with
           | h :: t => String a h :: t
           | [] => [String a EmptyString]
           end
  end.

(** [c.join(xs)] *)
Fixpoint join (c : string) (xs : list string) : string :=
  match xs with
  | [] => EmptyString
  | [x] => x
  | x :: xs' => x +:+ c +:+ join c xs'
  end.

(** [s.split(c, 1)] when [c in s]: the parts before and after the first
    [c]; [(s, "")] when there is none. *)
Definition split1 (c : ascii) (s : string) : string * string :=
  match find c s with
  | Some i => (take i s, drop (S i) s)
  | None => (s, EmptyString)
  end.

(** [c * n] *)
Fixpoint times (c : ascii) (n : nat) : string :=
  match n with
  | 0 => EmptyString
  | S n' => String c (times c n')
  end.

Definition is_upper (a : ascii) : bool :=
  (65 <=? nat_of_ascii a) && (nat_of_ascii a <=? 90).
Definition is_lower (a : ascii) : bool :=
  (97 <=? nat_of_ascii a) && (nat_of_ascii a <=? 122).

(** [c.isascii()] *)
Definition chr_isascii (a : ascii) : bool := nat_of_ascii a <? 128.

(** [s.isascii()] *)
Definition isascii (s : string) : bool :=
  forallb chr_isascii (list_ascii_of_string s).

(** [s.lower()] on the ASCII letters, the only ones it is applied to. *)
Definition chr_lower (a : ascii) : ascii :=
  if is_upper a then ascii_of_nat (nat_of_ascii a + 32) else a.

Fixpoint lower (s : string) : string :=
  match s with
  | EmptyString => EmptyString
  | String a s' => String (chr_lower a) (lower s')
  end.

(** [s.replace(old, new)]: the occurrences of [old] are looked for from
    the left, each search starting behind the occurrence before it; an
    empty [old] matches before every character and at the end.  [fuel]
    bounds the characters still to be scanned. *)
Fixpoint replace_scan (fuel : nat) (old new s : string) : string :=
  match fuel, s with
  | S fuel', String c s' =>
      if startswith s old
      then new +:+ replace_scan fuel' old new (drop (String.length old) s)
      else String c (replace_scan fuel' old new s')
  | _, _ => s
  end.

Definition replace (old new s : string) : string :=
  if String.eqb old ""
  then new +:+ String.concat "" (map (fun c => String c new) (list_ascii_of_string s))
  else replace_scan (String.length s) old new s.

End Str.

(** ** [urllib.parse] (CPython 3.11)

    [urlsplit] and [urlparse] as the standard library writes them, for the
    call [urlparse(url)] of the notebook (default [scheme=''],
    [allow_fragments=True], [str] input).  Two things the parser leans on
    are outside this development and are taken as parameters:
    [unicodedata.normalize('NFKC', s)], and the validation of a bracketed
    host ([_check_bracketed_netloc] / [_check_bracketed_host], which goes
    through the [ipaddress] module and differs between 3.11 patch
    releases); the latter returns the message of the [ValueError] it
    raises, if any. *)

Module Urllib.

Record ParseResult : Type := mkParseResult {
  scheme : string;
  netloc : string;
  path : string;
  params : string;
  query : string;
  fragment : string
}.

(** [scheme_chars]: letters, digits and "+-." *)
Definition scheme_chars : string :=
  "abcdefghijklmnopqrstuvwxyzABCDEFGHIJKLMNOPQRSTUVWXYZ0123456789+-.".

(** [_WHATWG_C0_CONTROL_OR_SPACE]: the characters U+0000 to U+0020. *)
Definition is_c0_control_or_space (a : ascii) : bool := nat_of_ascii a <=? 32.

(** [_UNSAFE_URL_BYTES_TO_REMOVE = ['\t', '\r', '\n']] *)
Definition _UNSAFE_URL_BYTES_TO_REMOVE : list ascii :=
  ["009"%char; "013"%char; "010"%char].

(** [uses_params]; the scheme ["s3"] is not among them. *)
Definition uses_params : list string :=
  [""; "ftp"; "hdl"; "prospero"; "http"; "imap"; "https"; "shttp"; "rtsp";
   "rtspu"; "sip"; "sips"; "mms"; "sftp"; "tel"].

(** [_splitnetloc(url, start)] *)
Definition _splitnetloc (url : string) (start : nat) : string * string :=
  let delim :=
    fold_left
      (fun delim c =>
         match Str.find_from c start url with
         | Some wdelim => Nat.min delim wdelim
         | None => delim
         end)
      ["/"%char; "?"%char; "#"%char] (String.length url) in
  (Str.slice url start delim, Str.drop delim url).

(** [_splitparams(url)] *)
Definition _splitparams (url : string) : string * string :=
  match
    (if Str.chr_in "/"%char url
     then Str.find_from ";"%char (Str.rfind1 "/"%char url - 1) url
     else Str.find ";"%char url)
  with
  | Some i => (Str.take i url, Str.drop (S i) url)
  | None => (url, "")
  end.

Section Parser.

Variable normalize_NFKC : string -> string.
Variable check_bracketed_netloc : string -> option string.

(** [_checknetloc(netloc)] *)
Definition _checknetloc (netloc : string) : result unit :=
  if String.eqb netloc "" || Str.isascii netloc then inr tt
  else
    let n := Str.remove "@"%char netloc in
    let n := Str.remove ":"%char n in
    let n := Str.remove "#"%char n in
    let n := Str.remove "?"%char n in
    let netloc2 := normalize_NFKC n in
    if String.eqb n netloc2 then inr tt
    else if existsb (fun c => Str.chr_in c netloc2)
                    (list_ascii_of_string "/?#@:")
    then inl (ValueError ("netloc '" +:+ netloc +:+ "' contains invalid "
                          +:+ "characters under NFKC normalization"))
    else inr tt.

(** The checks [urlsplit] runs on a netloc as soon as it has split it off. *)
Definition check_brackets (netloc : string) : result unit :=
  let has_open := Str.chr_in "["%char netloc in
  let has_close := Str.chr_in "]"%char netloc in
  if (has_open && negb has_close) || (has_close && negb has_open)
  then inl (ValueError "Invalid IPv6 URL")
  else if has_open && has_close
  then match check_bracketed_netloc netloc with
       | Some msg => inl (ValueError msg)
       | None => inr tt
       end
  else inr tt.

(** [urlsplit(url)]: scheme, netloc, path, query, fragment. *)
Definition urlsplit (url : string)
  : result (string * string * string * string * string) :=
  let url := Str.lstrip_by is_c0_control_or_space url in
  let url := fold_left (fun u b => Str.remove b u) _UNSAFE_URL_BYTES_TO_REMOVE url in
  let '(scheme, url) :=
    match Str.find ":"%char url, url with
    | Some (S i'), String u0 _ =>
        let i := S i' in
        if Str.chr_isascii u0 && (Str.is_upper u0 || Str.is_lower u0)
           && forallb (fun c => Str.chr_in c scheme_chars)
                      (list_ascii_of_string (Str.take i url))
        then (Str.lower (Str.take i url), Str.drop (S i) url)
        else ("", url)
    | _, _ => ("", url)
    end in
  rbind
    (if String.eqb (Str.take 2 url) "//"
     then let '(netloc, url) := _splitnetloc url 2 in
          rbind (check_brackets netloc) (fun _ => inr (netloc, url))
     else inr ("", url))
    (fun '(netloc, url) =>
       let '(url, fragment) :=
         if Str.chr_in "#"%char url then Str.split1 "#"%char url else (url, "") in
       let '(url, query) :=
         if Str.chr_in "?"%char url then Str.split1 "?"%char url else (url, "") in
       rbind (_checknetloc netloc)
             (fun _ => inr (scheme, netloc, url, query, fragment))).

(** [urlparse(url)] *)
Definition urlparse (url : string) : result ParseResult :=
  rbind (urlsplit url)
    (fun '(scheme, netloc, url, query, fragment) =>
       let '(url, params) :=
         if existsb (String.eqb scheme) uses_params && Str.chr_in ";"%char url
         then _splitparams url
         else (url, "") in
       inr (mkParseResult scheme netloc url params query fragment)).

(** ** [extract_s3_path_from_url] (notebook, cell "Utility Functions") *)

Definition extract_s3_path_from_url (url : string) : result string :=
  (* If it's not an S3 URI, return it unchanged *)
  if negb (Str.startswith url "s3://") then inr url
  else
    (* Parse the S3 URI *)
    rbind (urlparse url) (fun parsed_url =>
    (* Ensure this is an S3 URL *)
    if negb (String.eqb (scheme parsed_url) "s3")
    then inl (ValueError ("URL " +:+ url +:+ " is not an S3 URL"))
    else
      (* Extract the path without leading slashes *)
      let object_path := Str.lstrip "/" (path parsed_url) in
      inr object_path).

End Parser.

End Urllib.

(** ** [posixpath] (CPython 3.11), for [str] paths on a POSIX system *)

Module Posixpath.

Definition sep : ascii := "/"%char.

(** [isabs(s)] *)
Definition isabs (s : string) : bool := Str.startswith s "/".

(** [join(a, b)] *)
Definition join (a b : string) : string :=
  if Str.startswith b "/" then b
  else if String.eqb a "" || Str.endswith a "/" then a +:+ b
  else a +:+ "/" +:+ b.

(** [join(a, *p)] *)
Definition join_all (a : string) (p : list string) : string :=
  fold_left join p a.

(** [split(p)] *)
Definition split (p : string) : string * string :=
  let i := Str.rfind1 sep p in
  let '(head, tail) := (Str.take i p, Str.drop i p) in
  let head :=
    if negb (String.eqb head "")
       && negb (String.eqb head (Str.times sep (String.length head)))
    then Str.rstrip sep head
    else head in
  (head, tail).

(** [basename(p)] *)
Definition basename (p : string) : string :=
  let i := Str.rfind1 sep p in
  Str.drop i p.

(** [dirname(p)] *)
Definition dirname (p : string) : string :=
  let i := Str.rfind1 sep p in
  let head := Str.take i p in
  if negb (String.eqb head "")
     && negb (String.eqb head (Str.times sep (String.length head)))
  then Str.rstrip sep head
  else head.

(** One turn of the loop of [normpath] over the components. *)
Definition normpath_step (initial_slashes : nat) (new_comps : list string)
    (comp : string) : list string :=
  if String.eqb comp "" || String.eqb comp "." then new_comps
  else if negb (String.eqb comp "..")
          || (Nat.eqb initial_slashes 0 && Nat.eqb (length new_comps) 0)
          || (negb (Nat.eqb (length new_comps) 0)
              && String.eqb (List.last new_comps "") "..")
  then new_comps ++ [comp]
  else removelast new_comps.

(** [normpath(path)] *)
Definition normpath (path : string) : string :=
  if String.eqb path "" then "."
  else
    let initial_slashes :=
      if Str.startswith path "/"
      then if Str.startswith path "//" && negb (Str.startswith path "///")
           then 2 else 1
      else 0 in
    let comps := Str.split sep path in
    let comps := fold_left (normpath_step initial_slashes) comps [] in
    let path := Str.join "/" comps in
    let path := Str.times sep initial_slashes +:+ path in
    if String.eqb path "" then "." else path.

(** [abspath(path)], given the string [os.getcwd()] returns. *)
Definition abspath (getcwd : string) (path : string) : string :=
  let path := if negb (isabs path) then join getcwd path else path in
  normpath path.

(** [len(commonprefix([l1, l2]))] for two lists of components: the loop
    of [genericpath.commonprefix] runs over the smaller list against the
    larger and stops at the first difference, which is the length of the
    longest common prefix of the two. *)
Fixpoint commonprefix_len (l1 l2 : list string) : nat :=
  match l1, l2 with
  | x :: l1', y :: l2' => if String.eqb x y then S (commonprefix_len l1' l2') else 0
  | _, _ => 0
  end.

(** [relpath(path, start)], given the string [os.getcwd()] returns. *)
Definition relpath (getcwd : string) (path start : string) : result string :=
  if String.eqb path "" then inl (ValueError "no path specified")
  else
    let nonempty := fun x => negb (String.eqb x "") in
    let start_list := List.filter nonempty (Str.split sep (abspath getcwd start)) in
    let path_list := List.filter nonempty (Str.split sep (abspath getcwd path)) in
    (* Work out how much of the filepath is shared by start and path. *)
    let i := commonprefix_len start_list path_list in
    let rel_list := repeat ".." (length start_list - i) ++ skipn i path_list in
    match rel_list with
    | [] => inr "."
    | a :: p => inr (join_all a p)
    end.

End Posixpath.

(** ** The local file system and the process state

    A POSIX directory tree without symbolic links.  A location is the list
    of names from the root; the root itself is always a directory.  The
    world also records the working directory of the process, which
    [os.path.relpath] and every relative path consult. *)

Inductive node : Type :=
| Dir
| File (body : string).

#[global] Instance node_eq_dec : EqDecision node.
Proof. solve_decision. Defined.

Record world : Type := mkWorld {
  cwd : list string;
  tree : gmap (list string) node
}.

Definition node_at (t : gmap (list string) node) (l : list string) : option node :=
  match l with
  | [] => Some Dir
  | _ => t !! l
  end.

(** [os.getcwd()] *)
Definition getcwd (w : world) : string := "/" +:+ Str.join "/" (cwd w).

Definition nonempty (x : string) : bool := negb (String.eqb x "").

(** The names a path consists of; repeated and trailing slashes vanish. *)
Definition path_comps (p : string) : list string :=
  List.filter nonempty (Str.split "/" p).

(** Where the resolution of a path starts. *)
Definition path_start (w : world) (p : string) : list string :=
  if Posixpath.isabs p then [] else cwd w.

(** One step of path resolution from the directory [cur]. *)
Definition path_step (cur : list string) (c : string) : list string :=
  if String.eqb c "." then cur
  else if String.eqb c ".." then removelast cur
  else cur ++ [c].

(** Resolution of the directory part of a path: every component has to be
    an existing directory ([ENOENT] and [ENOTDIR] otherwise). *)
Fixpoint walk (p : string) (t : gmap (list string) node) (cur : list string)
    (cs : list string) : result (list string) :=
  match cs with
  | [] => inr cur
  | c :: cs' =>
      let nxt := path_step cur c in
      match node_at t nxt with
      | Some Dir => walk p t nxt cs'
      | Some (File _) => inl (NotADirectoryError p)
      | None => inl (FileNotFoundError p)
      end
  end.

(** ** Effectful code: state passing over the world, with exceptions.
    The world survives an exception: what was written stays written. *)

Definition M (A : Type) : Type := world -> result A * world.

Definition ret {A} (v : A) : M A := fun w => (inr v, w).
Definition raise {A} (e : exn) : M A := fun w => (inl e, w).
Definition lift {A} (r : result A) : M A := fun w => (r, w).
Definition bind {A B} (c : M A) (k : A -> M B) : M B :=
  fun w =>
    match c w with
    | (inl e, w') => (inl e, w')
    | (inr v, w') => k v w'
    end.

Notation "x <- c ;; k" := (bind c (fun x => k))
  (at level 100, c at next level, right associativity).
Notation "c ;;; k" := (bind c (fun _ => k))
  (at level 100, right associativity).

(** [for x in xs: body(x)] *)
Fixpoint for_each {A} (xs : list A) (body : A -> M unit) : M unit :=
  match xs with
  | [] => ret tt
  | x :: xs' => body x ;;; for_each xs' body
  end.

(** [os.makedirs(name, exist_ok=True)], seen from the directory [cur] on.
    The library makes the head of the path first and then calls [mkdir]
    on the whole; the outcome is that of walking the names in order:
    existing directories are entered, missing ones are created and
    entered, a regular file in the way is an error ([FileExistsError] for
    the leaf, [NotADirectoryError] above it).  Directories created before
    an error stay.  Paths with a NUL character, which Python refuses
    before any system call, are left out; so are symbolic links (the
    tree has none): a dangling link, on which the call raises
    [FileNotFoundError], and a link to a directory, which the call
    enters, are outside this model. *)
Fixpoint makedirs_from (name : string) (t : gmap (list string) node)
    (cur : list string) (cs : list string)
  : result unit * gmap (list string) node :=
  match cs with
  | [] => (inr tt, t)
  | c :: cs' =>
      let nxt := path_step cur c in
      match node_at t nxt with
      | Some Dir => makedirs_from name t nxt cs'
      | Some (File _) =>
          (inl (match cs' with
                | [] => FileExistsError name
                | _ => NotADirectoryError name
                end), t)
      | None =>
          if String.eqb c "." || String.eqb c ".."
          then (inl (FileNotFoundError name), t)
          else makedirs_from name (<[nxt := Dir]> t) nxt cs'
      end
  end.

Definition makedirs (name : string) : M unit :=
  fun w =>
    if String.eqb name "" then (inl (FileNotFoundError name), w)
    else
      match node_at (tree w) (path_start w name) with
      | Some Dir =>
          let '(r, t) :=
            makedirs_from name (tree w) (path_start w name) (path_comps name) in
          (r, mkWorld (cwd w) t)
      | Some (File _) => (inl (NotADirectoryError name), w)
      | None => (inl (FileNotFoundError name), w)
      end.

(** [os.path.relpath(path, start)] *)
Definition os_path_relpath (path start : string) : M string :=
  fun w => (Posixpath.relpath (getcwd w) path start, w).

(** ** The object store: a [boto3] bucket resource *)

Record Bucket : Type := mkBucket {
  objects : list (string * string);
  list_error : string -> option string;
  get_error : string -> option string
}.

(** [list(bucket.objects.filter(Prefix=prefix))], as the keys of the
    object summaries, in listing order. *)
Definition objects_filter (b : Bucket) (prefix : string) : result (list string) :=
  match list_error b prefix with
  | Some msg => inl (ClientError msg)
  | None =>
      inr (map fst (List.filter (fun o => Str.startswith (fst o) prefix) (objects b)))
  end.

Fixpoint assoc (key : string) (os : list (string * string)) : option string :=
  match os with
  | [] => None
  | (k, v) :: os' => if String.eqb k key then Some v else assoc key os'
  end.

(** The transfer of one object. *)
Definition get_object (b : Bucket) (key : string) : result string :=
  match get_error b key with
  | Some msg => inl (ClientError msg)
  | None =>
      match assoc key (objects b) with
      | Some body => inr body
      | None => inl (ClientError "Not Found")
      end
  end.

Definition is_dir_name (leaf : string) : bool :=
  String.eqb leaf "" || String.eqb leaf "." || String.eqb leaf "..".

(** The last name of a path is [.] or [..], whatever slashes follow. *)
Definition ends_in_dot (cs : list string) : bool :=
  let name := List.last (List.filter nonempty cs) "" in
  String.eqb name "." || String.eqb name "..".

(** [bucket.download_file(key, filename)]: the object is fetched, then
    put in place of [filename] at once (the client writes a temporary
    file next to it and renames it over [filename]); nothing changes on
    failure.  A name that can only denote a directory cannot be renamed
    onto, nor can an existing directory. *)
Definition download_file (b : Bucket) (key filename : string) : M unit :=
  fun w =>
    match get_object b key with
    | inl e => (inl e, w)
    | inr body =>
        if String.eqb filename "" then (inl (FileNotFoundError filename), w)
        else
          let cs := Str.split "/" filename in
          let leaf := List.last cs "" in
          match node_at (tree w) (path_start w filename) with
          | Some Dir =>
              match walk filename (tree w) (path_start w filename)
                         (List.filter nonempty (removelast cs)) with
              | inl e => (inl e, w)
              | inr dir =>
                  if is_dir_name leaf
                  then (inl (if String.eqb leaf "" && negb (ends_in_dot cs)
                             then NotADirectoryError filename
                             else OSError filename), w)
                  else
                    match tree w !! (dir ++ [leaf]) with
                    | Some Dir => (inl (IsADirectoryError filename), w)
                    | _ => (inr tt,
                            mkWorld (cwd w) (<[dir ++ [leaf] := File body]> (tree w)))
                    end
              end
          | Some (File _) => (inl (NotADirectoryError filename), w)
          | None => (inl (FileNotFoundError filename), w)
          end
    end.

(** ** [download] (notebook, cell "Downloading Sentinel-2 Product") *)

(** The body of the loop, for one listed key. *)
Definition download_one (bucket : Bucket) (product local_path : string)
    (key : string) : M unit :=
  (* Skip directory markers (S3 pseudo-folders) *)
  if Str.endswith key "/" then ret tt
  else
    (* Compute the relative path inside the .SAFE directory *)
    relative_path <- os_path_relpath key product ;;
    let local_file_path := Posixpath.join local_path relative_path in
    (* Create parent directories if they don't exist *)
    makedirs (Posixpath.dirname local_file_path) ;;;
    (* Download the file *)
    download_file bucket key local_file_path.

Definition download (bucket : Bucket) (product : string) (target : string)
  : M string :=
  (* Ensure the product path ends with '/' *)
  let product :=
    if negb (Str.endswith product "/") then product +:+ "/" else product in
  (* List files in the S3 prefix *)
  files <- lift (objects_filter bucket product) ;;
  match files with
  | [] => raise (FileNotFoundError ("Could not find any files for " +:+ product))
  | _ =>
      (* Extract the .SAFE directory name *)
      let safe_dir := Posixpath.basename (Str.rstrip "/" product) in
      if negb (Str.endswith safe_dir ".SAFE")
      then raise (ValueError ("Expected a .SAFE directory, got: " +:+ safe_dir))
      else
        (* Create the local target directory *)
        let local_path := Posixpath.join target safe_dir in
        (* Create the local directory structure *)
        makedirs local_path ;;;
        (* Download each file while preserving the relative structure *)
        for_each files (download_one bucket product local_path) ;;;
        ret local_path
  end.

(** ** [S3Connector] (notebook, cell "The S3Connector Class")

    [boto3] is a parameter: what [boto3.session.Session()],
    [session.resource] and [session.client] do when they are called,
    which is to return a value or to raise.  The code that calls them
    runs over the list of the calls made so far, so that what the
    constructor calls, in which order and with which arguments, is part
    of its outcome, also when a call raises. *)

Module Connector.

(** The values the notebook passes around: [os.environ.get] gives a
    string or [None]. *)
Inductive pyval : Type :=
| PyNone
| PyStr (s : string).

(** The keyword arguments of [session.resource] and [session.client]. *)
Record kwargs : Type := mkKwargs {
  kw_endpoint_url : pyval;
  kw_aws_access_key_id : pyval;
  kw_aws_secret_access_key : pyval;
  kw_region_name : pyval
}.

Inductive call : Type :=
| Call_Session
| Call_resource (service_name : string) (kw : kwargs)
| Call_client (service_name : string) (kw : kwargs).

(** Code that calls [boto3]: state passing over the calls made so far,
    with exceptions. *)
Definition Boto (A : Type) : Type := list call -> result A * list call.

Definition boto_ret {A} (v : A) : Boto A := fun calls => (inr v, calls).
Definition boto_bind {A B} (c : Boto A) (k : A -> Boto B) : Boto B :=
  fun calls =>
    match c calls with
    | (inl e, calls') => (inl e, calls')
    | (inr v, calls') => k v calls'
    end.

Declare Scope boto_scope.
Delimit Scope boto_scope with boto.
Notation "x <- c ;; k" := (boto_bind c (fun x => k))
  (at level 100, c at next level, right associativity) : boto_scope.

Section Boto3.

Variables Session Resource Client : Type.
(** [boto3.session.Session()] *)
Variable new_session : result Session.
(** [session.resource(service_name, **kw)], [session.client(service_name, **kw)] *)
Variable session_resource : Session -> string -> kwargs -> result Resource.
Variable session_client : Session -> string -> kwargs -> result Client.

(** The three calls, as the constructor makes them: the call is recorded,
    then it returns or raises. *)
Definition call_Session : Boto Session :=
  fun calls => (new_session, calls ++ [Call_Session]).
Definition call_resource (session : Session) (service_name : string)
    (kw : kwargs) : Boto Resource :=
  fun calls => (session_resource session service_name kw,
                calls ++ [Call_resource service_name kw]).
Definition call_client (session : Session) (service_name : string)
    (kw : kwargs) : Boto Client :=
  fun calls => (session_client session service_name kw,
                calls ++ [Call_client service_name kw]).

Record S3Connector : Type := mkS3Connector {
  endpoint_url : pyval;
  access_key_id : pyval;
  secret_access_key : pyval;
  region_name : pyval;
  session : Session;
  s3 : Resource;
  s3_client : Client
}.

(** [S3Connector.__init__]; [region_name = None] stands for an omitted
    argument, which takes the default ['default'].  When a call raises,
    the constructor raises and no object is handed back. *)
Definition init (endpoint_url access_key_id secret_access_key : pyval)
    (region_name : option pyval) : Boto S3Connector :=
  (let region_name := default (PyStr "default") region_name in
   let self_endpoint_url := endpoint_url in
   let self_access_key_id := access_key_id in
   let self_secret_access_key := secret_access_key in
   let self_region_name := region_name in
   (* Create session *)
   self_session <- call_Session ;;
   (* Initialize S3 resource *)
   self_s3 <- call_resource self_session "s3"
                (mkKwargs self_endpoint_url self_access_key_id
                          self_secret_access_key self_region_name) ;;
   (* Initialize S3 client *)
   self_s3_client <- call_client self_session "s3"
                       (mkKwargs self_endpoint_url self_access_key_id
                                 self_secret_access_key self_region_name) ;;
   boto_ret (mkS3Connector self_endpoint_url self_access_key_id
               self_secret_access_key self_region_name
               self_session self_s3 self_s3_client))%boto.

(** [get_s3_client], [get_s3_resource] *)
Definition get_s3_client (self : S3Connector) : Client := s3_client self.
Definition get_s3_resource (self : S3Connector) : Resource := s3 self.

(** [resource.Bucket(name)] *)
Variable BucketResource : Type.
Variable resource_Bucket : Resource -> string -> BucketResource.

(** [get_bucket] *)
Definition get_bucket (self : S3Connector) (bucket_name : string) : BucketResource :=
  resource_Bucket (s3 self) bucket_name.

(** [client.list_buckets()]: the call raises or returns a dictionary, of
    which the method reads the entry ['Buckets'], a list of dictionaries;
    [Value] is what those hold. *)
Variable Value : Type.

Record ListBucketsOutput : Type := mkListBucketsOutput {
  Buckets : option (list (gmap string Value))
}.

Variable client_list_buckets : Client -> exn + ListBucketsOutput.

(** What [list_buckets] can raise: what the client raises, and the
    [KeyError] of a subscript. *)
Inductive error : Type :=
| Raised (e : exn)
| KeyError (key : string).

(** [[bucket['Name'] for bucket in buckets]] *)
Fixpoint names (buckets : list (gmap string Value)) : error + list Value :=
  match buckets with
  | [] => inr []
  | bucket :: buckets' =>
      match bucket !! "Name" with
      | None => inl (KeyError "Name")
      | Some name =>
          match names buckets' with
          | inl e => inl e
          | inr ns => inr (name :: ns)
          end
      end
  end.

(** [list_buckets] *)
Definition list_buckets (self : S3Connector) : error + list Value :=
  match client_list_buckets (s3_client self) with
  | inl e => inl (Raised e)
  | inr response =>
      match Buckets response with
      | Some buckets => names buckets
      | None => inr []
      end
  end.

End Boto3.

Arguments mkS3Connector {Session Resource Client}.
Arguments endpoint_url {Session Resource Client}.
Arguments access_key_id {Session Resource Client}.
Arguments secret_access_key {Session Resource Client}.
Arguments region_name {Session Resource Client}.
Arguments session {Session Resource Client}.
Arguments s3 {Session Resource Client}.
Arguments s3_client {Session Resource Client}.
Arguments call_Session {Session}.
Arguments call_resource {Session Resource}.
Arguments call_client {Session Client}.
Arguments init {Session Resource Client}.
Arguments get_bucket {Session Resource Client BucketResource}.
Arguments mkListBucketsOutput {Value}.
Arguments Buckets {Value}.
Arguments names {Value}.
Arguments list_buckets {Session Resource Client Value}.

End Connector.

(** ** [get_product] (notebook, cell "Utility Functions")

    The function prints, so the standard output of the process is
    modelled beside the file system, as the lines printed so far. *)

Record process : Type := mkProcess {
  stdout : list string;
  fs : world
}.

Definition IO (A : Type) : Type := process -> result A * process.

Definition io_ret {A} (v : A) : IO A := fun p => (inr v, p).
Definition io_raise {A} (e : exn) : IO A := fun p => (inl e, p).
Definition io_bind {A B} (c : IO A) (k : A -> IO B) : IO B :=
  fun p =>
    match c p with
    | (inl e, p') => (inl e, p')
    | (inr v, p') => k v p'
    end.

Declare Scope io_scope.
Delimit Scope io_scope with io.
Notation "x <- c ;; k" := (io_bind c (fun x => k))
  (at level 100, c at next level, right associativity) : io_scope.
Notation "c ;;; k" := (io_bind c (fun _ => k))
  (at level 100, right associativity) : io_scope.

(** [print(line)] *)
Definition print (line : string) : IO unit :=
  fun p => (inr tt, mkProcess (stdout p ++ [line]) (fs p)).

(** A computation on the file system, run in the process. *)
Definition on_fs {A} (c : M A) : IO A :=
  fun p => let '(r, w) := c (fs p) in (r, mkProcess (stdout p) w).

(** [try: body / except Exception as e: handler(e)] *)
Definition try_except {A} (body : IO A) (handler : exn -> IO A) : IO A :=
  fun p =>
    match body p with
    | (inl e, p') => handler e p'
    | (inr v, p') => (inr v, p')
    end.

Section GetProduct.

(** [str(e)] *)
Variable str_of_exn : exn -> string.

(** [s3_resource] gives the bucket resource of a name. *)
Definition get_product (s3_resource : string -> Bucket)
    (bucket_name object_url output_path : string) : IO string :=
  ((* Create output directory if it doesn't exist *)
   on_fs (makedirs output_path) ;;;
   (* Extract filename from the object URL *)
   let '(_, filename) := Posixpath.split object_url in
   (* Full path where the file will be saved *)
   let local_file_path := Posixpath.join output_path filename in
   print ("Downloading " +:+ object_url +:+ " to " +:+ local_file_path +:+ "...") ;;;
   try_except
     ((* Download the file from S3 *)
      on_fs (download_file (s3_resource bucket_name) object_url local_file_path) ;;;
      print ("Successfully downloaded to " +:+ local_file_path))
     (fun e => print ("Error downloading file: " +:+ str_of_exn e) ;;; io_raise e) ;;;
   io_ret local_file_path)%io.

End GetProduct.

(** ** The cells that fetch the product and name the Zarr store
    (notebook, "Downloading Sentinel-2 Product" and the two conversions) *)

Section Cells.

Variable normalize_NFKC : string -> string.
Variable check_bracketed_netloc : string -> option string.

(** [[
    bucket = s3.Bucket(BUCKET_NAME)
    product_url , _ = os.path.split(selected_item.assets['safe_manifest'].href)
    product_url = extract_s3_path_from_url(product_url)
    safe_filename = download(bucket, product_url, target=".")
    ]] *)
Definition fetch_product (s3 : string -> Bucket) (BUCKET_NAME href : string)
  : M string :=
  let bucket := s3 BUCKET_NAME in
  let '(product_url, _) := Posixpath.split href in
  product_url <-
    lift (Urllib.extract_s3_path_from_url normalize_NFKC check_bracketed_netloc
            product_url) ;;
  download bucket product_url ".".

End Cells.

(** [[
    current_dir = os.getcwd()
    zarr_filename = os.path.split(safe_filename)[1].replace('.SAFE', '.zarr')
    zarr_path = os.path.join(current_dir, zarr_filename)
    ]]
    and, in the second conversion, the last two lines on [product_url],
    the head of the manifest's address, with the [current_dir] of
    before. *)
Definition zarr_path (safe_filename : string) : M string :=
  fun w =>
    let current_dir := getcwd w in
    let zarr_filename :=
      Str.replace ".SAFE" ".zarr" (snd (Posixpath.split safe_filename)) in
    (inr (Posixpath.join current_dir zarr_filename), w).

Definition zarr_path_of_href (current_dir href : string) : string :=
  let '(product_url, _) := Posixpath.split href in
  let zarr_filename :=
    Str.replace ".SAFE" ".zarr" (snd (Posixpath.split product_url)) in
  Posixpath.join current_dir zarr_filename.

(** ** Notions the statements below are phrased in *)

(** *** The URI transform *)

(** What [extract_s3_path_from_url] computes for an S3 URI, said without
    the parser: tabs and line breaks are removed, the scheme is cut off,
    the bucket name runs up to the first of [/ ? #], the path from there
    up to the first of [? #]. *)
Fixpoint take_until (stop : string) (s : string) : string :=
  match s with
  | EmptyString => EmptyString
  | String a s' => if Str.chr_in a stop then EmptyString else String a (take_until stop s')
  end.

Fixpoint drop_until (stop : string) (s : string) : string :=
  match s with
  | EmptyString => EmptyString
  | String a s' => if Str.chr_in a stop then s else drop_until stop s'
  end.

Definition s3_rest (url : string) : string :=
  Str.drop 5 (Str.remove "010"%char (Str.remove "013"%char (Str.remove "009"%char url))).

Definition s3_bucket (url : string) : string := take_until "/?#" (s3_rest url).

Definition s3_key (url : string) : string :=
  Str.lstrip "/" (take_until "?#" (drop_until "/?#" (s3_rest url))).

(** The reading of the transform that only strips the scheme and the
    slashes after it. *)
Definition scheme_stripped (url : string) : string :=
  Str.lstrip "/" (Str.drop 5 url).

(** The checks the parser runs on the bucket part of an S3 URI. *)
Definition netloc_errors (normalize_NFKC : string -> string)
    (check_bracketed_netloc : string -> option string) (netloc : string)
  : result unit :=
  rbind (Urllib.check_brackets check_bracketed_netloc netloc)
        (fun _ => Urllib._checknetloc normalize_NFKC netloc).

(** What [urlparse] goes on to do for a scheme other than ["s3"]. *)
Definition urlparse_tail (scheme netloc url query fragment : string)
  : result Urllib.ParseResult :=
  let '(url, params) :=
    if existsb (String.eqb scheme) Urllib.uses_params && Str.chr_in ";"%char url
    then Urllib._splitparams url
    else (url, "") in
  inr (Urllib.mkParseResult scheme netloc url params query fragment).

(** Stand-ins for the two parameters of the parser, for running it:
    a normalisation that changes nothing and a bracketed-host validation
    that accepts. *)
Definition nfkc_id (s : string) : string := s.
Definition brackets_ok (s : string) : option string := None.

(** *** Prefixes, keys and paths *)

(** The product prefix once [download] has made it end with a slash. *)
Definition slash_terminated (product : string) : string :=
  if negb (Str.endswith product "/") then product +:+ "/" else product.

(** The directory name [download] derives from the prefix. *)
Definition safe_dir_of (product : string) : string :=
  Posixpath.basename (Str.rstrip "/" (slash_terminated product)).

(** The local directory [download] writes to (and returns). *)
Definition local_path_of (product target : string) : string :=
  Posixpath.join target (safe_dir_of product).

(** The rest of a key after the prefix. *)
Definition key_remainder (prefix key : string) : string :=
  Str.drop (String.length prefix) key.

(** A plain relative path: names separated by single slashes, none of
    them empty, [.] or [..]. *)
Definition is_name (c : string) : bool :=
  nonempty c && negb (String.eqb c ".") && negb (String.eqb c "..").

Definition plain (rel : string) : bool :=
  forallb is_name (Str.split "/" rel).

(** Every listed key that is not a directory marker continues the prefix
    with a plain relative path. *)
Definition plain_keys (prefix : string) (files : list string) : bool :=
  forallb (fun key => Str.endswith key "/" || plain (key_remainder prefix key)) files.

(** The count of leading slashes [normpath] keeps. *)
Definition initial_slashes (path : string) : nat :=
  if Str.startswith path "/"
  then if Str.startswith path "//" && negb (Str.startswith path "///")
       then 2 else 1
  else 0.

(** *** The file system *)

(** A world is well formed when its working directory exists and every
    entry of the tree lies in a directory. *)
Definition tree_closed (t : gmap (list string) node) : Prop :=
  map_Forall (fun l _ => node_at t (removelast l) = Some Dir) t.

Definition wf_world (w : world) : Prop :=
  tree_closed (tree w) /\ node_at (tree w) (cwd w) = Some Dir.

#[global] Instance wf_world_dec w : Decision (wf_world w).
Proof. unfold wf_world, tree_closed. apply _. Defined.

(** The location a file path denotes, when its directory part resolves. *)
Definition file_loc (w : world) (p : string) : option (list string) :=
  let cs := Str.split "/" p in
  match walk p (tree w) (path_start w p) (List.filter nonempty (removelast cs)) with
  | inr dir => if is_dir_name (List.last cs "") then None
               else Some (dir ++ [List.last cs ""])
  | inl _ => None
  end.

(** The location a directory path denotes, when it resolves. *)
Definition dir_loc (w : world) (p : string) : option (list string) :=
  match walk p (tree w) (path_start w p) (path_comps p) with
  | inr l => Some l
  | inl _ => None
  end.

(** Where a directory path leads, read off the path alone. *)
Definition lexical_loc (w : world) (p : string) : list string :=
  fold_left path_step (path_comps p) (path_start w p).

(** [open(p).read()] *)
Definition read_file (w : world) (p : string) : option string :=
  match file_loc w p with
  | Some l => match tree w !! l with
              | Some (File body) => Some body
              | _ => None
              end
  | None => None
  end.

Definition is_file (n : node) : Prop :=
  match n with
  | File _ => True
  | Dir => False
  end.

#[global] Instance is_file_dec n : Decision (is_file n).
Proof. destruct n; apply _. Defined.

(** The regular files at or below a location. *)
Definition files_below (w : world) (d : list string) : list (list string) :=
  (map_to_list
     (filter (fun e : list string * node => is_file e.2 /\ d `prefix_of` e.1)
             (tree w))).*1.

(** Only directories are added, and only where nothing was. *)
Definition dirs_added (t t' : gmap (list string) node) : Prop :=
  t ⊆ t' /\ forall l n, t' !! l = Some n -> t !! l = Some n \/ n = Dir.

(** What may change in the tree across the calls of [download]:
    directories stay, regular files stay regular files, the working
    directory stays. *)
Definition grows (w w' : world) : Prop :=
  cwd w' = cwd w
  /\ (forall l, node_at (tree w) l = Some Dir -> node_at (tree w') l = Some Dir)
  /\ (forall l body, tree w !! l = Some (File body) ->
                     exists body', tree w' !! l = Some (File body')).

(** *** The local mirror *)

(** A regular file of the local tree that [download] has fetched: the
    object of a listed key that is not a directory marker, at the path
    the loop derives for that key. *)
Definition downloaded_to (b : Bucket) (prefix local_path : string)
    (files : list string) (w : world) (l : list string) (body : string) : Prop :=
  exists key rel,
    key ∈ files /\ Str.endswith key "/" = false
    /\ Posixpath.relpath (getcwd w) key prefix = inr rel
    /\ file_loc w (Posixpath.join local_path rel) = Some l
    /\ get_object b key = inr body.

(** The local tree [w'] after a run from [w] over the listed keys: every
    key that is not a directory marker has a regular file at the path the
    loop derives for it, holding what was fetched for a key with that
    path; every regular file is either such a file or was there before,
    unchanged; and what was there before is still there, unless a fetched
    object has taken its place. *)
Definition mirror_of (b : Bucket) (prefix local_path : string)
    (files : list string) (w w' : world) : Prop :=
  (forall key, key ∈ files -> Str.endswith key "/" = false ->
     exists rel l body,
       Posixpath.relpath (getcwd w') key prefix = inr rel
       /\ file_loc w' (Posixpath.join local_path rel) = Some l
       /\ tree w' !! l = Some (File body)
       /\ downloaded_to b prefix local_path files w' l body)
  /\ (forall l body, tree w' !! l = Some (File body) ->
        tree w !! l = Some (File body)
        \/ downloaded_to b prefix local_path files w' l body)
  /\ (forall l body, tree w !! l = Some (File body) ->
        tree w' !! l = Some (File body)
        \/ exists body', tree w' !! l = Some (File body')
                         /\ downloaded_to b prefix local_path files w' l body')
  /\ (forall l, node_at (tree w) l = Some Dir -> node_at (tree w') l = Some Dir).


(** *** Buckets and machines to run the code on *)

Definition sample_bucket : Bucket :=
  mkBucket
    [("Sentinel-2/T56.SAFE/", "");
     ("Sentinel-2/T56.SAFE/GRANULE/", "");
     ("Sentinel-2/T56.SAFE/GRANULE/B02.jp2", "jp2 data");
     ("Sentinel-2/T56.SAFE/INSPIRE.xml", "<gmd/>");
     ("Sentinel-2/T56.SAFE/manifest.safe", "<xfdu/>");
     ("Sentinel-2/notes/readme.txt", "notes")]
    (fun _ => None) (fun _ => None).

(** The same bucket behind a connection that breaks on one object. *)
Definition flaky_bucket : Bucket :=
  mkBucket (objects sample_bucket) (fun _ => None)
    (fun key => if String.eqb key "Sentinel-2/T56.SAFE/INSPIRE.xml"
                then Some "Connection reset by peer" else None).

Definition sample_world : world :=
  mkWorld ["home"; "user"]
          (<[["home"; "user"] := Dir]> (<[["home"] := Dir]> ∅)).

(** A product of one file, and a machine on which an earlier run has left
    a file in the destination directory. *)
Definition manifest_bucket : Bucket :=
  mkBucket [("T56.SAFE/manifest.safe", "<xfdu/>")] (fun _ => None) (fun _ => None).

Definition used_world : world :=
  mkWorld ["home"; "user"]
          (<[["home"; "user"; "T56.SAFE"; "old.tmp"] := File "stale"]>
             (<[["home"; "user"; "T56.SAFE"] := Dir]> (tree sample_world))).

(** Keys that differ only by a doubled slash, and a key that climbs out
    of the prefix. *)
Definition doubled_slash_bucket : Bucket :=
  mkBucket [("T56.SAFE//B02.jp2", "first"); ("T56.SAFE/B02.jp2", "second")]
           (fun _ => None) (fun _ => None).

Definition climbing_bucket : Bucket :=
  mkBucket [("T56.SAFE/../escaped.txt", "outside")] (fun _ => None) (fun _ => None).

(** *** Directory markers *)

(** A key that stands for a folder. *)
Definition is_marker (key : string) : bool := Str.endswith key "/".

(** The bucket without its directory markers. *)
Definition without_markers (b : Bucket) : Bucket :=
  mkBucket (List.filter (fun o => negb (is_marker (fst o))) (objects b))
           (list_error b) (get_error b).


(** An S3 resource with the one bucket [eodata], a flaky one, and a
    stand-in for [str(e)]: the text the exception carries. *)
Definition sample_resource (name : string) : Bucket :=
  if String.eqb name "eodata" then sample_bucket
  else if String.eqb name "flaky" then flaky_bucket
  else mkBucket [] (fun _ => Some "NoSuchBucket") (fun _ => Some "NoSuchBucket").

Definition exn_text (e : exn) : string :=
  match e with
  | FileNotFoundError s | ValueError s | FileExistsError s | NotADirectoryError s
  | IsADirectoryError s | OSError s | ClientError s => s
  end.

(** *** Addresses of objects *)

(** The characters the parser removes from a URL wherever they stand. *)
Definition tab_cr_lf : string :=
  String "009"%char (String "013"%char (String "010"%char "")).

(** No character of [s] is among [stop]. *)
Definition free_of (stop : string) (s : string) : bool :=
  forallb (fun c => negb (Str.chr_in c stop)) (list_ascii_of_string s).

(** A bucket name the parser takes as it is: ASCII, without a delimiter,
    a bracket or a removed character. *)
Definition bucket_name_ok (bucket : string) : bool :=
  Str.isascii bucket && free_of ("/?#[]" +:+ tab_cr_lf) bucket.

(** A key that can stand in a URL as it is. *)
Definition key_ok (key : string) : bool := free_of ("?#" +:+ tab_cr_lf) key.

(** [f"s3://{bucket}/{key}"] *)
Definition s3_uri (bucket key : string) : string :=
  "s3://" +:+ bucket +:+ "/" +:+ key.

(** *** What the loop writes *)

(** The location and the content of the file the loop of [download]
    writes for a listed key, the path being resolved in [w]; directory
    markers write nothing. *)
Definition written (b : Bucket) (prefix local_path : string) (w : world)
    (key : string) : option (list string * string) :=
  if Str.endswith key "/" then None
  else match Posixpath.relpath (getcwd w) key prefix with
       | inr rel =>
           match file_loc w (Posixpath.join local_path rel), get_object b key with
           | Some l, inr body => Some (l, body)
           | _, _ => None
           end
       | inl _ => None
       end.

(** The key is written to the location [l]. *)
Definition maps_to (b : Bucket) (prefix local_path : string) (w : world)
    (l : list string) (key : string) : bool :=
  match written b prefix local_path w key with
  | Some (l', _) => bool_decide (l' = l)
  | None => false
  end.

(** A machine on which a regular file has the name of the destination. *)
Definition blocked_world : world :=
  mkWorld ["home"; "user"]
          (<[["home"; "user"; "out"; "T56.SAFE"] := File "not a directory"]>
             (<[["home"; "user"; "out"] := Dir]> (tree sample_world))).

(** The bucket cut down to the objects under a prefix. *)
Definition under_prefix (b : Bucket) (prefix : string) : Bucket :=
  mkBucket (List.filter (fun o => Str.startswith (fst o) prefix) (objects b))
           (list_error b) (get_error b).

(** A client whose [list_buckets] answers with two buckets. *)
Definition sample_list_buckets (client : unit)
  : exn + Connector.ListBucketsOutput string :=
  inr (Connector.mkListBucketsOutput
         (Some [<["CreationDate" := "2019-01-01"]> {["Name" := "eodata"]};
                {["Name" := "DIAS"]}])).

(** *** Runs that differ in how a path is spelled *)

(** Two runs leave the same file system and both return or both raise;
    the exceptions may name the path differently. *)
Definition same_effect {A B} (x : result A * world) (y : result B * world) : Prop :=
  x.2 = y.2
  /\ match x.1, y.1 with
     | inr _, inr _ | inl _, inl _ => True
     | _, _ => False
     end.


(** *** The constructor's arguments, renamed *)

(** A renaming [g] of the values, carried over keyword arguments, calls,
    the connector and the outcome of the constructor. *)
Definition map_kwargs (g : Connector.pyval -> Connector.pyval)
    (kw : Connector.kwargs) : Connector.kwargs :=
  Connector.mkKwargs (g (Connector.kw_endpoint_url kw))
                     (g (Connector.kw_aws_access_key_id kw))
                     (g (Connector.kw_aws_secret_access_key kw))
                     (g (Connector.kw_region_name kw)).

Definition map_call (g : Connector.pyval -> Connector.pyval)
    (c : Connector.call) : Connector.call :=
  match c with
  | Connector.Call_Session => Connector.Call_Session
  | Connector.Call_resource name kw => Connector.Call_resource name (map_kwargs g kw)
  | Connector.Call_client name kw => Connector.Call_client name (map_kwargs g kw)
  end.

Definition map_connector {Session Resource Client : Type}
    (g : Connector.pyval -> Connector.pyval)
    (self : Connector.S3Connector Session Resource Client)
  : Connector.S3Connector Session Resource Client :=
  Connector.mkS3Connector (g (Connector.endpoint_url self))
    (g (Connector.access_key_id self)) (g (Connector.secret_access_key self))
    (g (Connector.region_name self))
    (Connector.session self) (Connector.s3 self) (Connector.s3_client self).

Definition map_outcome {Session Resource Client : Type}
    (g : Connector.pyval -> Connector.pyval)
    (o : result (Connector.S3Connector Session Resource Client) * list Connector.call)
  : result (Connector.S3Connector Session Resource Client) * list Connector.call :=
  (match o.1 with
   | inl e => inl e
   | inr self => inr (map_connector g self)
   end,
   map (map_call g) o.2).

(** A [boto3] to run the constructor on: the session is made, and a
    resource or a client is made for an endpoint that is an [http] or
    [https] URL and refused for any other. *)
Definition sample_factory (kind : string) (session : unit) (service_name : string)
    (kw : Connector.kwargs) : result string :=
  match Connector.kw_endpoint_url kw with
  | Connector.PyStr url =>
      if Str.startswith url "http://" || Str.startswith url "https://"
      then inr (kind +:+ " of " +:+ service_name +:+ " at " +:+ url)
      else inl (ValueError ("Invalid endpoint: " +:+ url))
  | Connector.PyNone => inr (kind +:+ " of " +:+ service_name)
  end.

(** A product in which an object has the name of a folder that a later
    key needs, followed by one more object. *)
Definition flat_first_bucket : Bucket :=
  mkBucket [("T56.SAFE/DATA", "flat"); ("T56.SAFE/DATA/B02.jp2", "jp2 data");
            ("T56.SAFE/manifest.safe", "<xfdu/>")]
           (fun _ => None) (fun _ => None).

(** A machine whose working directory has been removed. *)
Definition lost_world : world := mkWorld ["home"; "user"] (<[["home"] := Dir]> ∅).

(** A path with a slash at its end, as [os.path.join(path, "")] makes it. *)
Definition as_directory (path : string) : string :=
  if String.eqb path "" || Str.endswith path "/" then path else path +:+ "/".

(** * Proofs *)

(** ** Strings *)

Lemma startswith_app s p :
  Str.startswith s p = true -> exists r, s = p +:+ r.
Proof.
  revert s. induction p as [|a p IH]; intros s H; simpl in *.
  - by exists s.
  - destruct s as [|b s]; [done|].
    apply andb_true_iff in H as [Hab H]. apply Ascii.eqb_eq in Hab as ->.
    destruct (IH s H) as [r ->]. by exists r.
Qed.

Lemma chr_in_cons a b s :
  Str.chr_in a (String b s) = Ascii.eqb a b || Str.chr_in a s.
Proof. reflexivity. Qed.

Lemma find_none_chr_in c s : Str.find c s = None <-> Str.chr_in c s = false.
Proof.
  induction s as [|a s IH]; simpl; [done|].
  rewrite chr_in_cons, (Ascii.eqb_sym c a).
  destruct (Ascii.eqb a c); simpl; [split; discriminate|].
  destruct (Str.find c s); [split; [discriminate|] | tauto].
  intros H. apply IH in H. discriminate.
Qed.

Lemma take_find c s i :
  Str.find c s = Some i -> Str.take i s = take_until (String c "") s.
Proof.
  revert i. induction s as [|a s IH]; intros i; simpl; [done|].
  unfold Str.chr_in; simpl. rewrite orb_false_r.
  destruct (Ascii.eqb a c); [by intros [= <-]|].
  destruct (Str.find c s) as [j|]; [|done].
  intros [= <-]. simpl. f_equal. by apply IH.
Qed.

Lemma take_until_absent c s :
  Str.chr_in c s = false -> take_until (String c "") s = s.
Proof.
  induction s as [|a s IH]; simpl; [done|].
  rewrite chr_in_cons. unfold Str.chr_in at 2; simpl. rewrite orb_false_r.
  rewrite (Ascii.eqb_sym c a).
  destruct (Ascii.eqb a c); simpl; [done|]. intros H. f_equal. by apply IH.
Qed.

Lemma take_until_two c d s :
  take_until (String d "") (take_until (String c "") s)
  = take_until (String d (String c "")) s.
Proof.
  induction s as [|a s IH]; simpl; [done|].
  unfold Str.chr_in; simpl. rewrite !orb_false_r.
  destruct (Ascii.eqb a c); simpl.
  - by rewrite orb_true_r.
  - unfold Str.chr_in; simpl. rewrite !orb_false_r.
    destruct (Ascii.eqb a d); simpl; [done|]. by rewrite IH.
Qed.

(** What remains of a URL once fragment and query are cut off. *)
Lemma cut_fragment_query url :
  fst (let '(u, fragment) :=
         if Str.chr_in "#"%char url then Str.split1 "#"%char url else (url, "") in
       if Str.chr_in "?"%char u then Str.split1 "?"%char u else (u, ""))
  = take_until "?#" url.
Proof.
  assert (Hcut : forall c u,
             fst (if Str.chr_in c u then Str.split1 c u else (u, ""))
             = take_until (String c "") u).
  { intros c u. destruct (Str.chr_in c u) eqn:Hin.
    - unfold Str.split1. destruct (Str.find c u) as [i|] eqn:Hf.
      + simpl. by apply take_find.
      + apply find_none_chr_in in Hf. congruence.
    - simpl. symmetry. by apply take_until_absent. }
  rewrite <- take_until_two, <- (Hcut "#"%char url), <- Hcut.
  destruct (if Str.chr_in "#"%char url then _ else _) as [u fragment]. done.
Qed.

(** ** The parser on S3 URIs *)

Lemma take_length_take_until stop r :
  Str.take (String.length (take_until stop r)) r = take_until stop r.
Proof.
  induction r as [|a r IH]; simpl; [done|].
  destruct (Str.chr_in a stop); simpl; [done|]. by rewrite IH.
Qed.

Lemma drop_length_take_until stop r :
  Str.drop (String.length (take_until stop r)) r = drop_until stop r.
Proof.
  induction r as [|a r IH]; simpl; [done|].
  destruct (Str.chr_in a stop); simpl; [done|]. by rewrite IH.
Qed.

(** The earliest of the three delimiters, as [_splitnetloc] finds it. *)
Lemma earliest_delimiter r k :
  fold_left
    (fun delim c =>
       match Str.find c r with
       | Some w => Nat.min delim (k + w)
       | None => delim
       end)
    ["/"%char; "?"%char; "#"%char] (k + String.length r)
  = k + String.length (take_until "/?#" r).
Proof.
  revert k. induction r as [|a r IH]; intros k; [done|].
  specialize (IH (S k)). cbn [fold_left] in *.
  cbn [Str.find take_until String.length].
  unfold Str.chr_in; cbn [list_ascii_of_string existsb].
  destruct (Ascii.eqb a "/") eqn:E1; [|destruct (Ascii.eqb a "?") eqn:E2;
    [|destruct (Ascii.eqb a "#") eqn:E3]]; cbn [orb String.length].
  1-3: repeat match goal with
         | |- context [Str.find ?c ?s] => destruct (Str.find c s)
         | |- context [if ?b then _ else _] => destruct b
         end; lia.
  revert IH.
  destruct (Str.find "/" r), (Str.find "?" r), (Str.find "#" r); lia.
Qed.

Lemma splitnetloc_spec r :
  Urllib._splitnetloc ("//" +:+ r) 2 = (take_until "/?#" r, drop_until "/?#" r).
Proof.
  unfold Urllib._splitnetloc.
  assert (Hff : forall c, Str.find_from c 2 ("//" +:+ r)
                          = match Str.find c r with
                            | Some i => Some (2 + i)
                            | None => None
                            end) by done.
  cbn [fold_left]. rewrite !Hff.
  pose proof (earliest_delimiter r 2) as Hd. cbn [fold_left] in Hd.
  change (String.length ("//" +:+ r)) with (2 + String.length r).
  transitivity (Str.slice ("//" +:+ r) 2 (2 + String.length (take_until "/?#" r)),
                Str.drop (2 + String.length (take_until "/?#" r)) ("//" +:+ r)).
  { rewrite <- Hd.
    by destruct (Str.find "/" r), (Str.find "?" r), (Str.find "#" r). }
  unfold Str.slice.
  replace (2 + String.length (take_until "/?#" r) - 2)
    with (String.length (take_until "/?#" r)) by lia.
  change (Str.drop 2 ("//" +:+ r)) with r.
  change (Str.drop (2 + ?n) ("//" +:+ r)) with (Str.drop n r).
  by rewrite take_length_take_until, drop_length_take_until.
Qed.

Section S3Uris.

Variable normalize_NFKC : string -> string.
Variable check_bracketed_netloc : string -> option string.

Abbreviation urlsplit := (Urllib.urlsplit normalize_NFKC check_bracketed_netloc).
Abbreviation urlparse := (Urllib.urlparse normalize_NFKC check_bracketed_netloc).
Abbreviation extract_s3_path_from_url :=
  (Urllib.extract_s3_path_from_url normalize_NFKC check_bracketed_netloc).
Abbreviation bucket_errors := (netloc_errors normalize_NFKC check_bracketed_netloc).

(** The first steps of [urlsplit] on an S3 URI, run: nothing is stripped
    in front, the scheme is found to be ["s3"], and the rest starts with
    the two slashes that introduce a netloc. *)
Lemma urlsplit_s3_steps r :
  urlsplit ("s3://" +:+ r)
  = let rest := Str.remove "010"%char (Str.remove "013"%char (Str.remove "009"%char r)) in
    rbind
      (let '(netloc, url) := Urllib._splitnetloc ("//" +:+ rest) 2 in
       rbind (Urllib.check_brackets check_bracketed_netloc netloc)
             (fun _ => inr (netloc, url)))
      (fun '(netloc, url) =>
         let '(url, fragment) :=
           if Str.chr_in "#"%char url then Str.split1 "#"%char url else (url, "") in
         let '(url, query) :=
           if Str.chr_in "?"%char url then Str.split1 "?"%char url else (url, "") in
         rbind (Urllib._checknetloc normalize_NFKC netloc)
               (fun _ => inr ("s3", netloc, url, query, fragment))).
Proof. reflexivity. Qed.

Lemma urlsplit_s3 url :
  Str.startswith url "s3://" = true ->
  match urlsplit url with
  | inr (scheme, netloc, path, _, _) =>
      scheme = "s3" /\ netloc = s3_bucket url
      /\ path = take_until "?#" (drop_until "/?#" (s3_rest url))
      /\ bucket_errors netloc = inr tt
  | inl e => bucket_errors (s3_bucket url) = inl e
  end.
Proof.
  intros [r ->]%startswith_app.
  rewrite urlsplit_s3_steps.
  unfold s3_bucket, netloc_errors.
  change (s3_rest ("s3://" +:+ r))
    with (Str.remove "010"%char (Str.remove "013"%char (Str.remove "009"%char r))).
  cbv zeta. generalize (Str.remove "010" (Str.remove "013" (Str.remove "009" r))).
  clear r. intros r. rewrite splitnetloc_spec.
  destruct (Urllib.check_brackets _ _) as [e|[]] eqn:Hbr; cbn [rbind]; [done|].
  pose proof (cut_fragment_query (drop_until "/?#" r)) as Hcut.
  destruct (if Str.chr_in "#" _ then _ else _) as [u1 fragment].
  destruct (if Str.chr_in "?" u1 then _ else _) as [u2 query].
  simpl in Hcut. subst u2.
  destruct (Urllib._checknetloc _ _) as [e|[]] eqn:Hck; cbn [rbind]; [done|].
  by rewrite Hbr.
Qed.

Lemma urlparse_s3 url :
  urlparse url
  = rbind (urlsplit url)
      (fun '(scheme, netloc, path, query, fragment) =>
         if String.eqb scheme "s3"
         then inr (Urllib.mkParseResult scheme netloc path "" query fragment)
         else urlparse_tail scheme netloc path query fragment).
Proof.
  unfold Urllib.urlparse, urlparse_tail.
  destruct (urlsplit url) as [e|[[[[scheme netloc] path] query] fragment]]; [done|].
  cbn [rbind]. destruct (String.eqb_spec scheme "s3") as [->|]; done.
Qed.

(** Everything [extract_s3_path_from_url] does on an S3 URI. *)
Lemma extract_s3 url :
  Str.startswith url "s3://" = true ->
  match urlparse url with
  | inr parsed =>
      Urllib.scheme parsed = "s3"
      /\ Str.lstrip "/" (Urllib.path parsed) = s3_key url
      /\ bucket_errors (s3_bucket url) = inr tt
      /\ extract_s3_path_from_url url = inr (s3_key url)
  | inl e =>
      bucket_errors (s3_bucket url) = inl e
      /\ extract_s3_path_from_url url = inl e
  end.
Proof.
  intros Hs3. unfold Urllib.extract_s3_path_from_url. rewrite Hs3. cbn [negb].
  pose proof (urlsplit_s3 url Hs3) as Hsplit. rewrite urlparse_s3.
  destruct (urlsplit url) as [e|[[[[scheme netloc] path] query] fragment]];
    cbn [rbind]; [done|].
  destruct Hsplit as (-> & -> & -> & Hok).
  cbn [String.eqb Ascii.eqb Bool.eqb rbind Urllib.scheme Urllib.path negb].
  done.
Qed.

(** The bucket part of an S3 URI is only ever rejected with a
    [ValueError]. *)
Lemma netloc_errors_ValueError netloc e :
  bucket_errors netloc = inl e -> exists msg, e = ValueError msg.
Proof.
  unfold netloc_errors, Urllib.check_brackets, Urllib._checknetloc.
  repeat match goal with
         | |- context [if ?b then _ else _] => destruct b
         | |- context [match check_bracketed_netloc ?n with _ => _ end] =>
             destruct (check_bracketed_netloc n)
         end; cbn [rbind]; intros [= <-] || intros [=]; eauto.
Qed.

(** C4: a url that does not start with ['s3://'] is returned unchanged. *)
Theorem extract_non_s3_unchanged url :
  Str.startswith url "s3://" = false ->
  extract_s3_path_from_url url = inr url.
Proof.
  intros Hns. unfold Urllib.extract_s3_path_from_url. by rewrite Hns.
Qed.

(** C5, amended: for a url that starts with ['s3://'], the result is the
    path of the parsed URI without its leading slashes: the scheme and
    the bucket name (up to the first of [/], [?], [#]) are cut off in
    front, the query and the fragment (from the first [?] or [#] on)
    behind, tabs and line breaks are dropped; when the parser rejects the
    bucket part, its [ValueError] is raised instead. *)
Theorem extract_s3_returns_key url :
  Str.startswith url "s3://" = true ->
  extract_s3_path_from_url url
  = match bucket_errors (s3_bucket url) with
    | inl e => inl e
    | inr _ => inr (s3_key url)
    end.
Proof.
  intros Hs3. pose proof (extract_s3 url Hs3) as H.
  destruct (urlparse url) as [e|parsed].
  - destruct H as [-> ->]. done.
  - destruct H as (_ & _ & -> & ->). done.
Qed.

(** C10, amended: the scheme guard of [extract_s3_path_from_url] never
    fires, since a url that reaches the parser and is accepted by it has
    scheme ['s3']; the function raises exactly when [urlparse] does, with
    the parser's own [ValueError] for a malformed bucket part. *)
Theorem scheme_guard_unreachable url :
  Str.startswith url "s3://" = true ->
  match urlparse url with
  | inr parsed =>
      Urllib.scheme parsed = "s3"
      /\ extract_s3_path_from_url url = inr (Str.lstrip "/" (Urllib.path parsed))
  | inl e =>
      extract_s3_path_from_url url = inl e
      /\ bucket_errors (s3_bucket url) = inl e
      /\ exists msg, e = ValueError msg
  end.
Proof.
  intros Hs3. pose proof (extract_s3 url Hs3) as H.
  destruct (urlparse url) as [e|parsed].
  - destruct H as [He ->]. eauto using netloc_errors_ValueError.
  - destruct H as (-> & -> & _ & ->). done.
Qed.

(** An unbalanced bracket in the bucket part makes the parser raise,
    whatever the normalisation and the bracketed-host validation are. *)
Lemma extract_unbalanced_bracket :
  extract_s3_path_from_url "s3://[bucket/key" = inl (ValueError "Invalid IPv6 URL").
Proof. reflexivity. Qed.

End S3Uris.

Lemma extract_non_s3_unchanged_witness :
  Str.startswith "https://example.org/a.jp2" "s3://" = false
  /\ Urllib.extract_s3_path_from_url nfkc_id brackets_ok "https://example.org/a.jp2"
     = inr "https://example.org/a.jp2".
Proof.
  split; [reflexivity|].
  apply (extract_non_s3_unchanged nfkc_id brackets_ok "https://example.org/a.jp2").
  reflexivity.
Defined.

(** C5 as stated fails: the bucket name goes as well. *)
Lemma extract_s3_keeps_bucket_counterexample :
  Str.startswith "s3://eodata/path/to/file.jp2" "s3://" = true
  /\ scheme_stripped "s3://eodata/path/to/file.jp2" = "eodata/path/to/file.jp2"
  /\ Urllib.extract_s3_path_from_url nfkc_id brackets_ok "s3://eodata/path/to/file.jp2"
     = inr "path/to/file.jp2"
  /\ Urllib.extract_s3_path_from_url nfkc_id brackets_ok "s3://eodata/path/to/file.jp2"
     <> inr (scheme_stripped "s3://eodata/path/to/file.jp2").
Proof. repeat split; try reflexivity. vm_compute. discriminate. Qed.

Lemma extract_s3_returns_key_witness :
  Str.startswith "s3://eodata/Sentinel-2/MSI/x.SAFE?versionId=1" "s3://" = true
  /\ Urllib.extract_s3_path_from_url nfkc_id brackets_ok
       "s3://eodata/Sentinel-2/MSI/x.SAFE?versionId=1"
     = inr "Sentinel-2/MSI/x.SAFE".
Proof.
  split; [reflexivity|].
  rewrite (extract_s3_returns_key nfkc_id brackets_ok
             "s3://eodata/Sentinel-2/MSI/x.SAFE?versionId=1"); reflexivity.
Defined.

(** C10 as stated fails: the function does raise on some strings. *)
Lemma extract_raises_counterexample :
  Urllib.extract_s3_path_from_url nfkc_id brackets_ok "s3://[bucket/key"
  = inl (ValueError "Invalid IPv6 URL").
Proof. reflexivity. Qed.

Lemma scheme_guard_unreachable_witness :
  Str.startswith "s3://eodata/a/b.SAFE" "s3://" = true
  /\ Urllib.extract_s3_path_from_url nfkc_id brackets_ok "s3://eodata/a/b.SAFE"
     = inr "a/b.SAFE".
Proof.
  split; [reflexivity|].
  exact (proj2 (scheme_guard_unreachable nfkc_id brackets_ok "s3://eodata/a/b.SAFE"
                  eq_refl)).
Defined.

(** ** The connector *)

Section Constructor.

Context {Session Resource Client : Type}.
Variable new_session : result Session.
Variable session_resource : Session -> string -> Connector.kwargs -> result Resource.
Variable session_client : Session -> string -> Connector.kwargs -> result Client.
Variables endpoint_url access_key_id secret_access_key : Connector.pyval.

(** C7: [S3Connector.__init__] makes one session and hands its four
    parameters as they are ([region_name] being ['default'] when it is
    left out), with the service name ['s3'], to [session.resource] and
    then to [session.client]; it calls nothing else, and it stops at the
    first call that raises, with the exception of that call.  When the
    three calls return, the object holds the four parameters unchanged,
    the session and what the two calls returned.  The values are only
    passed on: renaming them in the arguments renames them in the object
    and in the calls, and changes nothing else. *)
Theorem init_stores_and_forwards (region_name : option Connector.pyval)
    (calls : list Connector.call) :
  Connector.init new_session session_resource session_client
    endpoint_url access_key_id secret_access_key region_name calls
  = match new_session with
    | inl e => (inl e, calls ++ [Connector.Call_Session])
    | inr session =>
        match session_resource session "s3"
                (Connector.mkKwargs endpoint_url access_key_id secret_access_key
                   (default (Connector.PyStr "default") region_name)) with
        | inl e =>
            (inl e,
             calls ++ [Connector.Call_Session;
                       Connector.Call_resource "s3"
                         (Connector.mkKwargs endpoint_url access_key_id
                            secret_access_key
                            (default (Connector.PyStr "default") region_name))])
        | inr s3 =>
            (match session_client session "s3"
                     (Connector.mkKwargs endpoint_url access_key_id secret_access_key
                        (default (Connector.PyStr "default") region_name)) with
             | inl e => inl e
             | inr s3_client =>
                 inr (Connector.mkS3Connector endpoint_url access_key_id
                        secret_access_key
                        (default (Connector.PyStr "default") region_name)
                        session s3 s3_client)
             end,
             calls ++ [Connector.Call_Session;
                       Connector.Call_resource "s3"
                         (Connector.mkKwargs endpoint_url access_key_id
                            secret_access_key
                            (default (Connector.PyStr "default") region_name));
                       Connector.Call_client "s3"
                         (Connector.mkKwargs endpoint_url access_key_id
                            secret_access_key
                            (default (Connector.PyStr "default") region_name))])
        end
    end
  /\ forall (g : Connector.pyval -> Connector.pyval) (region : Connector.pyval),
       Connector.init new_session session_resource session_client
         (g endpoint_url) (g access_key_id) (g secret_access_key) (Some (g region))
         (map (map_call g) calls)
       = map_outcome g
           (Connector.init new_session
              (fun session name kw => session_resource session name (map_kwargs g kw))
              (fun session name kw => session_client session name (map_kwargs g kw))
              endpoint_url access_key_id secret_access_key (Some region) calls).
Proof.
  split.
  - unfold Connector.init, Connector.boto_bind, Connector.call_Session,
      Connector.call_resource, Connector.call_client, Connector.boto_ret.
    destruct new_session as [e|session]; [done|].
    destruct (session_resource session "s3" _) as [e|s3];
      [by rewrite <- app_assoc|].
    destruct (session_client session "s3" _) as [e|s3_client];
      by rewrite <- !app_assoc.
  - intros g region.
    unfold map_outcome, Connector.init, Connector.boto_bind, Connector.call_Session,
      Connector.call_resource, Connector.call_client, Connector.boto_ret.
    destruct new_session as [e|session]; simpl; [by rewrite map_app|].
    unfold map_kwargs at 1 3. simpl.
    destruct (session_resource session "s3" _) as [e|s3]; simpl;
      [by rewrite !map_app|].
    unfold map_kwargs at 1. simpl.
    destruct (session_client session "s3" _) as [e|s3_client]; simpl;
      by rewrite !map_app.
Qed.

End Constructor.

Lemma init_stores_and_forwards_witness :
  Connector.init (inr tt) (sample_factory "resource") (sample_factory "client")
    (Connector.PyStr "https://eodata.dataspace.copernicus.eu")
    (Connector.PyStr "key") (Connector.PyStr "secret") None []
  = (inr (Connector.mkS3Connector
            (Connector.PyStr "https://eodata.dataspace.copernicus.eu")
            (Connector.PyStr "key") (Connector.PyStr "secret")
            (Connector.PyStr "default") tt
            "resource of s3 at https://eodata.dataspace.copernicus.eu"
            "client of s3 at https://eodata.dataspace.copernicus.eu"),
     [Connector.Call_Session;
      Connector.Call_resource "s3"
        (Connector.mkKwargs (Connector.PyStr "https://eodata.dataspace.copernicus.eu")
           (Connector.PyStr "key") (Connector.PyStr "secret")
           (Connector.PyStr "default"));
      Connector.Call_client "s3"
        (Connector.mkKwargs (Connector.PyStr "https://eodata.dataspace.copernicus.eu")
           (Connector.PyStr "key") (Connector.PyStr "secret")
           (Connector.PyStr "default"))])
  /\ Connector.init (inr tt) (sample_factory "resource") (sample_factory "client")
       (Connector.PyStr "eodata") (Connector.PyStr "key") (Connector.PyStr "secret")
       None []
     = (inl (ValueError "Invalid endpoint: eodata"),
        [Connector.Call_Session;
         Connector.Call_resource "s3"
           (Connector.mkKwargs (Connector.PyStr "eodata") (Connector.PyStr "key")
              (Connector.PyStr "secret") (Connector.PyStr "default"))]).
Proof.
  split.
  - rewrite (proj1 (init_stores_and_forwards (inr tt) (sample_factory "resource")
                      (sample_factory "client")
                      (Connector.PyStr "https://eodata.dataspace.copernicus.eu")
                      (Connector.PyStr "key") (Connector.PyStr "secret") None [])).
    reflexivity.
  - rewrite (proj1 (init_stores_and_forwards (inr tt) (sample_factory "resource")
                      (sample_factory "client") (Connector.PyStr "eodata")
                      (Connector.PyStr "key") (Connector.PyStr "secret") None [])).
    reflexivity.
Defined.

(** ** The file system: what [os.makedirs] does *)

Lemma node_at_weaken (t t' : gmap (list string) node) l n :
  node_at t l = Some n -> t ⊆ t' -> node_at t' l = Some n.
Proof.
  destruct l as [|x l]; [done|]. simpl. intros H Hsub.
  by eapply lookup_weaken.
Qed.

Lemma node_at_None_lookup (t : gmap (list string) node) l :
  node_at t l = None -> t !! l = None /\ l <> [].
Proof. by destruct l. Qed.

Lemma path_step_name cur c :
  String.eqb c "." || String.eqb c ".." = false -> path_step cur c = cur ++ [c].
Proof.
  unfold path_step.
  destruct (String.eqb c "."), (String.eqb c ".."); done.
Qed.

Lemma dirs_added_refl t : dirs_added t t.
Proof. split; [done|]. intros l n ?. by left. Qed.

Lemma dirs_added_trans t1 t2 t3 :
  dirs_added t1 t2 -> dirs_added t2 t3 -> dirs_added t1 t3.
Proof.
  intros [S12 H12] [S23 H23]. split; [by etrans|].
  intros l n H3. destruct (H23 l n H3) as [H2|]; [|by right].
  by apply H12.
Qed.

Lemma makedirs_from_dirs_added name t cur cs r t' :
  makedirs_from name t cur cs = (r, t') -> dirs_added t t'.
Proof.
  revert t cur. induction cs as [|c cs IH]; intros t cur; simpl.
  - intros [= _ <-]. apply dirs_added_refl.
  - destruct (node_at t (path_step cur c)) as [[|body]|] eqn:Hn.
    + apply IH.
    + intros [= _ <-]. apply dirs_added_refl.
    + destruct (String.eqb c "." || String.eqb c "..").
      * intros [= _ <-]. apply dirs_added_refl.
      * intros H. apply IH in H. eapply dirs_added_trans; [|exact H].
        apply node_at_None_lookup in Hn as [Hn _].
        split; [by apply insert_subseteq|].
        intros l n. rewrite lookup_insert. case_decide; [|by left].
        intros [= <-]. by right.
Qed.

Lemma makedirs_from_walk name p t cur cs t' :
  makedirs_from name t cur cs = (inr tt, t') ->
  node_at t cur = Some Dir ->
  exists l, walk p t' cur cs = inr l /\ node_at t' l = Some Dir.
Proof.
  revert t cur. induction cs as [|c cs IH]; intros t cur; simpl.
  - intros [= <-] Hcur. eauto.
  - destruct (node_at t (path_step cur c)) as [[|body]|] eqn:Hn.
    + intros H _. pose proof (makedirs_from_dirs_added _ _ _ _ _ _ H) as [Hsub _].
      rewrite (node_at_weaken _ _ _ _ Hn Hsub). by eapply IH.
    + done.
    + destruct (String.eqb c "." || String.eqb c ".."); [done|].
      intros H _. pose proof (makedirs_from_dirs_added _ _ _ _ _ _ H) as [Hsub _].
      apply node_at_None_lookup in Hn as [Hn Hne].
      assert (Hnew : node_at (<[path_step cur c := Dir]> t) (path_step cur c) = Some Dir).
      { destruct (path_step cur c); [done|]. simpl. apply lookup_insert_eq. }
      rewrite (node_at_weaken _ _ _ _ Hnew Hsub). by eapply IH.
Qed.

Lemma tree_closed_parent t cur :
  tree_closed t -> node_at t cur = Some Dir -> node_at t (removelast cur) = Some Dir.
Proof.
  intros Hcl Hcur. destruct cur as [|x cur]; [done|].
  by apply (Hcl _ _ Hcur).
Qed.

Lemma tree_closed_mkdir t cur c :
  tree_closed t -> node_at t cur = Some Dir -> t !! (cur ++ [c]) = None ->
  tree_closed (<[cur ++ [c] := Dir]> t).
Proof.
  intros Hcl Hcur Hfresh l n. rewrite lookup_insert.
  assert (Hsub : t ⊆ <[cur ++ [c] := Dir]> t) by by apply insert_subseteq.
  case_decide as Hl.
  - intros _. subst l. rewrite removelast_last. by eapply node_at_weaken.
  - intros H. eapply node_at_weaken; [|done]. by eapply Hcl.
Qed.

Lemma makedirs_from_closed name t cur cs r t' :
  makedirs_from name t cur cs = (r, t') ->
  tree_closed t -> node_at t cur = Some Dir -> tree_closed t'.
Proof.
  revert t cur. induction cs as [|c cs IH]; intros t cur; simpl.
  - by intros [= _ <-].
  - destruct (node_at t (path_step cur c)) as [[|body]|] eqn:Hn.
    + intros H Hcl _. by eapply IH.
    + by intros [= _ <-].
    + destruct (String.eqb c "." || String.eqb c "..") eqn:Hc.
      * by intros [= _ <-].
      * rewrite (path_step_name _ _ Hc) in *.
        apply node_at_None_lookup in Hn as [Hn _].
        intros H Hcl Hcur. eapply IH; [exact H| |].
        -- by apply tree_closed_mkdir.
        -- destruct (cur ++ [c]) eqn:E; [done|]. simpl. apply lookup_insert_eq.
Qed.

Lemma makedirs_from_no_enoent name t cur cs msg :
  tree_closed t -> node_at t cur = Some Dir ->
  (makedirs_from name t cur cs).1 <> inl (FileNotFoundError msg).
Proof.
  revert t cur. induction cs as [|c cs IH]; intros t cur Hcl Hcur; simpl; [done|].
  destruct (node_at t (path_step cur c)) as [[|body]|] eqn:Hn.
  - by apply IH.
  - by destruct cs.
  - destruct (String.eqb c "." || String.eqb c "..") eqn:Hc.
    + exfalso. unfold path_step in Hn.
      destruct (String.eqb c "."); [congruence|].
      destruct (String.eqb c ".."); [|done].
      by rewrite (tree_closed_parent _ _ Hcl Hcur) in Hn.
    + rewrite (path_step_name _ _ Hc) in *.
      apply node_at_None_lookup in Hn as [Hn _].
      apply IH; [by apply tree_closed_mkdir|].
      destruct (cur ++ [c]) eqn:E; [done|]. simpl. apply lookup_insert_eq.
Qed.

Lemma makedirs_inv name w r w' :
  makedirs name w = (r, w') -> cwd w' = cwd w /\ dirs_added (tree w) (tree w').
Proof.
  unfold makedirs. destruct (String.eqb name "").
  { intros [= _ <-]. split; [done|apply dirs_added_refl]. }
  destruct (node_at (tree w) (path_start w name)) as [[|body]|].
  2,3: intros [= _ <-]; split; [done|apply dirs_added_refl].
  destruct (makedirs_from _ _ _ _) as [r0 t] eqn:Hmk.
  intros [= _ <-]. split; [done|]. simpl. by eapply makedirs_from_dirs_added.
Qed.

Lemma makedirs_resolves name p w w' :
  makedirs name w = (inr tt, w') ->
  node_at (tree w') (path_start w name) = Some Dir
  /\ exists l, walk p (tree w') (path_start w name) (path_comps name) = inr l
               /\ node_at (tree w') l = Some Dir.
Proof.
  unfold makedirs. destruct (String.eqb name ""); [done|].
  destruct (node_at (tree w) (path_start w name)) as [[|body]|] eqn:Hst; [|done..].
  destruct (makedirs_from _ _ _ _) as [r0 t] eqn:Hmk.
  intros [= -> <-]. simpl. split.
  - eapply node_at_weaken; [done|]. by eapply makedirs_from_dirs_added.
  - by eapply makedirs_from_walk.
Qed.

Lemma makedirs_wf name w r w' :
  makedirs name w = (r, w') -> wf_world w -> wf_world w'.
Proof.
  intros H [Hcl Hcwd]. pose proof (makedirs_inv _ _ _ _ H) as [Hc [Hsub _]].
  split; [|rewrite Hc; by eapply node_at_weaken].
  revert H. unfold makedirs. destruct (String.eqb name ""); [by intros [= _ <-]|].
  destruct (node_at (tree w) (path_start w name)) as [[|body]|] eqn:Hst.
  2,3: by intros [= _ <-].
  destruct (makedirs_from _ _ _ _) as [r0 t] eqn:Hmk.
  intros [= _ <-]. simpl. by eapply makedirs_from_closed.
Qed.

Lemma path_start_dir w p :
  wf_world w -> node_at (tree w) (path_start w p) = Some Dir.
Proof.
  intros [_ Hcwd]. unfold path_start. by destruct (Posixpath.isabs p).
Qed.

Lemma makedirs_no_enoent name w msg :
  wf_world w -> name <> "" ->
  (makedirs name w).1 <> inl (FileNotFoundError msg).
Proof.
  intros Hwf Hne. unfold makedirs.
  destruct (String.eqb_spec name ""); [done|].
  rewrite (path_start_dir _ _ Hwf).
  pose proof (makedirs_from_no_enoent name (tree w) (path_start w name)
                (path_comps name) msg (proj1 Hwf) (path_start_dir _ _ Hwf)) as H.
  by destruct (makedirs_from _ _ _ _).
Qed.

(** ** The file system: what [download_file] does *)

Lemma download_file_fails b key p w e w' :
  download_file b key p w = (inl e, w') -> w' = w.
Proof.
  unfold download_file.
  repeat match goal with
         | |- context [match ?x with _ => _ end] => destruct x
         end; congruence.
Qed.

Lemma walk_dir p t cur cs l :
  node_at t cur = Some Dir -> walk p t cur cs = inr l -> node_at t l = Some Dir.
Proof.
  revert cur. induction cs as [|c cs IH]; intros cur Hcur; simpl.
  - by intros [= <-].
  - destruct (node_at t (path_step cur c)) as [[|?]|] eqn:Hn; [|done..]. by apply IH.
Qed.

Lemma walk_result p t cur cs l :
  walk p t cur cs = inr l -> l = fold_left path_step cs cur.
Proof.
  revert cur. induction cs as [|c cs IH]; intros cur; simpl; [by intros [= <-]|].
  destruct (node_at t (path_step cur c)) as [[|?]|]; [apply IH|done..].
Qed.

Lemma walk_label p q t cur cs l :
  walk p t cur cs = inr l -> walk q t cur cs = inr l.
Proof.
  revert cur. induction cs as [|c cs IH]; intros cur; simpl; [done|].
  destruct (node_at t (path_step cur c)) as [[|?]|]; [apply IH|done..].
Qed.

Lemma walk_app p t cur cs1 cs2 :
  walk p t cur (cs1 ++ cs2)
  = match walk p t cur cs1 with
    | inr m => walk p t m cs2
    | inl e => inl e
    end.
Proof.
  revert cur. induction cs1 as [|c cs1 IH]; intros cur; simpl; [done|].
  destruct (node_at t (path_step cur c)) as [[|?]|]; [apply IH|done..].
Qed.

Lemma download_file_writes b key p w w' :
  download_file b key p w = (inr tt, w') ->
  exists body dir leaf,
    get_object b key = inr body /\ file_loc w p = Some (dir ++ [leaf])
    /\ node_at (tree w) dir = Some Dir
    /\ tree w !! (dir ++ [leaf]) <> Some Dir
    /\ w' = mkWorld (cwd w) (<[dir ++ [leaf] := File body]> (tree w)).
Proof.
  unfold download_file, file_loc.
  destruct (get_object b key) as [e|body]; [done|].
  destruct (String.eqb p ""); [done|].
  destruct (node_at (tree w) (path_start w p)) as [[|?]|] eqn:Hst; [|done..].
  destruct (walk _ _ _ _) as [e|dir] eqn:Hwalk; [done|].
  destruct (is_dir_name _); [done|].
  pose proof (walk_dir _ _ _ _ _ Hst Hwalk) as Hdir.
  destruct (tree w !! _) as [[|old]|] eqn:Hl; [done| |];
    intros [= <-]; exists body, dir, (List.last (Str.split "/" p) "");
    rewrite Hl; done.
Qed.

Lemma download_file_no_enoent b key p w dir msg :
  p <> "" ->
  node_at (tree w) (path_start w p) = Some Dir ->
  walk p (tree w) (path_start w p)
       (List.filter nonempty (removelast (Str.split "/" p))) = inr dir ->
  (download_file b key p w).1 <> inl (FileNotFoundError msg).
Proof.
  intros Hp Hst Hwalk. unfold download_file, get_object.
  destruct (get_error b key); [done|].
  destruct (assoc key (objects b)); [|done].
  destruct (String.eqb_spec p ""); [done|].
  rewrite Hst, Hwalk.
  destruct (is_dir_name _); [by destruct (_ && _)|].
  by destruct (tree w !! _) as [[|?]|].
Qed.

(** ** Paths as strings *)

Lemma append_cons x a b : String x a +:+ b = String x (a +:+ b).
Proof. reflexivity. Qed.

Lemma append_nil_l s : "" +:+ s = s.
Proof. reflexivity. Qed.

Lemma append_nil_r s : s +:+ "" = s.
Proof. induction s as [|a s IH]; rewrite ?append_cons; [done|]. by rewrite IH. Qed.

Lemma append_assoc a b c : (a +:+ b) +:+ c = a +:+ (b +:+ c).
Proof. induction a as [|x a IH]; rewrite ?append_cons; [done|]. by rewrite IH. Qed.

Lemma chr_in_app c a b :
  Str.chr_in c (a +:+ b) = Str.chr_in c a || Str.chr_in c b.
Proof.
  induction a as [|x a IH]; [done|].
  rewrite append_cons, !chr_in_cons, IH. by rewrite orb_assoc.
Qed.

Lemma rfind1_spec c s :
  (Str.rfind1 c s = 0 /\ Str.chr_in c s = false)
  \/ (exists a b, s = a +:+ String c b /\ Str.chr_in c b = false
                  /\ Str.rfind1 c s = S (String.length a)).
Proof.
  induction s as [|x s IH]; [by left|]. simpl.
  destruct IH as [[-> Hno]|(a & b & -> & Hb & ->)].
  - destruct (Ascii.eqb_spec x c) as [->|Hne].
    + right. by exists "", s.
    + left. split; [done|]. rewrite chr_in_cons, Hno.
      destruct (Ascii.eqb_spec c x); by subst.
  - right. by exists (String x a), b.
Qed.

Lemma take_app_plus a k r :
  Str.take (String.length a + k) (a +:+ r) = a +:+ Str.take k r.
Proof.
  induction a as [|x a IH]; [done|].
  rewrite !append_cons. simpl. by rewrite IH.
Qed.

Lemma drop_app_plus a k r :
  Str.drop (String.length a + k) (a +:+ r) = Str.drop k r.
Proof.
  induction a as [|x a IH]; [done|].
  rewrite !append_cons. simpl. by rewrite IH.
Qed.

Lemma take_app_S a c r :
  Str.take (S (String.length a)) (a +:+ String c r) = a +:+ String c "".
Proof. rewrite <- Nat.add_1_r. apply take_app_plus. Qed.

Lemma drop_app_S a c r : Str.drop (S (String.length a)) (a +:+ String c r) = r.
Proof. rewrite <- Nat.add_1_r. apply drop_app_plus. Qed.

Lemma split_nonnil c s : Str.split c s <> [].
Proof.
  induction s as [|x s IH]; [done|]. simpl.
  destruct (Ascii.eqb x c); [done|]. by destruct (Str.split c s).
Qed.

Lemma split_app c a b :
  Str.split c (a +:+ String c b) = Str.split c a ++ Str.split c b.
Proof.
  induction a as [|x a IH]; simpl.
  - by rewrite Ascii.eqb_refl.
  - rewrite IH. destruct (Ascii.eqb x c); [done|].
    pose proof (split_nonnil c a). by destruct (Str.split c a).
Qed.

Lemma split_absent c b : Str.chr_in c b = false -> Str.split c b = [b].
Proof.
  induction b as [|x b IH]; [done|]. rewrite chr_in_cons. simpl.
  rewrite (Ascii.eqb_sym c x). destruct (Ascii.eqb x c); [done|].
  simpl. intros H. by rewrite (IH H).
Qed.

Lemma rstrip_spec c s : exists k, s = Str.rstrip c s +:+ Str.times c k.
Proof.
  induction s as [|x s [k IH]]; [by exists 0|]. simpl.
  destruct (Str.rstrip c s) as [|y r] eqn:Hr.
  - change ("" +:+ Str.times c k) with (Str.times c k) in IH.
    destruct (Ascii.eqb_spec x c) as [->|Hne].
    + exists (S k). change (String c s = String c (Str.times c k)). by rewrite <- IH.
    + exists k. change (String x s = String x (Str.times c k)). by rewrite <- IH.
  - exists k. rewrite append_cons. by rewrite <- IH.
Qed.

Lemma rstrip_empty c s :
  Str.rstrip c s = "" -> s = Str.times c (String.length s).
Proof.
  induction s as [|x s IH]; [done|]. simpl.
  destruct (Str.rstrip c s) as [|y r]; [|done].
  destruct (Ascii.eqb_spec x c) as [->|]; [|done].
  intros _. by rewrite <- IH.
Qed.

Lemma rstrip_first c x s :
  Str.rstrip c (String x s) = "" \/ exists r, Str.rstrip c (String x s) = String x r.
Proof.
  simpl. destruct (Str.rstrip c s) as [|y r]; [|by eauto].
  destruct (Ascii.eqb x c); eauto.
Qed.

Lemma path_comps_slashes k : path_comps (Str.times "/" k) = [].
Proof. induction k as [|k IH]; [done|]. exact IH. Qed.

Lemma path_comps_app_slashes r k :
  path_comps (r +:+ Str.times "/" k) = path_comps r.
Proof.
  destruct k as [|k]; [cbn [Str.times]; by rewrite append_nil_r|].
  unfold path_comps. cbn [Str.times]. rewrite split_app, List.filter_app.
  fold (path_comps (Str.times "/" k)). rewrite path_comps_slashes.
  by rewrite app_nil_r.
Qed.

Lemma path_comps_rstrip s : path_comps (Str.rstrip "/" s) = path_comps s.
Proof.
  destruct (rstrip_spec "/" s) as [k Hk]. rewrite Hk at 2.
  by rewrite path_comps_app_slashes.
Qed.

(** The names of the directory part of a path are the names of the path
    but the last. *)
Lemma dirname_comps p :
  path_comps (Posixpath.dirname p)
  = List.filter nonempty (removelast (Str.split "/" p)).
Proof.
  unfold Posixpath.dirname, Posixpath.sep.
  destruct (rfind1_spec "/" p) as [[-> Hno]|(a & b & -> & Hb & ->)].
  - simpl. rewrite (split_absent _ _ Hno). by destruct p.
  - rewrite take_app_S, split_app, (split_absent _ _ Hb), removelast_last.
    transitivity (path_comps (a +:+ "/")).
    { destruct (_ && _); [apply path_comps_rstrip|done]. }
    change "/" with (Str.times "/" 1). apply path_comps_app_slashes.
Qed.

Lemma startswith_absent c s :
  Str.chr_in c s = false -> Str.startswith s (String c "") = false.
Proof.
  destruct s as [|x s]; [done|]. rewrite chr_in_cons. simpl.
  destruct (Ascii.eqb c x); [done|]. by rewrite andb_false_l.
Qed.

Lemma startswith_app_sep a c r :
  Str.startswith (a +:+ String c r) (String c "")
  = Str.startswith (a +:+ String c "") (String c "").
Proof.
  destruct a as [|x a]; [|by rewrite !append_cons].
  by rewrite !append_nil_l.
Qed.

Lemma dirname_isabs p : Posixpath.isabs (Posixpath.dirname p) = Posixpath.isabs p.
Proof.
  unfold Posixpath.isabs, Posixpath.dirname, Posixpath.sep.
  destruct (rfind1_spec "/" p) as [[-> Hno]|(a & b & -> & Hb & ->)].
  - cbn [Str.take String.eqb negb andb]. symmetry. by apply startswith_absent.
  - rewrite take_app_S, startswith_app_sep.
    destruct (negb (String.eqb (a +:+ "/") "")) eqn:E1; [|done].
    destruct (String.eqb_spec (a +:+ "/")
                (Str.times "/" (String.length (a +:+ "/")))) as [|Hns]; [done|].
    cbn [negb andb].
    destruct (a +:+ "/") as [|x h] eqn:Eh; [done|].
    destruct (rstrip_first "/" x h) as [He|[r ->]]; [|done].
    apply rstrip_empty in He. congruence.
Qed.

Lemma dirname_nonempty p : Str.chr_in "/" p = true -> Posixpath.dirname p <> "".
Proof.
  unfold Posixpath.dirname, Posixpath.sep.
  destruct (rfind1_spec "/" p) as [[-> Hno]|(a & b & -> & Hb & ->)]; [congruence|].
  intros _. rewrite take_app_S.
  destruct (String.eqb_spec (a +:+ "/") "") as [E|_]; [by destruct a|].
  destruct (String.eqb_spec (a +:+ "/")
              (Str.times "/" (String.length (a +:+ "/")))) as [|Hns];
    cbn [negb andb]; [by destruct a|].
  intros He. apply rstrip_empty in He. congruence.
Qed.

(** ** The loop of [download] *)

Lemma grows_refl w : grows w w.
Proof. repeat split; eauto. Qed.

Lemma grows_trans w1 w2 w3 : grows w1 w2 -> grows w2 w3 -> grows w1 w3.
Proof.
  intros (C12 & D12 & F12) (C23 & D23 & F23). repeat split.
  - congruence.
  - eauto.
  - intros l body H. destruct (F12 _ _ H) as [body' H']. eauto.
Qed.

Lemma dirs_added_grows w w' :
  cwd w' = cwd w -> dirs_added (tree w) (tree w') -> grows w w'.
Proof.
  intros Hc [Hsub _]. repeat split; [done|..].
  - intros l H. by eapply node_at_weaken.
  - intros l body H. exists body. by eapply lookup_weaken.
Qed.

Lemma write_grows w l body :
  tree w !! l <> Some Dir ->
  grows w (mkWorld (cwd w) (<[l := File body]> (tree w))).
Proof.
  intros Hl. repeat split; simpl.
  - intros l' H. destruct l' as [|x l']; [done|]. simpl in *.
    rewrite lookup_insert_ne; [done|]. congruence.
  - intros l' body' H. rewrite lookup_insert. case_decide; eauto.
Qed.

Lemma walk_grows p t t' cur cs l :
  (forall l, node_at t l = Some Dir -> node_at t' l = Some Dir) ->
  walk p t cur cs = inr l -> walk p t' cur cs = inr l.
Proof.
  intros Hd. revert cur. induction cs as [|c cs IH]; intros cur; simpl; [done|].
  destruct (node_at t (path_step cur c)) as [[|?]|] eqn:Hn; [|done..].
  rewrite (Hd _ Hn). apply IH.
Qed.

Lemma file_loc_grows w w' p l :
  grows w w' -> file_loc w p = Some l -> file_loc w' p = Some l.
Proof.
  intros (Hc & Hd & _). unfold file_loc, path_start. rewrite Hc.
  destruct (walk p (tree w) _ _) as [e|dir] eqn:Hwalk; [done|].
  by rewrite (walk_grows _ _ _ _ _ _ Hd Hwalk).
Qed.

Lemma getcwd_grows w w' : grows w w' -> getcwd w' = getcwd w.
Proof. intros (Hc & _). unfold getcwd. by rewrite Hc. Qed.

Lemma for_each_app {A} (xs ys : list A) body w :
  for_each (xs ++ ys) body w
  = match for_each xs body w with
    | (inl e, w') => (inl e, w')
    | (inr _, w') => for_each ys body w'
    end.
Proof.
  revert w. induction xs as [|x xs IH]; intros w; [done|].
  simpl. unfold bind. destruct (body x w) as [[e|[]] w1]; [done|]. apply IH.
Qed.

(** A loop keeps what every turn keeps; what makes a turn fail is what
    makes the loop fail. *)
Lemma for_each_inv {A} (P : world -> Prop) (Q : exn -> world -> Prop)
    (xs : list A) body w :
  P w ->
  (forall x w, x ∈ xs -> P w ->
     match body x w with
     | (inr _, w') => P w'
     | (inl e, w') => Q e w'
     end) ->
  match for_each xs body w with
  | (inr _, w') => P w'
  | (inl e, w') => Q e w'
  end.
Proof.
  revert w. induction xs as [|x xs IH]; intros w HP Hbody; [done|].
  simpl. unfold bind.
  pose proof (Hbody x w ltac:(left) HP) as Hx.
  destruct (body x w) as [[e|[]] w1]; [done|].
  apply IH; [done|]. intros y w2 Hy. apply Hbody. by right.
Qed.

(** One turn of the loop, case by case. *)
Lemma download_one_cases b product local_path key w :
  download_one b product local_path key w
  = if Str.endswith key "/" then (inr tt, w)
    else match Posixpath.relpath (getcwd w) key product with
         | inl e => (inl e, w)
         | inr rel =>
             match makedirs (Posixpath.dirname (Posixpath.join local_path rel)) w with
             | (inl e, wm) => (inl e, wm)
             | (inr _, wm) => download_file b key (Posixpath.join local_path rel) wm
             end
         end.
Proof.
  unfold download_one. destruct (Str.endswith key "/"); [done|].
  unfold bind, os_path_relpath.
  destruct (Posixpath.relpath _ _ _) as [e|rel]; [done|].
  by destruct (makedirs _ w) as [[e|[]] wm].
Qed.

Lemma download_unfold b product target w :
  download b product target w
  = match objects_filter b (slash_terminated product) with
    | inl e => (inl e, w)
    | inr [] =>
        (inl (FileNotFoundError ("Could not find any files for "
                                 +:+ slash_terminated product)), w)
    | inr files =>
        if negb (Str.endswith (safe_dir_of product) ".SAFE")
        then (inl (ValueError ("Expected a .SAFE directory, got: "
                               +:+ safe_dir_of product)), w)
        else
          let local_path := Posixpath.join target (safe_dir_of product) in
          match makedirs local_path w with
          | (inl e, w1) => (inl e, w1)
          | (inr _, w1) =>
              match for_each files
                      (download_one b (slash_terminated product) local_path) w1 with
              | (inl e, w2) => (inl e, w2)
              | (inr _, w2) => (inr local_path, w2)
              end
          end
    end.
Proof.
  unfold download. fold (slash_terminated product). fold (safe_dir_of product).
  unfold bind, lift, raise.
  destruct (objects_filter b (slash_terminated product)) as [e|[|key files]];
    [done..|].
  destruct (negb (Str.endswith (safe_dir_of product) ".SAFE")); [done|].
  destruct (makedirs _ w) as [[e|[]] w1]; [done|].
  by destruct (for_each _ _ w1) as [[e|[]] w2].
Qed.

Lemma objects_filter_prefix b prefix files key :
  objects_filter b prefix = inr files -> key ∈ files ->
  Str.startswith key prefix = true.
Proof.
  unfold objects_filter. destruct (list_error b prefix); [done|].
  intros [= <-] Hin. apply list_elem_of_fmap in Hin as [[k body] [-> Hin]].
  apply list_elem_of_In, List.filter_In in Hin. tauto.
Qed.

Lemma slash_terminated_nonempty product : slash_terminated product <> "".
Proof.
  unfold slash_terminated. destruct (Str.endswith product "/") eqn:E; simpl.
  - by intros ->.
  - by destruct product.
Qed.

Lemma startswith_nonempty key prefix :
  Str.startswith key prefix = true -> prefix <> "" -> key <> "".
Proof. destruct prefix; [done|]. by destruct key. Qed.

Lemma listed_key_nonempty b product files key :
  objects_filter b (slash_terminated product) = inr files -> key ∈ files ->
  key <> "".
Proof.
  intros Hls Hin. eapply startswith_nonempty.
  - by eapply objects_filter_prefix.
  - apply slash_terminated_nonempty.
Qed.

Lemma relpath_returns cwd key start :
  key <> "" -> exists rel, Posixpath.relpath cwd key start = inr rel.
Proof.
  intros Hne. unfold Posixpath.relpath.
  destruct (String.eqb_spec key ""); [done|].
  destruct (_ ++ _); eauto.
Qed.

Lemma endswith_chr_in c s :
  Str.endswith s (String c "") = true -> Str.chr_in c s = true.
Proof.
  induction s as [|x s IH]; [done|]. simpl. rewrite chr_in_cons.
  destruct (Ascii.eqb_spec x c) as [->|Hne].
  - by rewrite Ascii.eqb_refl.
  - intros H. rewrite IH; [by rewrite orb_true_r|].
    by destruct s.
Qed.

Lemma join_has_sep a b : a <> "" -> Str.chr_in "/" (Posixpath.join a b) = true.
Proof.
  intros Ha. unfold Posixpath.join.
  destruct (Str.startswith b "/") eqn:Hb.
  - destruct b as [|x b]; [done|]. cbn [Str.startswith] in Hb.
    rewrite chr_in_cons. by destruct (Ascii.eqb "/" x).
  - destruct (String.eqb_spec a ""); [done|]. cbn [orb].
    destruct (Str.endswith a "/") eqn:He.
    + by rewrite chr_in_app, (endswith_chr_in _ _ He).
    + rewrite !chr_in_app. by rewrite orb_true_r.
Qed.

Lemma join_nonempty a b : b <> "" -> Posixpath.join a b <> "".
Proof.
  intros Hb. unfold Posixpath.join.
  destruct (Str.startswith b "/"); [done|].
  destruct (_ || _); destruct a; try done.
Qed.

Lemma has_sep_nonempty p : Str.chr_in "/" p = true -> p <> "".
Proof. by intros H ->. Qed.

Lemma safe_suffix_nonempty s : Str.endswith s ".SAFE" = true -> s <> "".
Proof. by intros H ->. Qed.

Lemma tree_closed_write t dir leaf body :
  tree_closed t -> node_at t dir = Some Dir -> t !! (dir ++ [leaf]) <> Some Dir ->
  tree_closed (<[dir ++ [leaf] := File body]> t).
Proof.
  intros Hcl Hdir Hl l n. rewrite lookup_insert.
  assert (Hkeep : forall l', node_at t l' = Some Dir ->
            node_at (<[dir ++ [leaf] := File body]> t) l' = Some Dir).
  { intros [|x l'] H; [done|]. simpl in *.
    rewrite lookup_insert_ne; [done|]. congruence. }
  case_decide as Hl'.
  - intros _. subst l. rewrite removelast_last. by apply Hkeep.
  - intros H. apply Hkeep. by eapply Hcl.
Qed.

Lemma download_file_wf b key p w r w' :
  download_file b key p w = (r, w') -> wf_world w -> wf_world w'.
Proof.
  intros H [Hcl Hcwd]. destruct r as [e|[]].
  - by rewrite (download_file_fails _ _ _ _ _ _ H).
  - apply download_file_writes in H
      as (body & dir & leaf & _ & _ & Hdir & Hl & ->).
    split; simpl; [by apply tree_closed_write|].
    by apply (write_grows w (dir ++ [leaf]) body Hl).
Qed.

Lemma download_file_grows b key p w r w' :
  download_file b key p w = (r, w') -> grows w w'.
Proof.
  intros H. destruct r as [e|[]].
  - rewrite (download_file_fails _ _ _ _ _ _ H). apply grows_refl.
  - apply download_file_writes in H
      as (body & dir & leaf & _ & _ & Hdir & Hl & ->).
    by apply write_grows.
Qed.

Lemma makedirs_grows name w r w' : makedirs name w = (r, w') -> grows w w'.
Proof. intros [Hc Hd]%makedirs_inv. by apply dirs_added_grows. Qed.

Lemma download_one_grows b product local_path key w r w' :
  download_one b product local_path key w = (r, w') -> grows w w'.
Proof.
  rewrite download_one_cases. destruct (Str.endswith key "/").
  { intros [= _ <-]. apply grows_refl. }
  destruct (Posixpath.relpath _ _ _) as [e|rel].
  { intros [= _ <-]. apply grows_refl. }
  destruct (makedirs _ w) as [[e|[]] wm] eqn:Hmk.
  - intros [= _ <-]. by eapply makedirs_grows.
  - intros Hdl. eapply grows_trans; [by eapply makedirs_grows|].
    by eapply download_file_grows.
Qed.

Lemma download_one_wf b product local_path key w r w' :
  download_one b product local_path key w = (r, w') -> wf_world w -> wf_world w'.
Proof.
  rewrite download_one_cases. destruct (Str.endswith key "/").
  { by intros [= _ <-]. }
  destruct (Posixpath.relpath _ _ _) as [e|rel].
  { by intros [= _ <-]. }
  destruct (makedirs _ w) as [[e|[]] wm] eqn:Hmk.
  - intros [= _ <-]. by eapply makedirs_wf.
  - intros Hdl Hwf. eapply download_file_wf; [done|]. by eapply makedirs_wf.
Qed.

(** After [os.makedirs(os.path.dirname(p))], the directory part of [p]
    resolves. *)
Lemma makedirs_dirname_resolves p w wm :
  makedirs (Posixpath.dirname p) w = (inr tt, wm) ->
  node_at (tree wm) (path_start wm p) = Some Dir
  /\ exists dir,
       walk p (tree wm) (path_start wm p)
            (List.filter nonempty (removelast (Str.split "/" p))) = inr dir.
Proof.
  intros Hmk. pose proof (makedirs_inv _ _ _ _ Hmk) as [Hc _].
  destruct (makedirs_resolves _ p _ _ Hmk) as [Hst (dir & Hwalk & _)].
  assert (Hs : path_start w (Posixpath.dirname p) = path_start wm p).
  { unfold path_start. by rewrite dirname_isabs, Hc. }
  rewrite Hs, dirname_comps in *. eauto.
Qed.

Lemma relpath_raises cwd key start e :
  Posixpath.relpath cwd key start = inl e -> e = ValueError "no path specified".
Proof.
  unfold Posixpath.relpath. destruct (String.eqb key ""); [by intros [= <-]|].
  by destruct (_ ++ _).
Qed.

Lemma download_one_no_enoent b product local_path key w msg :
  wf_world w -> local_path <> "" ->
  (download_one b product local_path key w).1 <> inl (FileNotFoundError msg).
Proof.
  intros Hwf Hlp. rewrite download_one_cases.
  destruct (Str.endswith key "/"); [done|].
  destruct (Posixpath.relpath _ _ _) as [e|rel] eqn:Hrel.
  { apply relpath_raises in Hrel as ->. done. }
  pose proof (join_has_sep local_path rel Hlp) as Hsep.
  set (p := Posixpath.join local_path rel) in *.
  pose proof (makedirs_no_enoent (Posixpath.dirname p) w msg Hwf
                (dirname_nonempty _ Hsep)) as Hmk.
  destruct (makedirs _ w) as [[e|[]] wm] eqn:Emk; [done|].
  destruct (makedirs_dirname_resolves _ _ _ Emk) as [Hst [dir Hwalk]].
  by eapply download_file_no_enoent; [by apply has_sep_nonempty|..].
Qed.

(** ** What [download] raises and returns *)

Lemma basename_last p : Posixpath.basename p = List.last (Str.split "/" p) "".
Proof.
  unfold Posixpath.basename, Posixpath.sep.
  destruct (rfind1_spec "/" p) as [[-> Hno]|(a & b & -> & Hb & ->)].
  - by rewrite (split_absent _ _ Hno).
  - by rewrite drop_app_S, split_app, (split_absent _ _ Hb), last_last.
Qed.

Lemma makedirs_from_not_ValueError name t cur cs msg :
  (makedirs_from name t cur cs).1 <> inl (ValueError msg).
Proof.
  revert t cur. induction cs as [|c cs IH]; intros t cur; simpl; [done|].
  destruct (node_at t (path_step cur c)) as [[|body]|]; [apply IH|by destruct cs|].
  destruct (_ || _); [done|apply IH].
Qed.

Lemma makedirs_not_ValueError name w msg :
  (makedirs name w).1 <> inl (ValueError msg).
Proof.
  unfold makedirs. destruct (String.eqb name ""); [done|].
  destruct (node_at _ _) as [[|?]|]; [|done..].
  pose proof (makedirs_from_not_ValueError name (tree w) (path_start w name)
                (path_comps name) msg).
  by destruct (makedirs_from _ _ _ _).
Qed.

Lemma download_file_not_ValueError b key p w msg :
  (download_file b key p w).1 <> inl (ValueError msg).
Proof.
  unfold download_file, get_object.
  destruct (get_error b key); [done|].
  destruct (assoc key (objects b)); [|done].
  destruct (String.eqb p ""); [done|].
  destruct (node_at _ _) as [[|?]|]; [|done..].
  destruct (walk _ _ _ _) as [e|dir] eqn:Hwalk.
  - revert Hwalk. generalize (path_start w p).
    induction (List.filter nonempty _) as [|c cs IH]; intros cur; simpl; [done|].
    destruct (node_at _ _) as [[|?]|]; [apply IH|by intros [= <-]..].
  - destruct (is_dir_name _); [by destruct (_ && _)|].
    by destruct (tree w !! _) as [[|?]|].
Qed.

Lemma download_one_not_ValueError b product local_path key w msg :
  key <> "" ->
  (download_one b product local_path key w).1 <> inl (ValueError msg).
Proof.
  intros Hkey. rewrite download_one_cases.
  destruct (Str.endswith key "/"); [done|].
  destruct (relpath_returns (getcwd w) key product Hkey) as [rel ->].
  pose proof (makedirs_not_ValueError
                (Posixpath.dirname (Posixpath.join local_path rel)) w msg).
  destruct (makedirs _ w) as [[e|[]] wm]; [done|].
  apply download_file_not_ValueError.
Qed.

(** C9: the listing is looked at before the directory name; when it is
    empty, [download] raises [FileNotFoundError] and never [ValueError],
    whatever the directory name of the product is, and touches nothing. *)
Theorem empty_listing_checked_first b product target w :
  objects_filter b (slash_terminated product) = inr [] ->
  download b product target w
  = (inl (FileNotFoundError ("Could not find any files for "
                             +:+ slash_terminated product)), w)
  /\ forall msg, (download b product target w).1 <> inl (ValueError msg).
Proof. intros Hls. rewrite download_unfold, Hls. done. Qed.

Lemma empty_listing_checked_first_witness :
  Str.endswith (safe_dir_of "Sentinel-2/T57") ".SAFE" = false
  /\ download sample_bucket "Sentinel-2/T57" "" sample_world
     = (inl (FileNotFoundError "Could not find any files for Sentinel-2/T57/"),
        sample_world).
Proof.
  split; [reflexivity|].
  exact (proj1 (empty_listing_checked_first sample_bucket "Sentinel-2/T57" ""
                  sample_world eq_refl)).
Defined.

(** C3: with a non-empty listing, [download] raises the [ValueError] of
    the suffix check when the last component of the prefix (trailing
    slashes stripped) does not end with ['.SAFE'], before anything is
    created; when it does end with ['.SAFE'], no [ValueError] is raised. *)
Theorem suffix_check b product target w files :
  objects_filter b (slash_terminated product) = inr files ->
  files <> [] ->
  safe_dir_of product
  = List.last (Str.split "/" (Str.rstrip "/" (slash_terminated product))) ""
  /\ if Str.endswith (safe_dir_of product) ".SAFE"
     then forall msg, (download b product target w).1 <> inl (ValueError msg)
     else download b product target w
          = (inl (ValueError ("Expected a .SAFE directory, got: "
                              +:+ safe_dir_of product)), w).
Proof.
  intros Hls Hne. split; [apply basename_last|].
  rewrite download_unfold, Hls. destruct files as [|key files]; [done|].
  destruct (Str.endswith (safe_dir_of product) ".SAFE"); cbn [negb]; [|done].
  intros msg. cbv zeta.
  pose proof (makedirs_not_ValueError
                (Posixpath.join target (safe_dir_of product)) w msg) as Hmk.
  destruct (makedirs _ w) as [[e|[]] w1]; [simpl in *; congruence|].
  pose proof (for_each_inv (fun _ => True) (fun e _ => e <> ValueError msg)
                (key :: files)
                (download_one b (slash_terminated product)
                   (Posixpath.join target (safe_dir_of product))) w1 I) as Hloop.
  destruct (for_each _ _ w1) as [[e|[]] w2]; [|done].
  simpl. intros [= ->]. apply Hloop; [|done].
  intros x w' Hx _.
  pose proof (download_one_not_ValueError b (slash_terminated product)
                (Posixpath.join target (safe_dir_of product)) x w' msg
                (listed_key_nonempty _ _ _ _ Hls Hx)) as Hone.
  destruct (download_one _ _ _ _ w') as [[e|[]] w'']; [|done].
  simpl in Hone. congruence.
Qed.

Lemma suffix_check_witness :
  download sample_bucket "Sentinel-2" "out" sample_world
  = (inl (ValueError "Expected a .SAFE directory, got: Sentinel-2"), sample_world).
Proof.
  exact (proj2 (suffix_check sample_bucket "Sentinel-2" "out" sample_world _
                  eq_refl ltac:(discriminate))).
Defined.

(** C8: a successful [download] returns [os.path.join(target, d)], [d]
    being the last component of the prefix, ['.SAFE'] included. *)
Theorem download_returns_local_path b product target w p :
  (download b product target w).1 = inr p ->
  p = Posixpath.join target (safe_dir_of product)
  /\ safe_dir_of product
     = List.last (Str.split "/" (Str.rstrip "/" (slash_terminated product))) ""
  /\ Str.endswith (safe_dir_of product) ".SAFE" = true.
Proof.
  rewrite download_unfold.
  destruct (objects_filter b (slash_terminated product)) as [e|[|key files]];
    [done..|].
  destruct (Str.endswith (safe_dir_of product) ".SAFE"); cbn [negb]; [|done].
  cbv zeta. destruct (makedirs _ w) as [[e|[]] w1]; [done|].
  destruct (for_each _ _ w1) as [[e|[]] w2]; [done|].
  simpl. intros [= <-]. split_and!; [done|apply basename_last|done].
Qed.

Lemma download_returns_local_path_witness :
  (download sample_bucket "Sentinel-2/T56.SAFE" "out" sample_world).1
  = inr "out/T56.SAFE"
  /\ "out/T56.SAFE" = Posixpath.join "out" (safe_dir_of "Sentinel-2/T56.SAFE").
Proof.
  split; [vm_compute; reflexivity|].
  apply (download_returns_local_path sample_bucket "Sentinel-2/T56.SAFE" "out"
           sample_world "out/T56.SAFE").
  vm_compute. reflexivity.
Defined.

Lemma objects_filter_raises b prefix e :
  objects_filter b prefix = inl e -> exists msg, e = ClientError msg.
Proof.
  unfold objects_filter. destruct (list_error b prefix); [|done].
  intros [= <-]. eauto.
Qed.

(** C2: on a well-formed file system (the working directory exists,
    every entry lies in a directory; the file system modelled has no
    symbolic links), [download] raises [FileNotFoundError] exactly when
    the listing under the slash-terminated prefix is empty, and then
    leaves the file system as it was.  The condition is needed: with the
    working directory removed, [os.makedirs] raises the same class of
    exception although objects are listed. *)
Theorem not_found_iff_empty_listing b product target w :
  wf_world w ->
  ((exists msg, (download b product target w).1 = inl (FileNotFoundError msg))
   <-> objects_filter b (slash_terminated product) = inr [])
  /\ (objects_filter b (slash_terminated product) = inr [] ->
      (download b product target w).2 = w).
Proof.
  intros Hwf. rewrite download_unfold.
  destruct (objects_filter b (slash_terminated product)) as [e|[|key files]] eqn:Hls.
  - apply objects_filter_raises in Hls as [m ->].
    split; [|done]. split; [by intros [msg [=]]|done].
  - split; [|done]. split; [done|]. intros _. simpl. eauto.
  - split; [|done]. split; [|done]. intros [msg Hraise]. exfalso. revert Hraise.
    destruct (Str.endswith (safe_dir_of product) ".SAFE") eqn:Hsafe;
      cbn [negb]; [|done].
    cbv zeta. set (local_path := Posixpath.join target (safe_dir_of product)).
    assert (Hlp : local_path <> "")
      by apply join_nonempty, safe_suffix_nonempty, Hsafe.
    pose proof (makedirs_no_enoent local_path w msg Hwf Hlp) as Hmk.
    destruct (makedirs _ w) as [[e|[]] w1] eqn:Emk; [simpl in *; congruence|].
    pose proof (for_each_inv wf_world (fun e _ => e <> FileNotFoundError msg)
                  (key :: files)
                  (download_one b (slash_terminated product) local_path) w1
                  (makedirs_wf _ _ _ _ Emk Hwf)) as Hloop.
    destruct (for_each _ _ w1) as [[e|[]] w2]; [|done].
    simpl. intros [= ->]. apply Hloop; [|done].
    intros x w' _ Hwf'.
    pose proof (download_one_no_enoent b (slash_terminated product) local_path
                  x w' msg Hwf' Hlp) as Hone.
    pose proof (download_one_wf b (slash_terminated product) local_path x w') as Hwf1.
    destruct (download_one _ _ _ _ w') as [[e|[]] w'']; [|by eapply Hwf1].
    simpl in Hone. congruence.
Qed.

Lemma not_found_iff_empty_listing_witness :
  wf_world sample_world
  /\ objects_filter sample_bucket (slash_terminated "Sentinel-2/T57.SAFE") = inr []
  /\ exists msg,
       (download sample_bucket "Sentinel-2/T57.SAFE" "out" sample_world).1
       = inl (FileNotFoundError msg).
Proof.
  assert (Hwf : wf_world sample_world)
    by (apply (bool_decide_unpack _); vm_compute; exact I).
  split_and!; [exact Hwf|reflexivity|].
  apply (not_found_iff_empty_listing sample_bucket "Sentinel-2/T57.SAFE" "out"
           sample_world Hwf).
  reflexivity.
Defined.

(** Without the condition on the file system the exception does not tell
    an empty listing: when the working directory has been removed,
    [os.makedirs] of a relative destination raises [FileNotFoundError]
    although objects are listed. *)
Lemma not_found_with_listing_counterexample :
  ~ wf_world lost_world
  /\ objects_filter sample_bucket (slash_terminated "Sentinel-2/T56.SAFE")
     = inr ["Sentinel-2/T56.SAFE/"; "Sentinel-2/T56.SAFE/GRANULE/";
            "Sentinel-2/T56.SAFE/GRANULE/B02.jp2"; "Sentinel-2/T56.SAFE/INSPIRE.xml";
            "Sentinel-2/T56.SAFE/manifest.safe"]
  /\ download sample_bucket "Sentinel-2/T56.SAFE" "out" lost_world
     = (inl (FileNotFoundError "out/T56.SAFE"), lost_world)
  /\ ~ ((exists msg,
           (download sample_bucket "Sentinel-2/T56.SAFE" "out" lost_world).1
           = inl (FileNotFoundError msg))
        <-> objects_filter sample_bucket (slash_terminated "Sentinel-2/T56.SAFE")
            = inr []).
Proof.
  split_and!.
  - apply (bool_decide_unpack (~ wf_world lost_world)). vm_compute. exact I.
  - reflexivity.
  - vm_compute. reflexivity.
  - intros [H _]. by specialize (H (ex_intro _ "out/T56.SAFE" eq_refl)).
Qed.

(** C6: when the work on one listed file fails, [download] stops there.
    Whichever of the three calls made for the key raises (the relative
    path, [os.makedirs] for its directory, or the transfer), [download]
    raises that very exception, in the world as the failing call left
    it, and it does so whatever keys follow in the listing: none of them
    is processed.  The files written for earlier keys are all still
    there. *)
Theorem failed_transfer_aborts b product target w pre key post w1 w2 e w3 :
  objects_filter b (slash_terminated product) = inr (pre ++ key :: post) ->
  Str.endswith (safe_dir_of product) ".SAFE" = true ->
  makedirs (local_path_of product target) w = (inr tt, w1) ->
  for_each pre (download_one b (slash_terminated product)
                  (local_path_of product target)) w1 = (inr tt, w2) ->
  Str.endswith key "/" = false ->
  (Posixpath.relpath (getcwd w2) key (slash_terminated product) = inl e /\ w3 = w2)
  \/ (exists rel,
        Posixpath.relpath (getcwd w2) key (slash_terminated product) = inr rel
        /\ (makedirs (Posixpath.dirname
                        (Posixpath.join (local_path_of product target) rel)) w2
            = (inl e, w3)
            \/ exists wm,
                 makedirs (Posixpath.dirname
                             (Posixpath.join (local_path_of product target) rel)) w2
                 = (inr tt, wm)
                 /\ download_file b key
                      (Posixpath.join (local_path_of product target) rel) wm
                    = (inl e, w3))) ->
  download b product target w = (inl e, w3)
  /\ (forall post',
        for_each (pre ++ key :: post')
          (download_one b (slash_terminated product) (local_path_of product target)) w1
        = (inl e, w3))
  /\ forall l body, tree w2 !! l = Some (File body) -> tree w3 !! l = Some (File body).
Proof.
  intros Hls Hsafe Hmk Hpre Hkey Hfail.
  assert (Hone : download_one b (slash_terminated product)
                   (local_path_of product target) key w2 = (inl e, w3)).
  { rewrite download_one_cases, Hkey.
    destruct Hfail as [[-> ->]|(rel & -> & [->|(wm & -> & Hdl)])]; done. }
  assert (Hloop : forall post',
             for_each (pre ++ key :: post')
               (download_one b (slash_terminated product)
                  (local_path_of product target)) w1 = (inl e, w3)).
  { intros post'. rewrite for_each_app, Hpre. cbn [for_each]. unfold bind at 1.
    by rewrite Hone. }
  split_and!; [|exact Hloop|].
  - rewrite download_unfold, Hls, Hsafe. cbn [negb].
    destruct (pre ++ key :: post) eqn:E; [by destruct pre|]. rewrite <- E.
    cbv zeta. fold (local_path_of product target).
    by rewrite Hmk, Hloop.
  - intros l body Hl.
    destruct Hfail as [[_ ->]|(rel & _ & [Hmk3|(wm & Hmk3 & Hdl)])]; [done| |].
    + apply makedirs_inv in Hmk3 as [_ [Hsub _]]. by eapply lookup_weaken.
    + apply download_file_fails in Hdl as ->.
      apply makedirs_inv in Hmk3 as [_ [Hsub _]]. by eapply lookup_weaken.
Qed.

Lemma failed_transfer_aborts_witness :
  ((download flaky_bucket "Sentinel-2/T56.SAFE" "out" sample_world).1
   = inl (ClientError "Connection reset by peer")
   /\ read_file (download flaky_bucket "Sentinel-2/T56.SAFE" "out" sample_world).2
        "out/T56.SAFE/GRANULE/B02.jp2" = Some "jp2 data"
   /\ read_file (download flaky_bucket "Sentinel-2/T56.SAFE" "out" sample_world).2
        "out/T56.SAFE/manifest.safe" = None)
  /\ ((download flat_first_bucket "T56.SAFE" "" sample_world).1
      = inl (FileExistsError "T56.SAFE/DATA")
      /\ read_file (download flat_first_bucket "T56.SAFE" "" sample_world).2
           "T56.SAFE/DATA" = Some "flat"
      /\ read_file (download flat_first_bucket "T56.SAFE" "" sample_world).2
           "T56.SAFE/manifest.safe" = None).
Proof.
  split.
  - pose (w1 := (makedirs "out/T56.SAFE" sample_world).2).
    pose (w2 := (for_each ["Sentinel-2/T56.SAFE/"; "Sentinel-2/T56.SAFE/GRANULE/";
                           "Sentinel-2/T56.SAFE/GRANULE/B02.jp2"]
                   (download_one flaky_bucket "Sentinel-2/T56.SAFE/" "out/T56.SAFE")
                   w1).2).
    destruct (failed_transfer_aborts flaky_bucket "Sentinel-2/T56.SAFE" "out"
                sample_world
                ["Sentinel-2/T56.SAFE/"; "Sentinel-2/T56.SAFE/GRANULE/";
                 "Sentinel-2/T56.SAFE/GRANULE/B02.jp2"]
                "Sentinel-2/T56.SAFE/INSPIRE.xml"
                ["Sentinel-2/T56.SAFE/manifest.safe"]
                w1 w2 (ClientError "Connection reset by peer") w2)
      as (Hdl & _ & _); try (vm_compute; reflexivity).
    { right. exists "INSPIRE.xml". split; [vm_compute; reflexivity|].
      right. exists w2. split; vm_compute; reflexivity. }
    rewrite Hdl. split_and!; vm_compute; reflexivity.
  - pose (w1 := (makedirs "T56.SAFE" sample_world).2).
    pose (w2 := (for_each ["T56.SAFE/DATA"]
                   (download_one flat_first_bucket "T56.SAFE/" "T56.SAFE") w1).2).
    destruct (failed_transfer_aborts flat_first_bucket "T56.SAFE" "" sample_world
                ["T56.SAFE/DATA"] "T56.SAFE/DATA/B02.jp2" ["T56.SAFE/manifest.safe"]
                w1 w2 (FileExistsError "T56.SAFE/DATA") w2)
      as (Hdl & _ & _); try (vm_compute; reflexivity).
    { right. exists "DATA/B02.jp2". split; [vm_compute; reflexivity|].
      left. vm_compute. reflexivity. }
    rewrite Hdl. split_and!; vm_compute; reflexivity.
Defined.

(** ** The local mirror *)

Lemma downloaded_to_cons b prefix local_path x files w l body :
  downloaded_to b prefix local_path files w l body ->
  downloaded_to b prefix local_path (x :: files) w l body.
Proof.
  intros (key & rel & Hin & H). exists key, rel. split; [by right|done].
Qed.

(** A turn of the loop that succeeds either skips a directory marker or
    leaves the object at the path derived from the key, touching no other
    regular file. *)
Lemma download_one_returns b prefix local_path key w w' :
  download_one b prefix local_path key w = (inr tt, w') ->
  (Str.endswith key "/" = true /\ w' = w)
  \/ (Str.endswith key "/" = false
      /\ exists rel l body,
           Posixpath.relpath (getcwd w') key prefix = inr rel
           /\ file_loc w' (Posixpath.join local_path rel) = Some l
           /\ get_object b key = inr body
           /\ tree w' !! l = Some (File body)
           /\ forall l' body', l' <> l -> tree w' !! l' = Some (File body') ->
                               tree w !! l' = Some (File body')).
Proof.
  intros Hone. pose proof (download_one_grows _ _ _ _ _ _ _ Hone) as Hg.
  revert Hone. rewrite download_one_cases.
  destruct (Str.endswith key "/"); [intros [= <-]; by left|]. right.
  rewrite (getcwd_grows _ _ Hg). revert Hone.
  split; [done|]. destruct (Posixpath.relpath _ _ _) as [e|rel]; [done|].
  destruct (makedirs _ w) as [[e|[]] wm] eqn:Hmk; [done|].
  apply makedirs_inv in Hmk as [_ [_ Hold]].
  pose proof (download_file_grows _ _ _ _ _ _ Hone) as Hg'.
  apply download_file_writes in Hone
    as (body & dir & leaf & Hobj & Hloc & _ & _ & ->).
  exists rel, (dir ++ [leaf]), body. split_and!; try done.
  - by eapply file_loc_grows.
  - simpl. apply lookup_insert_eq.
  - simpl. intros l' body' Hne. rewrite lookup_insert_ne by done.
    intros H. by destruct (Hold _ _ H).
Qed.

Lemma loop_mirrors b prefix local_path xs w w' :
  for_each xs (download_one b prefix local_path) w = (inr tt, w') ->
  grows w w'
  /\ (forall key, key ∈ xs -> Str.endswith key "/" = false ->
        exists rel l body,
          Posixpath.relpath (getcwd w') key prefix = inr rel
          /\ file_loc w' (Posixpath.join local_path rel) = Some l
          /\ tree w' !! l = Some (File body)
          /\ downloaded_to b prefix local_path xs w' l body)
  /\ (forall l body, tree w' !! l = Some (File body) ->
        tree w !! l = Some (File body)
        \/ downloaded_to b prefix local_path xs w' l body).
Proof.
  revert w. induction xs as [|x xs IH]; intros w; simpl.
  - intros [= <-]. split_and!; [apply grows_refl| |by left].
    intros key Hin. by apply elem_of_nil in Hin.
  - unfold bind at 1.
    destruct (download_one b prefix local_path x w) as [[e|[]] w1] eqn:Hone; [done|].
    intros Hloop. destruct (IH w1 Hloop) as (Hg & Hkeys & Hfiles).
    pose proof (download_one_grows _ _ _ _ _ _ _ Hone) as Hg1.
    assert (Hfiles' : forall l body, tree w' !! l = Some (File body) ->
              tree w !! l = Some (File body)
              \/ downloaded_to b prefix local_path (x :: xs) w' l body).
    { intros l body Hl. destruct (Hfiles l body Hl) as [Hl1|Hd];
        [|by right; apply downloaded_to_cons].
      apply download_one_returns in Hone
        as [[_ ->]|(Hx & rel & lx & bx & Hrel & Hloc & Hobj & Hlx & Hother)];
        [by left|].
      destruct (decide (l = lx)) as [->|Hne]; [|left; by eapply Hother].
      right. exists x, rel. rewrite Hlx in Hl1. injection Hl1 as <-.
      rewrite (getcwd_grows _ _ Hg).
      split_and!; try done; [by left|by eapply file_loc_grows]. }
    split_and!; [by eapply grows_trans| |done].
    intros key Hin Hkey. apply elem_of_cons in Hin as [->|Hin].
    + apply download_one_returns in Hone
        as [[Hx _]|(_ & rel & lx & bx & Hrel & Hloc & Hobj & Hlx & _)];
        [congruence|].
      pose proof Hg as (_ & _ & Hf). destruct (Hf _ _ Hlx) as [body Hbody].
      exists rel, lx, body. rewrite (getcwd_grows _ _ Hg).
      split_and!; try done; [by eapply file_loc_grows|].
      destruct (Hfiles _ _ Hbody) as [Hsame|Hd]; [|by apply downloaded_to_cons].
      rewrite Hlx in Hsame. injection Hsame as <-.
      exists x, rel. rewrite (getcwd_grows _ _ Hg).
      split_and!; try done; [by left|by eapply file_loc_grows].
    + destruct (Hkeys key Hin Hkey) as (rel & l & body & Hrel & Hloc & Hl & Hd).
      exists rel, l, body. split_and!; try done. by apply downloaded_to_cons.
Qed.

(** What a completed [download] leaves behind, in general: the local
    directory exists, every listed key that does not end with ['/'] has a
    regular file at [os.path.join(local_path, os.path.relpath(key,
    product))], and nothing that was there before is lost. *)
Lemma download_mirror_of b product target w p w' :
  download b product target w = (inr p, w') ->
  exists files,
    objects_filter b (slash_terminated product) = inr files
    /\ files <> []
    /\ p = local_path_of product target
    /\ Str.endswith (safe_dir_of product) ".SAFE" = true
    /\ cwd w' = cwd w
    /\ dir_loc w' p = Some (lexical_loc w p)
    /\ mirror_of b (slash_terminated product) p files w w'.
Proof.
  rewrite download_unfold.
  destruct (objects_filter b (slash_terminated product)) as [e|[|key files]];
    [done..|].
  destruct (Str.endswith (safe_dir_of product) ".SAFE"); cbn [negb]; [|done].
  cbv zeta. fold (local_path_of product target).
  destruct (makedirs _ w) as [[e|[]] w1] eqn:Hmk; [done|].
  destruct (for_each _ _ w1) as [[e|[]] w2] eqn:Hloop; [done|].
  intros [= <- <-]. exists (key :: files).
  apply loop_mirrors in Hloop as (Hg2 & Hkeys & Hfiles).
  pose proof (makedirs_inv _ _ _ _ Hmk) as [Hc1 [_ Hold]].
  pose proof (grows_trans _ _ _ (makedirs_grows _ _ _ _ Hmk) Hg2)
    as (Hc & Hdirs & Hkept).
  assert (Hdest : dir_loc w2 (local_path_of product target)
                  = Some (lexical_loc w (local_path_of product target))).
  { destruct (makedirs_resolves _ (local_path_of product target) _ _ Hmk)
      as [_ (l & Hwalk & _)].
    destruct Hg2 as (Hc2 & Hd2 & _).
    apply (walk_grows _ _ _ _ _ _ Hd2) in Hwalk.
    unfold dir_loc, lexical_loc, path_start in *. rewrite Hc2, Hc1, Hwalk.
    by rewrite (walk_result _ _ _ _ _ Hwalk). }
  assert (Hfiles' : forall l body, tree w2 !! l = Some (File body) ->
            tree w !! l = Some (File body)
            \/ downloaded_to b (slash_terminated product)
                 (local_path_of product target) (key :: files) w2 l body).
  { intros l body Hl. destruct (Hfiles l body Hl) as [Hl1|Hd]; [|by right].
    left. by destruct (Hold _ _ Hl1). }
  split_and!; try done. unfold mirror_of. split_and!; try done.
  intros l body Hl. destruct (Hkept _ _ Hl) as [body' Hl'].
  destruct (Hfiles' _ _ Hl') as [Hsame|Hd]; [|by eauto].
  left. congruence.
Qed.

(** ** Relative paths of plain keys *)

Lemma split_no_sep c s : Forall (fun x => Str.chr_in c x = false) (Str.split c s).
Proof.
  induction s as [|a s IH]; simpl.
  - by repeat constructor.
  - destruct (Ascii.eqb_spec a c) as [->|Hne]; [by constructor|].
    assert (Ha : Ascii.eqb c a = false) by (destruct (Ascii.eqb_spec c a); by subst).
    destruct (Str.split c s) as [|h t].
    + repeat constructor. by rewrite chr_in_cons, Ha.
    + inversion IH; subst. constructor; [|done]. by rewrite chr_in_cons, Ha.
Qed.

Lemma join_split s : Str.join "/" (Str.split "/" s) = s.
Proof.
  induction s as [|a s IH]; [done|]. simpl.
  destruct (Ascii.eqb_spec a "/") as [->|Hne].
  - pose proof (split_nonnil "/" s).
    destruct (Str.split "/" s) as [|h t] eqn:E; [done|].
    change (Str.join "/" ("" :: h :: t))
      with ("" +:+ "/" +:+ Str.join "/" (h :: t)).
    by rewrite IH.
  - pose proof (split_nonnil "/" s).
    destruct (Str.split "/" s) as [|h t] eqn:E; [done|].
    destruct t as [|h' t].
    + simpl in *. by rewrite IH.
    + change (Str.join "/" (String a h :: h' :: t))
        with (String a h +:+ "/" +:+ Str.join "/" (h' :: t)).
      change (Str.join "/" (h :: h' :: t))
        with (h +:+ "/" +:+ Str.join "/" (h' :: t)) in IH.
      by rewrite append_cons, IH.
Qed.

Lemma split_join names :
  names <> [] -> Forall (fun x => Str.chr_in "/" x = false) names ->
  Str.split "/" (Str.join "/" names) = names.
Proof.
  induction names as [|x names IH]; [done|]. intros _ Hall.
  inversion Hall as [|? ? Hx Hrest]; subst.
  destruct names as [|y names]; [by apply split_absent|].
  change (Str.join "/" (x :: y :: names))
    with (x +:+ String "/" (Str.join "/" (y :: names))).
  by rewrite split_app, (split_absent _ _ Hx), IH.
Qed.

Lemma is_name_nonempty c : is_name c = true -> c <> "".
Proof. by intros H ->. Qed.

Lemma normpath_step_name i acc c :
  is_name c = true -> Posixpath.normpath_step i acc c = acc ++ [c].
Proof.
  unfold is_name, nonempty, Posixpath.normpath_step.
  destruct (String.eqb c ""), (String.eqb c "."), (String.eqb c ".."); done.
Qed.

Lemma normpath_names i acc names :
  forallb is_name names = true ->
  fold_left (Posixpath.normpath_step i) names acc = acc ++ names.
Proof.
  revert acc. induction names as [|c names IH]; intros acc; simpl.
  - by rewrite app_nil_r.
  - intros [Hc Hrest]%andb_true_iff.
    rewrite (normpath_step_name _ _ _ Hc), IH by done. by rewrite <- app_assoc.
Qed.

(** The components [normpath] keeps are names of the path. *)
Lemma normpath_comps_wf i comps acc :
  Forall (fun x => x <> "" /\ Str.chr_in "/" x = false) acc ->
  Forall (fun x => Str.chr_in "/" x = false) comps ->
  Forall (fun x => x <> "" /\ Str.chr_in "/" x = false)
         (fold_left (Posixpath.normpath_step i) comps acc).
Proof.
  revert acc. induction comps as [|c comps IH]; intros acc Hacc Hcs; [done|].
  inversion Hcs; subst. simpl. apply IH; [|done].
  unfold Posixpath.normpath_step.
  destruct (String.eqb_spec c ""); [done|]. cbn [orb].
  destruct (String.eqb c "."); [done|].
  destruct (_ || _).
  - apply Forall_app. split; [done|]. by repeat constructor.
  - clear -Hacc. induction Hacc as [|x [|y l] Hx Hl IHl]; simpl; try done.
    constructor; [done|]. by apply IHl.
Qed.

Lemma normpath_unfold path :
  path <> "" ->
  Posixpath.normpath path
  = let p := Str.times "/" (initial_slashes path)
             +:+ Str.join "/" (fold_left (Posixpath.normpath_step (initial_slashes path))
                                 (Str.split "/" path) []) in
    if String.eqb p "" then "." else p.
Proof.
  intros Hne. unfold Posixpath.normpath, initial_slashes, Posixpath.sep.
  by destruct (String.eqb_spec path "").
Qed.

Lemma endswith_app_inv s c :
  Str.endswith s (String c "") = true -> exists s0, s = s0 +:+ String c "".
Proof.
  induction s as [|a s IH]; [done|]. simpl.
  destruct (Ascii.eqb_spec a c) as [->|Hne].
  - destruct s as [|b s]; [by exists ""|].
    intros H. destruct (IH H) as [s0 ->]. by exists (String c s0).
  - intros H. destruct (IH H) as [s0 ->]. by exists (String a s0).
Qed.

Lemma endswith_app a b suf :
  Str.endswith b suf = true -> Str.endswith (a +:+ b) suf = true.
Proof.
  intros H. induction a as [|x a IH]; [done|].
  rewrite append_cons. cbn [Str.endswith]. rewrite IH.
  by destruct (String.eqb (String x (a +:+ b)) suf).
Qed.

Lemma startswith_app_l a b q :
  Str.startswith a q = true -> Str.startswith (a +:+ b) q = true.
Proof.
  revert a. induction q as [|c q IH]; intros a; [done|].
  destruct a as [|x a]; [done|]. rewrite append_cons. simpl.
  intros [-> H]%andb_true_iff. by rewrite IH.
Qed.

Lemma split_times i s :
  Str.split "/" (Str.times "/" i +:+ s) = repeat "" i ++ Str.split "/" s.
Proof.
  induction i as [|i IH]; [done|].
  cbn [Str.times repeat]. rewrite append_cons. simpl. by rewrite IH.
Qed.

Lemma filter_nonempty_repeat i : List.filter nonempty (repeat "" i) = [].
Proof. induction i as [|i IH]; [done|]. exact IH. Qed.

Lemma filter_nonempty_names L :
  Forall (fun x => x <> "" /\ Str.chr_in "/" x = false) L ->
  List.filter nonempty L = L.
Proof.
  induction 1 as [|x L [Hx _] _ IH]; [done|]. simpl. unfold nonempty at 1.
  destruct (String.eqb_spec x ""); [done|]. simpl. by rewrite IH.
Qed.

(** Splitting what [normpath] has joined gives the components back. *)
Lemma split_normalised i L :
  Forall (fun x => x <> "" /\ Str.chr_in "/" x = false) L ->
  List.filter nonempty (Str.split "/" (Str.times "/" i +:+ Str.join "/" L)) = L.
Proof.
  intros HL. rewrite split_times, List.filter_app, filter_nonempty_repeat.
  destruct L as [|x L]; [done|]. rewrite app_nil_l.
  rewrite split_join; [by apply filter_nonempty_names|done|].
  eapply Forall_impl; [exact HL|]. by intros ? [_ ?].
Qed.

Lemma commonprefix_len_app N M :
  Posixpath.commonprefix_len N (N ++ M) = length N.
Proof.
  induction N as [|x N IH]; [by destruct M|]. simpl.
  by rewrite String.eqb_refl, IH.
Qed.

Lemma endswith_name y x :
  x <> "" -> Str.chr_in "/" x = false -> Str.endswith (y +:+ x) "/" = false.
Proof.
  intros Hx Hsep. induction y as [|a y IH].
  - rewrite append_nil_l. destruct (Str.endswith x "/") eqn:E; [|done].
    apply endswith_chr_in in E. congruence.
  - rewrite append_cons. simpl. rewrite IH.
    destruct (Ascii.eqb a "/"); [|done].
    destruct (y +:+ x) eqn:E; [|done]. by destruct y.
Qed.

Lemma join_all_names a p :
  Forall (fun x => x <> "" /\ Str.chr_in "/" x = false) (a :: p) ->
  Posixpath.join_all a p = Str.join "/" (a :: p).
Proof.
  unfold Posixpath.join_all.
  assert (Hgen : forall acc,
             (exists y x, acc = y +:+ x /\ x <> "" /\ Str.chr_in "/" x = false) ->
             Forall (fun x => x <> "" /\ Str.chr_in "/" x = false) p ->
             fold_left Posixpath.join p acc
             = match p with [] => acc | _ => acc +:+ "/" +:+ Str.join "/" p end).
  { induction p as [|b p IH]; intros acc Hacc Hp; [done|].
    inversion Hp as [|? ? [Hb Hbsep] Hp']; subst. simpl fold_left.
    destruct Hacc as (y & x & -> & Hx & Hxsep).
    assert (Hj : Posixpath.join (y +:+ x) b = y +:+ x +:+ "/" +:+ b).
    { unfold Posixpath.join.
      rewrite (startswith_absent _ _ Hbsep), (endswith_name _ _ Hx Hxsep).
      destruct (String.eqb_spec (y +:+ x) "") as [E|_];
        cbn [orb]; [|by rewrite append_assoc].
      destruct y; [by rewrite append_nil_l in E|by rewrite append_cons in E]. }
    rewrite Hj, IH; [|by exists (y +:+ x +:+ "/"), b; rewrite !append_assoc|done].
    destruct p as [|c p]; [by rewrite !append_assoc|].
    change (Str.join "/" (b :: c :: p)) with (b +:+ "/" +:+ Str.join "/" (c :: p)).
    by rewrite !append_assoc. }
  intros Hall. inversion Hall as [|? ? [Ha Hasep] Hp]; subst.
  rewrite Hgen; [|by exists "", a|done].
  by destruct p.
Qed.

Lemma endswith_last_char a c : Str.endswith (String a "") (String c "") = true -> a = c.
Proof.
  cbn [Str.endswith String.eqb]. destruct (Ascii.eqb_spec a c); [done|].
  by cbn [String.eqb].
Qed.

Lemma endswith_tail a s c :
  s <> "" -> Str.endswith (String a s) (String c "") = Str.endswith s (String c "").
Proof.
  intros Hs. cbn [Str.endswith String.eqb].
  destruct (Ascii.eqb a c); [|done]. by destruct s.
Qed.

Lemma initial_slashes_app S x r :
  Str.endswith S "/" = true -> x <> "/"%char ->
  initial_slashes (S +:+ String x r) = initial_slashes S.
Proof.
  intros Hend Hx. unfold initial_slashes.
  assert (Hx' : Ascii.eqb "/" x = false) by (destruct (Ascii.eqb_spec "/" x); by subst).
  destruct S as [|c1 [|c2 [|c3 S3]]]; [done|..].
  - apply endswith_last_char in Hend as ->.
    rewrite append_cons, append_nil_l. cbn [Str.startswith].
    by rewrite Ascii.eqb_refl, Hx'.
  - rewrite endswith_tail in Hend by done. apply endswith_last_char in Hend as ->.
    rewrite !append_cons, append_nil_l. cbn [Str.startswith].
    rewrite Ascii.eqb_refl, Hx'. by destruct (Ascii.eqb "/" c1).
  - by rewrite !append_cons.
Qed.

Lemma plain_first_char rem :
  plain rem = true -> exists x r, rem = String x r /\ x <> "/"%char.
Proof.
  unfold plain. destruct rem as [|x r]; [done|]. simpl.
  destruct (Ascii.eqb_spec x "/") as [->|Hne]; [done|]. eauto.
Qed.

(** For a key that continues the prefix with a plain relative path,
    [os.path.relpath(key, prefix)] is that path. *)
Lemma relpath_plain getcwd prefix rem :
  Str.startswith getcwd "/" = true ->
  Str.endswith prefix "/" = true ->
  plain rem = true ->
  Posixpath.relpath getcwd (prefix +:+ rem) prefix = inr rem.
Proof.
  intros Hcwd Hprefix Hplain.
  destruct (plain_first_char _ Hplain) as (x & r & Hrem & Hx).
  destruct (endswith_app_inv _ _ Hprefix) as [p0 Hp0].
  (* both paths are made absolute in the same way *)
  assert (Habs : exists S,
             Str.endswith S "/" = true /\ Str.startswith S "/" = true
             /\ Posixpath.abspath getcwd prefix = Posixpath.normpath S
             /\ Posixpath.abspath getcwd (prefix +:+ rem)
                = Posixpath.normpath (S +:+ rem)).
  { unfold Posixpath.abspath, Posixpath.isabs.
    assert (Hsame : Str.startswith (prefix +:+ rem) "/" = Str.startswith prefix "/").
    { rewrite Hp0, append_assoc. change ("/" +:+ rem) with (String "/" rem).
      apply startswith_app_sep. }
    rewrite Hsame. destruct (Str.startswith prefix "/") eqn:Hp; cbn [negb].
    - by exists prefix.
    - unfold Posixpath.join. rewrite Hsame, Hp.
      destruct (_ || _).
      + exists (getcwd +:+ prefix). rewrite append_assoc.
        split_and!; [by apply endswith_app|by apply startswith_app_l|done..].
      + exists (getcwd +:+ "/" +:+ prefix). rewrite !append_assoc.
        split_and!; [by do 2 apply endswith_app|by apply startswith_app_l|done..]. }
  destruct Habs as (S & HSend & HSabs & HabsS & HabsK).
  destruct (endswith_app_inv _ _ HSend) as [S0 ->].
  unfold Posixpath.relpath.
  destruct (String.eqb_spec (prefix +:+ rem) "") as [E|_].
  { rewrite Hrem, Hp0, append_assoc in E. by destruct p0. }
  change (fun x0 : string => negb (String.eqb x0 "")) with nonempty.
  unfold Posixpath.sep. rewrite HabsS, HabsK.
  (* the two normalised paths *)
  set (i := initial_slashes (S0 +:+ "/")).
  set (N := fold_left (Posixpath.normpath_step i) (Str.split "/" S0) []).
  assert (HN : Forall (fun x => x <> "" /\ Str.chr_in "/" x = false) N).
  { apply normpath_comps_wf; [done|apply split_no_sep]. }
  assert (Hnames : Forall (fun x => x <> "" /\ Str.chr_in "/" x = false)
                          (Str.split "/" rem)).
  { apply Forall_forall. intros n Hn. split.
    - apply is_name_nonempty. unfold plain in Hplain.
      rewrite forallb_forall in Hplain. by apply Hplain, list_elem_of_In.
    - by apply (proj1 (Forall_forall _ _) (split_no_sep "/" rem)). }
  assert (Hi : exists i', i = S i').
  { unfold i, initial_slashes. rewrite HSabs. destruct (_ && _); eauto. }
  destruct Hi as [i' Hi].
  assert (HnS : Posixpath.normpath (S0 +:+ "/") = Str.times "/" i +:+ Str.join "/" N).
  { rewrite normpath_unfold by by destruct S0. cbv zeta. fold i.
    change (S0 +:+ "/") with (S0 +:+ String "/" "").
    rewrite split_app, fold_left_app. fold N.
    change (fold_left (Posixpath.normpath_step i) (Str.split "/" "") N) with N.
    rewrite Hi. cbn [Str.times]. by rewrite append_cons. }
  assert (HnK : Posixpath.normpath ((S0 +:+ "/") +:+ rem)
                = Str.times "/" i +:+ Str.join "/" (N ++ Str.split "/" rem)).
  { assert (HiK : initial_slashes ((S0 +:+ "/") +:+ rem) = i)
      by (rewrite Hrem; by apply initial_slashes_app).
    rewrite normpath_unfold by (rewrite append_assoc, Hrem; by destruct S0).
    cbv zeta. rewrite HiK.
    rewrite append_assoc. change ("/" +:+ rem) with (String "/" rem).
    rewrite split_app, fold_left_app. fold N.
    rewrite normpath_names by done.
    rewrite Hi. cbn [Str.times]. by rewrite append_cons. }
  rewrite HnS, HnK, !split_normalised; [|by apply Forall_app|done].
  rewrite commonprefix_len_app, Nat.sub_diag, skipn_app, skipn_all, Nat.sub_diag.
  cbn [repeat app skipn].
  pose proof (split_nonnil "/" rem) as Hnn.
  destruct (Str.split "/" rem) as [|a p] eqn:Esplit; [done|].
  change (drop 0 (a :: p)) with (a :: p). cbv beta iota.
  rewrite join_all_names by done. by rewrite <- Esplit, join_split.
Qed.

(** ** Where plain keys land *)

Lemma path_step_names cur names :
  forallb is_name names = true -> fold_left path_step names cur = cur ++ names.
Proof.
  revert cur. induction names as [|c names IH]; intros cur; simpl.
  - by rewrite app_nil_r.
  - intros [Hc Hrest]%andb_true_iff. rewrite IH by done.
    rewrite path_step_name; [by rewrite <- app_assoc|].
    unfold is_name in Hc.
    by destruct (String.eqb c "."), (String.eqb c ".."), (nonempty c).
Qed.

Lemma forallb_removelast {A} (f : A -> bool) l :
  forallb f l = true -> forallb f (removelast l) = true.
Proof.
  induction l as [|x [|y l] IH]; [done..|].
  intros [Hx Hrest]%andb_true_iff. cbn [removelast forallb].
  rewrite Hx. by apply IH.
Qed.

Lemma filter_nonempty_is_name names :
  forallb is_name names = true -> List.filter nonempty names = names.
Proof.
  induction names as [|c names IH]; [done|]. simpl.
  intros [Hc Hrest]%andb_true_iff. unfold is_name in Hc.
  destruct (nonempty c); [|done]. by rewrite IH.
Qed.

Lemma list_last_app {A} (l1 l2 : list A) d :
  l2 <> [] -> List.last (l1 ++ l2) d = List.last l2 d.
Proof.
  intros Hl2. induction l1 as [|x l1 IH]; [done|].
  simpl. rewrite IH. destruct (l1 ++ l2) eqn:E; [|done].
  by apply app_eq_nil in E as [_ ->].
Qed.

Lemma startswith_app_nonempty p r q :
  p <> "" -> Str.startswith (p +:+ r) (String q "") = Str.startswith p (String q "").
Proof. destruct p; [done|]. by rewrite append_cons. Qed.

Lemma join_plain p rem :
  p <> "" -> Str.endswith p "/" = false -> plain rem = true ->
  Posixpath.join p rem = p +:+ String "/" rem.
Proof.
  intros Hp Hend Hplain. destruct (plain_first_char _ Hplain) as (x & r & -> & Hx).
  unfold Posixpath.join. cbn [Str.startswith].
  destruct (Ascii.eqb_spec "/" x) as [E|_]; [by subst|]. cbn [andb].
  rewrite Hend. by destruct (String.eqb_spec p "").
Qed.

(** The location of the local file of a plain key: the destination
    directory, then the names of the key's relative path. *)
Lemma file_loc_plain w p rem l :
  p <> "" -> Str.endswith p "/" = false -> plain rem = true ->
  file_loc w (Posixpath.join p rem) = Some l ->
  l = lexical_loc w p ++ Str.split "/" rem
  /\ dir_loc w p = Some (lexical_loc w p).
Proof.
  intros Hp Hend Hplain. rewrite join_plain by done.
  unfold file_loc, dir_loc, lexical_loc, path_start, Posixpath.isabs.
  rewrite startswith_app_nonempty by done.
  set (start := if Str.startswith p "/" then [] else cwd w).
  set (names := Str.split "/" rem). assert (Hnames : forallb is_name names = true) by done.
  assert (Hnn : names <> []) by apply split_nonnil.
  rewrite split_app. fold names.
  rewrite removelast_app, List.filter_app, list_last_app by done.
  rewrite (filter_nonempty_is_name (removelast names))
    by by apply forallb_removelast.
  fold (path_comps p). rewrite walk_app.
  destruct (walk _ (tree w) start (path_comps p)) as [e|m] eqn:Hm; [done|].
  rewrite (walk_label _ p _ _ _ _ Hm).
  apply walk_result in Hm as ->.
  destruct (walk _ (tree w) _ (removelast names)) as [e|dir] eqn:Hdir; [done|].
  apply walk_result in Hdir as ->.
  rewrite path_step_names by by apply forallb_removelast.
  destruct (is_dir_name _); [done|]. intros [= <-]. split; [|done].
  by rewrite <- app_assoc, <- app_removelast_last.
Qed.

Lemma basename_no_sep p : Str.chr_in "/" (Posixpath.basename p) = false.
Proof.
  unfold Posixpath.basename, Posixpath.sep.
  destruct (rfind1_spec "/" p) as [[-> Hno]|(a & b & -> & Hb & ->)]; [done|].
  by rewrite drop_app_S.
Qed.

Lemma local_path_shape product target :
  Str.endswith (safe_dir_of product) ".SAFE" = true ->
  local_path_of product target <> ""
  /\ Str.endswith (local_path_of product target) "/" = false.
Proof.
  intros Hsafe. pose proof (safe_suffix_nonempty _ Hsafe) as Hne.
  pose proof (basename_no_sep (Str.rstrip "/" (slash_terminated product))) as Hsep.
  fold (safe_dir_of product) in Hsep.
  split; [by apply join_nonempty|].
  unfold local_path_of, Posixpath.join.
  rewrite (startswith_absent _ _ Hsep).
  destruct (_ || _).
  - by apply endswith_name.
  - rewrite <- append_assoc. by apply endswith_name.
Qed.

Lemma startswith_remainder key prefix :
  Str.startswith key prefix = true -> key = prefix +:+ key_remainder prefix key.
Proof.
  intros [r ->]%startswith_app. unfold key_remainder.
  rewrite <- (Nat.add_0_r (String.length prefix)). by rewrite drop_app_plus.
Qed.

Lemma getcwd_absolute w : Str.startswith (getcwd w) "/" = true.
Proof. unfold getcwd. by rewrite append_cons. Qed.

(** ** The exact mirror *)

Lemma slash_terminated_ends product :
  Str.endswith (slash_terminated product) "/" = true.
Proof.
  unfold slash_terminated. destruct (Str.endswith product "/") eqn:E; [done|].
  by apply endswith_app.
Qed.






(** Two keys that differ by a doubled slash end up in one file, which
    holds the object listed last. *)
Example doubled_slash_keys_share_a_file :
  plain_keys "T56.SAFE/" ["T56.SAFE//B02.jp2"; "T56.SAFE/B02.jp2"] = false
  /\ (download doubled_slash_bucket "T56.SAFE" "" sample_world).1 = inr "T56.SAFE"
  /\ files_below (download doubled_slash_bucket "T56.SAFE" "" sample_world).2
       ["home"; "user"; "T56.SAFE"]
     = [["home"; "user"; "T56.SAFE"; "B02.jp2"]]
  /\ read_file (download doubled_slash_bucket "T56.SAFE" "" sample_world).2
       "T56.SAFE/B02.jp2" = Some "second".
Proof. split_and!; vm_compute; reflexivity. Qed.

(** A key with [..] after the prefix is written outside the destination
    directory. *)
Example climbing_key_leaves_destination :
  plain_keys "T56.SAFE/" ["T56.SAFE/../escaped.txt"] = false
  /\ (download climbing_bucket "T56.SAFE" "" sample_world).1 = inr "T56.SAFE"
  /\ files_below (download climbing_bucket "T56.SAFE" "" sample_world).2
       ["home"; "user"; "T56.SAFE"] = []
  /\ read_file (download climbing_bucket "T56.SAFE" "" sample_world).2
       "escaped.txt" = Some "outside".
Proof. split_and!; vm_compute; reflexivity. Qed.

(** * The rest of the notebook, and more on [download] *)

(** ** What [download] leaves as it is *)

Lemma loop_grows b prefix local_path xs w :
  grows w (for_each xs (download_one b prefix local_path) w).2.
Proof.
  pose proof (for_each_inv (grows w) (fun _ => grows w) xs
                (download_one b prefix local_path) w (grows_refl w)) as H.
  destruct (for_each _ _ w) as [[e|[]] w']; simpl; apply H; intros x w1 _ Hg;
    destruct (download_one b prefix local_path x w1) as [[e1|[]] w2] eqn:E;
    (eapply grows_trans; [exact Hg|eapply download_one_grows, E]).
Qed.

Lemma loop_wf b prefix local_path xs w :
  wf_world w -> wf_world (for_each xs (download_one b prefix local_path) w).2.
Proof.
  intros Hwf.
  pose proof (for_each_inv wf_world (fun _ => wf_world) xs
                (download_one b prefix local_path) w Hwf) as H.
  destruct (for_each _ _ w) as [[e|[]] w']; simpl; apply H; intros x w1 _ Hw1;
    destruct (download_one b prefix local_path x w1) as [[e1|[]] w2] eqn:E;
    eapply download_one_wf; eauto.
Qed.

(** X1: whatever its outcome, [download] removes nothing and retypes
    nothing: every directory is still a directory afterwards, every
    regular file still a regular file (its content may be new), and the
    working directory is the same. *)
Theorem download_keeps_entries b product target w :
  grows w (download b product target w).2.
Proof.
  rewrite download_unfold.
  destruct (objects_filter b (slash_terminated product)) as [e|[|key files]];
    [apply grows_refl..|].
  destruct (negb _); [apply grows_refl|]. cbv zeta.
  destruct (makedirs _ w) as [[e|[]] w1] eqn:Emk;
    [eapply makedirs_grows, Emk|].
  pose proof (loop_grows b (slash_terminated product)
                (Posixpath.join target (safe_dir_of product)) (key :: files) w1) as Hl.
  destruct (for_each _ _ w1) as [[e|[]] w2]; simpl in *;
    (eapply grows_trans; [eapply makedirs_grows, Emk|exact Hl]).
Qed.

(** X2: [download] keeps the file system well formed, whatever its
    outcome: afterwards every entry still lies in a directory and the
    working directory still exists. *)
Theorem download_keeps_well_formed b product target w :
  wf_world w -> wf_world (download b product target w).2.
Proof.
  intros Hwf. rewrite download_unfold.
  destruct (objects_filter b (slash_terminated product)) as [e|[|key files]];
    [done..|].
  destruct (negb _); [done|]. cbv zeta.
  destruct (makedirs _ w) as [[e|[]] w1] eqn:Emk;
    [eapply makedirs_wf; eauto|].
  pose proof (loop_wf b (slash_terminated product)
                (Posixpath.join target (safe_dir_of product)) (key :: files) w1
                (makedirs_wf _ _ _ _ Emk Hwf)) as Hl.
  by destruct (for_each _ _ w1) as [[e|[]] w2].
Qed.

Lemma download_keeps_well_formed_witness :
  wf_world sample_world
  /\ wf_world (download flaky_bucket "Sentinel-2/T56.SAFE" "out" sample_world).2.
Proof.
  assert (Hwf : wf_world sample_world)
    by (apply (bool_decide_unpack _); vm_compute; exact I).
  split; [exact Hwf|].
  apply (download_keeps_well_formed flaky_bucket "Sentinel-2/T56.SAFE" "out"
           sample_world Hwf).
Defined.

(** ** Directory markers *)




Lemma assoc_without_markers key os :
  is_marker key = false ->
  assoc key (List.filter (fun o => negb (is_marker (fst o))) os) = assoc key os.
Proof.
  intros Hk. induction os as [|[k v] os IH]; [done|]. simpl.
  destruct (is_marker k) eqn:Hm; simpl.
  - destruct (String.eqb_spec k key) as [->|_]; [congruence|done].
  - by rewrite IH.
Qed.

Lemma get_object_without_markers b key :
  is_marker key = false -> get_object (without_markers b) key = get_object b key.
Proof.
  intros Hk. unfold get_object, without_markers. simpl.
  by rewrite assoc_without_markers.
Qed.

Lemma download_one_without_markers b prefix local_path key w :
  download_one (without_markers b) prefix local_path key w
  = download_one b prefix local_path key w.
Proof.
  rewrite !download_one_cases.
  destruct (Str.endswith key "/") eqn:Hk; [done|].
  destruct (Posixpath.relpath _ _ _); [done|].
  destruct (makedirs _ w) as [[e|[]] wm]; [done|].
  unfold download_file. by rewrite get_object_without_markers.
Qed.

Lemma loop_without_markers b prefix local_path xs w :
  for_each (List.filter (fun key => negb (is_marker key)) xs)
    (download_one (without_markers b) prefix local_path) w
  = for_each xs (download_one b prefix local_path) w.
Proof.
  revert w. induction xs as [|x xs IH]; intros w; [done|]. simpl.
  destruct (is_marker x) eqn:Hx; simpl; unfold bind.
  - rewrite (download_one_cases b). unfold is_marker in Hx. rewrite Hx. apply IH.
  - rewrite download_one_without_markers.
    destruct (download_one b _ _ _ w) as [[e|[]] w1]; [done|apply IH].
Qed.

Lemma objects_filter_without_markers b prefix :
  objects_filter (without_markers b) prefix
  = match objects_filter b prefix with
    | inl e => inl e
    | inr files => inr (List.filter (fun key => negb (is_marker key)) files)
    end.
Proof.
  unfold objects_filter, without_markers. simpl.
  destruct (list_error b prefix); [done|]. f_equal.
  induction (objects b) as [|[k v] os IH]; [done|]. simpl.
  destruct (is_marker k) eqn:Hm; simpl;
    destruct (Str.startswith k prefix); simpl; rewrite ?Hm; simpl; by rewrite ?IH.
Qed.

(** X4: directory markers change nothing but the emptiness test: as soon
    as one listed key is not a marker, [download] does to the file system
    and returns exactly what it would if the bucket held no markers at
    all; a folder without objects is not made locally. *)
Theorem markers_have_no_effect b product target w files :
  objects_filter b (slash_terminated product) = inr files ->
  existsb (fun key => negb (is_marker key)) files = true ->
  download (without_markers b) product target w = download b product target w.
Proof.
  intros Hls Hex. rewrite !download_unfold, objects_filter_without_markers, Hls.
  destruct (List.filter _ files) as [|key' files'] eqn:Hf.
  { exfalso. apply existsb_exists in Hex as (x & Hin & Hx).
    assert (In x (List.filter (fun key => negb (is_marker key)) files))
      by (apply filter_In; auto).
    rewrite Hf in *. done. }
  destruct files as [|key files]; [done|].
  destruct (negb _); [done|]. cbv zeta.
  destruct (makedirs _ w) as [[e|[]] w1]; [done|].
  by rewrite <- Hf, loop_without_markers.
Qed.

Lemma markers_have_no_effect_witness :
  download (without_markers sample_bucket) "Sentinel-2/T56.SAFE" "out" sample_world
  = download sample_bucket "Sentinel-2/T56.SAFE" "out" sample_world.
Proof.
  apply (markers_have_no_effect sample_bucket "Sentinel-2/T56.SAFE" "out" sample_world
           ["Sentinel-2/T56.SAFE/"; "Sentinel-2/T56.SAFE/GRANULE/";
            "Sentinel-2/T56.SAFE/GRANULE/B02.jp2"; "Sentinel-2/T56.SAFE/INSPIRE.xml";
            "Sentinel-2/T56.SAFE/manifest.safe"]); reflexivity.
Defined.

(** ** [get_product] *)

Lemma split_basename p : snd (Posixpath.split p) = Posixpath.basename p.
Proof. done. Qed.

Lemma get_product_unfold str s3 bucket_name object_url output_path p :
  get_product str s3 bucket_name object_url output_path p
  = match makedirs output_path (fs p) with
    | (inl e, w1) => (inl e, mkProcess (stdout p) w1)
    | (inr _, w1) =>
        let path := Posixpath.join output_path (Posixpath.basename object_url) in
        let line := "Downloading " +:+ object_url +:+ " to " +:+ path +:+ "..." in
        match download_file (s3 bucket_name) object_url path w1 with
        | (inl e, w2) =>
            (inl e, mkProcess (stdout p ++ [line; "Error downloading file: " +:+ str e]) w2)
        | (inr _, w2) =>
            (inr path,
             mkProcess (stdout p ++ [line; "Successfully downloaded to " +:+ path]) w2)
        end
    end.
Proof.
  unfold get_product, io_bind, on_fs, try_except, print, io_ret, io_raise.
  destruct (makedirs output_path (fs p)) as [[e|[]] w1]; [done|].
  unfold Posixpath.split. fold (Posixpath.basename object_url). simpl.
  destruct (download_file _ _ _ w1) as [[e|[]] w2]; simpl; by rewrite <- app_assoc.
Qed.

(** X5: when [get_product] returns, the path it returns is the output
    directory joined with the last name of the key, whatever folders the
    key names; reading that path gives the object of the key; the output
    directory exists; and two lines were printed, the announcement and
    the confirmation. *)
Theorem get_product_returns str s3 bucket_name object_url output_path p path p' :
  get_product str s3 bucket_name object_url output_path p = (inr path, p') ->
  path = Posixpath.join output_path (Posixpath.basename object_url)
  /\ (exists body, get_object (s3 bucket_name) object_url = inr body
                   /\ read_file (fs p') path = Some body)
  /\ (exists d, dir_loc (fs p') output_path = Some d
                /\ node_at (tree (fs p')) d = Some Dir)
  /\ stdout p'
     = stdout p ++ ["Downloading " +:+ object_url +:+ " to " +:+ path +:+ "...";
                    "Successfully downloaded to " +:+ path].
Proof.
  rewrite get_product_unfold.
  destruct (makedirs output_path (fs p)) as [[e|[]] w1] eqn:Emk; [done|].
  cbv zeta.
  destruct (download_file _ _ _ w1) as [[e|[]] w2] eqn:Edl; [done|].
  intros [= <- <-]. simpl. split_and!; [done| | |done].
  - pose proof (download_file_grows _ _ _ _ _ _ Edl) as Hg.
    apply download_file_writes in Edl
      as (body & dir & leaf & Hget & Hloc & _ & _ & ->).
    exists body. split; [done|]. unfold read_file.
    rewrite (file_loc_grows _ _ _ _ Hg Hloc). simpl. by rewrite lookup_insert_eq.
  - pose proof (download_file_grows _ _ _ _ _ _ Edl) as (Hcwd & Hdirs & _).
    pose proof (makedirs_inv _ _ _ _ Emk) as [Hcwd1 _].
    apply (makedirs_resolves _ output_path) in Emk as (Hst & l & Hwalk & Hl).
    exists l. unfold dir_loc, path_start in *. rewrite Hcwd, Hcwd1.
    rewrite (walk_grows _ _ _ _ _ _ Hdirs Hwalk). auto.
Qed.

(** X6: when [get_product] raises, the exception is the one raised
    inside, unchanged; no regular file has appeared or changed, only
    directories may have been made; and either nothing was printed (the
    output directory could not be made) or the announcement and an error
    line with the text of that exception (the transfer failed, and the
    file system is as [os.makedirs] left it). *)
Theorem get_product_raises str s3 bucket_name object_url output_path p e p' :
  get_product str s3 bucket_name object_url output_path p = (inl e, p') ->
  cwd (fs p') = cwd (fs p)
  /\ dirs_added (tree (fs p)) (tree (fs p'))
  /\ (makedirs output_path (fs p) = (inl e, fs p') /\ stdout p' = stdout p
      \/ let path := Posixpath.join output_path (Posixpath.basename object_url) in
         makedirs output_path (fs p) = (inr tt, fs p')
         /\ download_file (s3 bucket_name) object_url path (fs p') = (inl e, fs p')
         /\ stdout p'
            = stdout p ++ ["Downloading " +:+ object_url +:+ " to " +:+ path +:+ "...";
                           "Error downloading file: " +:+ str e]).
Proof.
  rewrite get_product_unfold.
  destruct (makedirs output_path (fs p)) as [[e1|[]] w1] eqn:Emk.
  - intros [= <- <-]. simpl. apply makedirs_inv in Emk as [? ?]. auto.
  - cbv zeta.
    destruct (download_file _ _ _ w1) as [[e2|[]] w2] eqn:Edl; [|done].
    intros [= <- <-]. simpl.
    pose proof (download_file_fails _ _ _ _ _ _ Edl) as ->.
    apply makedirs_inv in Emk as [? ?]. split_and!; [done..|]. right. auto.
Qed.

Lemma last_split_marker s :
  Str.endswith s "/" = true -> List.last (Str.split "/" s) "" = "".
Proof.
  intros [s0 ->]%endswith_app_inv.
  rewrite split_app. by rewrite list_last_app.
Qed.

Lemma basename_marker s :
  s = "" \/ Str.endswith s "/" = true -> Posixpath.basename s = "".
Proof.
  rewrite basename_last. intros [->|H]; [done|]. by apply last_split_marker.
Qed.

(** X7: [get_product] cannot fetch a folder.  For an empty key or one
    that ends with a slash the name of the local file is empty and the
    local path is the output directory itself with a slash at its end;
    the call raises, whatever the bucket holds and whatever is on the
    disk: either [os.makedirs] raises, or the transfer to that path
    does, after the announcement and before the error line. *)
Theorem get_product_folder_key str s3 bucket_name object_url output_path p :
  object_url = "" \/ Str.endswith object_url "/" = true ->
  snd (Posixpath.split object_url) = ""
  /\ Posixpath.join output_path (snd (Posixpath.split object_url))
     = as_directory output_path
  /\ exists e p',
       get_product str s3 bucket_name object_url output_path p = (inl e, p')
       /\ (makedirs output_path (fs p) = (inl e, fs p') /\ stdout p' = stdout p
           \/ makedirs output_path (fs p) = (inr tt, fs p')
              /\ download_file (s3 bucket_name) object_url (as_directory output_path)
                   (fs p')
                 = (inl e, fs p')
              /\ stdout p'
                 = stdout p
                   ++ ["Downloading " +:+ object_url +:+ " to "
                       +:+ as_directory output_path +:+ "...";
                       "Error downloading file: " +:+ str e]).
Proof.
  intros Hk.
  assert (Hname : snd (Posixpath.split object_url) = "")
    by (rewrite split_basename; by apply basename_marker).
  assert (Hjoin : Posixpath.join output_path "" = as_directory output_path).
  { unfold Posixpath.join, as_directory. cbn [Str.startswith].
    destruct (_ || _); by rewrite ?append_assoc, append_nil_r. }
  rewrite Hname. split_and!; [done..|].
  rewrite get_product_unfold, (basename_marker _ Hk), Hjoin.
  destruct (makedirs output_path (fs p)) as [[e|[]] w1] eqn:Emk.
  { exists e, (mkProcess (stdout p) w1). split; [done|]. by left. }
  cbv zeta.
  assert (Hout : output_path <> "").
  { intros ->. by vm_compute in Emk. }
  assert (Hend : Str.endswith (as_directory output_path) "/" = true).
  { unfold as_directory.
    destruct (String.eqb_spec output_path ""); [done|]. simpl.
    destruct (Str.endswith output_path "/") eqn:E; [done|].
    by apply endswith_app. }
  destruct (download_file _ _ _ w1) as [[e|[]] w2] eqn:Edl.
  - pose proof (download_file_fails _ _ _ _ _ _ Edl) as ->.
    eexists e, _. split; [reflexivity|]. right. simpl. by split_and!.
  - exfalso. apply download_file_writes in Edl as (_ & dir & leaf & _ & Hloc & _).
    unfold file_loc in Hloc. rewrite (last_split_marker _ Hend) in Hloc.
    by destruct (walk _ _ _ _).
Qed.

Lemma get_product_returns_witness :
  (get_product exn_text sample_resource "eodata" "Sentinel-2/T56.SAFE/manifest.safe"
     "out" (mkProcess [] sample_world)).1 = inr "out/manifest.safe"
  /\ read_file
       (fs (get_product exn_text sample_resource "eodata"
              "Sentinel-2/T56.SAFE/manifest.safe" "out" (mkProcess [] sample_world)).2)
       "out/manifest.safe" = Some "<xfdu/>".
Proof.
  split; [reflexivity|].
  destruct (get_product_returns exn_text sample_resource "eodata"
              "Sentinel-2/T56.SAFE/manifest.safe" "out" (mkProcess [] sample_world)
              "out/manifest.safe"
              (get_product exn_text sample_resource "eodata"
                 "Sentinel-2/T56.SAFE/manifest.safe" "out" (mkProcess [] sample_world)).2
              ltac:(vm_compute; reflexivity))
    as (_ & (body & Hget & Hread) & _).
  vm_compute in Hget. injection Hget as <-. exact Hread.
Defined.

Lemma get_product_raises_witness :
  get_product exn_text sample_resource "flaky" "Sentinel-2/T56.SAFE/INSPIRE.xml" "out"
    (mkProcess [] sample_world)
  = (inl (ClientError "Connection reset by peer"),
     mkProcess
       ["Downloading Sentinel-2/T56.SAFE/INSPIRE.xml to out/INSPIRE.xml...";
        "Error downloading file: Connection reset by peer"]
       (mkWorld ["home"; "user"] (<[["home"; "user"; "out"] := Dir]> (tree sample_world))))
  /\ dirs_added (tree sample_world)
       (<[["home"; "user"; "out"] := Dir]> (tree sample_world)).
Proof.
  assert (H : get_product exn_text sample_resource "flaky"
                "Sentinel-2/T56.SAFE/INSPIRE.xml" "out" (mkProcess [] sample_world)
              = (inl (ClientError "Connection reset by peer"),
                 mkProcess
                   ["Downloading Sentinel-2/T56.SAFE/INSPIRE.xml to out/INSPIRE.xml...";
                    "Error downloading file: Connection reset by peer"]
                   (mkWorld ["home"; "user"]
                      (<[["home"; "user"; "out"] := Dir]> (tree sample_world)))))
    by (vm_compute; reflexivity).
  split; [exact H|].
  exact (proj1 (proj2 (get_product_raises _ _ _ _ _ _ _ _ H))).
Defined.

Lemma get_product_folder_key_witness :
  snd (Posixpath.split "Sentinel-2/T56.SAFE/GRANULE/") = ""
  /\ Posixpath.join "out" (snd (Posixpath.split "Sentinel-2/T56.SAFE/GRANULE/"))
     = "out/"
  /\ exists e,
       (get_product exn_text sample_resource "eodata" "Sentinel-2/T56.SAFE/GRANULE/"
          "out" (mkProcess [] sample_world)).1 = inl e.
Proof.
  destruct (get_product_folder_key exn_text sample_resource "eodata"
              "Sentinel-2/T56.SAFE/GRANULE/" "out" (mkProcess [] sample_world)
              (or_intror eq_refl))
    as (Hname & Hjoin & e & p' & Hrun & _).
  split_and!; [exact Hname|exact Hjoin|].
  exists e. by rewrite Hrun.
Defined.

(** ** Addresses of objects: what [extract_s3_path_from_url] gives back *)

Lemma free_of_cons stop a s :
  free_of stop (String a s) = negb (Str.chr_in a stop) && free_of stop s.
Proof. done. Qed.

Lemma free_of_app stop a b :
  free_of stop (a +:+ b) = free_of stop a && free_of stop b.
Proof.
  induction a as [|x a IH]; [by rewrite append_nil_l|].
  rewrite append_cons, !free_of_cons, IH. by rewrite andb_assoc.
Qed.

Lemma free_of_spec stop s :
  free_of stop s = true <-> forall c, Str.chr_in c stop = true -> Str.chr_in c s = false.
Proof.
  induction s as [|a s IH].
  - split; [done|]. done.
  - rewrite free_of_cons, andb_true_iff, IH. split.
    + intros [Ha Hs] c Hc. rewrite chr_in_cons, (Hs c Hc), orb_false_r.
      destruct (Ascii.eqb_spec c a) as [->|]; [|done].
      by rewrite Hc in Ha.
    + intros H. split.
      * destruct (Str.chr_in a stop) eqn:Ha; [|done].
        specialize (H a Ha). by rewrite chr_in_cons, Ascii.eqb_refl in H.
      * intros c Hc. specialize (H c Hc). rewrite chr_in_cons in H.
        by apply orb_false_elim in H as [_ ?].
Qed.

Lemma free_of_split a b s :
  free_of (a +:+ b) s = true -> free_of a s = true /\ free_of b s = true.
Proof.
  rewrite !free_of_spec. intros H.
  split; intros c Hc; apply H; rewrite chr_in_app, Hc; [done|apply orb_true_r].
Qed.

Lemma remove_absent c s : Str.chr_in c s = false -> Str.remove c s = s.
Proof.
  induction s as [|a s IH]; [done|]. rewrite chr_in_cons.
  intros [Ha Hs]%orb_false_elim. cbn [Str.remove].
  rewrite Ascii.eqb_sym, Ha. by rewrite IH.
Qed.

Lemma take_until_app stop a c r :
  free_of stop a = true -> Str.chr_in c stop = true ->
  take_until stop (a +:+ String c r) = a.
Proof.
  intros Ha Hc. induction a as [|x a IH].
  - rewrite append_nil_l. cbn [take_until]. by rewrite Hc.
  - rewrite free_of_cons in Ha. apply andb_prop in Ha as [Hx Ha].
    rewrite append_cons. cbn [take_until].
    destruct (Str.chr_in x stop); [done|]. by rewrite IH.
Qed.

Lemma drop_until_app stop a c r :
  free_of stop a = true -> Str.chr_in c stop = true ->
  drop_until stop (a +:+ String c r) = String c r.
Proof.
  intros Ha Hc. induction a as [|x a IH].
  - rewrite append_nil_l. cbn [drop_until]. by rewrite Hc.
  - rewrite free_of_cons in Ha. apply andb_prop in Ha as [Hx Ha].
    rewrite append_cons. cbn [drop_until].
    destruct (Str.chr_in x stop); [done|]. by rewrite IH.
Qed.

Lemma take_until_free stop s : free_of stop s = true -> take_until stop s = s.
Proof.
  induction s as [|x s IH]; [done|]. rewrite free_of_cons.
  intros [Hx Hs]%andb_prop. cbn [take_until].
  destruct (Str.chr_in x stop); [done|]. by rewrite IH.
Qed.

Lemma lstrip_not_startswith c s :
  Str.startswith (Str.lstrip (String c "") s) (String c "") = false.
Proof.
  unfold Str.lstrip. induction s as [|a s IH]; [done|]. cbn [Str.lstrip_by].
  destruct (Str.chr_in a (String c "")) eqn:Ha; [exact IH|].
  cbn [Str.startswith]. rewrite chr_in_cons in Ha.
  apply orb_false_elim in Ha as [Ha _]. by rewrite Ascii.eqb_sym, Ha.
Qed.

Lemma chr_in_lstrip c cs s :
  Str.chr_in c (Str.lstrip cs s) = true -> Str.chr_in c s = true.
Proof.
  unfold Str.lstrip. induction s as [|a s IH]; [done|]. cbn [Str.lstrip_by].
  destruct (Str.chr_in a cs); [|done].
  intros H%IH. rewrite chr_in_cons, H. apply orb_true_r.
Qed.

Lemma chr_in_take_until c stop s :
  Str.chr_in c (take_until stop s) = true ->
  Str.chr_in c stop = false /\ Str.chr_in c s = true.
Proof.
  induction s as [|a s IH]; [done|]. cbn [take_until].
  destruct (Str.chr_in a stop) eqn:Ha; [done|].
  rewrite !chr_in_cons. destruct (Ascii.eqb_spec c a) as [->|]; [done|].
  simpl. exact IH.
Qed.

Lemma chr_in_drop_until c stop s :
  Str.chr_in c (drop_until stop s) = true -> Str.chr_in c s = true.
Proof.
  induction s as [|a s IH]; [done|]. cbn [drop_until].
  destruct (Str.chr_in a stop); [done|].
  intros H%IH. rewrite chr_in_cons, H. apply orb_true_r.
Qed.

Lemma chr_in_drop c n s :
  Str.chr_in c (Str.drop n s) = true -> Str.chr_in c s = true.
Proof.
  revert s. induction n as [|n IH]; intros [|a s]; try done.
  cbn [Str.drop]. intros H%IH. rewrite chr_in_cons, H. apply orb_true_r.
Qed.

Lemma chr_in_remove c d s :
  Str.chr_in c (Str.remove d s) = negb (Ascii.eqb c d) && Str.chr_in c s.
Proof.
  induction s as [|a s IH]; [by rewrite andb_false_r|]. cbn [Str.remove].
  destruct (Ascii.eqb_spec a d) as [->|Hne].
  - rewrite IH, chr_in_cons. by destruct (Ascii.eqb c d).
  - rewrite !chr_in_cons, IH.
    destruct (Ascii.eqb_spec c a) as [->|]; [|done].
    destruct (Ascii.eqb_spec a d); [done|done].
Qed.

Lemma s3_rest_clean c url :
  Str.chr_in c tab_cr_lf = true -> Str.chr_in c (s3_rest url) = false.
Proof.
  intros Hc. destruct (Str.chr_in c (s3_rest url)) eqn:E; [|done].
  apply chr_in_drop in E. rewrite !chr_in_remove in E.
  unfold tab_cr_lf in Hc. rewrite !chr_in_cons in Hc.
  destruct (Ascii.eqb c "009"), (Ascii.eqb c "013"), (Ascii.eqb c "010"); done.
Qed.

Lemma s3_key_ok url :
  Str.startswith (s3_key url) "/" = false /\ key_ok (s3_key url) = true.
Proof.
  split; [apply lstrip_not_startswith|].
  unfold key_ok. apply free_of_spec. intros c Hc.
  destruct (Str.chr_in c (s3_key url)) eqn:E; [|done].
  apply chr_in_lstrip, chr_in_take_until in E as [Hstop E].
  apply chr_in_drop_until in E.
  rewrite chr_in_app, Hstop in Hc. simpl in Hc.
  by rewrite (s3_rest_clean _ _ Hc) in E.
Qed.

Lemma s3_rest_uri bucket key :
  free_of tab_cr_lf bucket = true -> free_of tab_cr_lf key = true ->
  s3_rest (s3_uri bucket key) = bucket +:+ String "/" key.
Proof.
  intros Hb Hk.
  assert (Hfree : free_of tab_cr_lf (s3_uri bucket key) = true).
  { unfold s3_uri. by rewrite !free_of_app, Hb, Hk. }
  pose proof (proj1 (free_of_spec _ _) Hfree) as Hin.
  unfold s3_rest.
  rewrite (remove_absent "009"), (remove_absent "013"), (remove_absent "010")
    by (apply Hin; reflexivity).
  unfold s3_uri. by rewrite !append_cons, append_nil_l.
Qed.

Section Addresses.

Variable normalize_NFKC : string -> string.
Variable check_bracketed_netloc : string -> option string.

(** X8: what [extract_s3_path_from_url] returns for an S3 URI never
    starts with a slash and holds no [?], no [#], no tab and no line
    break: a key with one of these is not what comes back. *)
Theorem extract_s3_key_shape url key :
  Str.startswith url "s3://" = true ->
  Urllib.extract_s3_path_from_url normalize_NFKC check_bracketed_netloc url = inr key ->
  Str.startswith key "/" = false /\ key_ok key = true.
Proof.
  intros Hs3 Hex.
  pose proof (extract_s3 normalize_NFKC check_bracketed_netloc url Hs3) as H.
  destruct (Urllib.urlparse _ _ url) as [e|parsed].
  - destruct H as [_ H]. congruence.
  - destruct H as (_ & _ & _ & H). rewrite H in Hex. injection Hex as <-.
    apply s3_key_ok.
Qed.

Lemma bucket_name_accepted bucket :
  bucket_name_ok bucket = true ->
  netloc_errors normalize_NFKC check_bracketed_netloc bucket = inr tt.
Proof.
  intros [Hascii Hfree]%andb_prop.
  unfold netloc_errors, Urllib.check_brackets, Urllib._checknetloc.
  apply free_of_split in Hfree as [Hfree _].
  rewrite (proj1 (free_of_spec _ _) Hfree "["%char eq_refl).
  rewrite (proj1 (free_of_spec _ _) Hfree "]"%char eq_refl).
  simpl. by rewrite Hascii, orb_true_r.
Qed.

Lemma extract_s3_uri bucket key :
  bucket_name_ok bucket = true -> key_ok key = true ->
  Urllib.extract_s3_path_from_url normalize_NFKC check_bracketed_netloc
    (s3_uri bucket key)
  = inr (Str.lstrip "/" key).
Proof.
  intros Hb Hk.
  pose proof (bucket_name_accepted _ Hb) as Hacc.
  apply andb_prop in Hb as [_ Hb]. apply free_of_split in Hb as [Hb Hbt].
  apply free_of_split in Hk as [Hk Hkt].
  assert (Hrest := s3_rest_uri bucket key Hbt Hkt).
  assert (Hbucket : s3_bucket (s3_uri bucket key) = bucket).
  { unfold s3_bucket. rewrite Hrest. apply take_until_app; [|done].
    apply free_of_spec. intros c Hc. eapply free_of_spec; [exact Hb|].
    revert Hc. rewrite !chr_in_cons.
    by destruct (Ascii.eqb c "/"), (Ascii.eqb c "?"), (Ascii.eqb c "#"). }
  assert (Hkey : s3_key (s3_uri bucket key) = Str.lstrip "/" key).
  { unfold s3_key. rewrite Hrest, drop_until_app; [| |done].
    - cbn [take_until]. replace (Str.chr_in "/" "?#") with false by done.
      by rewrite (take_until_free _ _ Hk).
    - apply free_of_spec. intros c Hc. eapply free_of_spec; [exact Hb|].
      revert Hc. rewrite !chr_in_cons.
      by destruct (Ascii.eqb c "/"), (Ascii.eqb c "?"), (Ascii.eqb c "#"). }
  pose proof (extract_s3 normalize_NFKC check_bracketed_netloc (s3_uri bucket key)
                eq_refl) as H.
  rewrite Hbucket, Hkey in H.
  destruct (Urllib.urlparse _ _ _) as [e|parsed].
  - destruct H as [H _]. congruence.
  - by destruct H as (_ & _ & _ & H).
Qed.

(** X9: the transform undoes the making of an address.  For a bucket
    name of ASCII characters without [/ ? # [ ]] and a key without [?]
    and [#] (neither with a tab or a line break), the URI
    [s3://bucket/key] gives back the key without its leading slashes, so
    the key itself when it starts with none; the bucket name plays no
    part in the result. *)
Theorem extract_undoes_s3_uri bucket key :
  bucket_name_ok bucket = true -> key_ok key = true ->
  Urllib.extract_s3_path_from_url normalize_NFKC check_bracketed_netloc
    (s3_uri bucket key)
  = inr (Str.lstrip "/" key)
  /\ (Str.startswith key "/" = false ->
      Urllib.extract_s3_path_from_url normalize_NFKC check_bracketed_netloc
        (s3_uri bucket key) = inr key).
Proof.
  intros Hb Hk. rewrite (extract_s3_uri _ _ Hb Hk). split; [done|].
  intros Hstart. f_equal. destruct key as [|a key]; [done|].
  unfold Str.lstrip. cbn [Str.lstrip_by]. cbn [Str.startswith] in Hstart.
  rewrite chr_in_cons, Ascii.eqb_sym. rewrite andb_true_r in Hstart.
  by rewrite Hstart.
Qed.

End Addresses.

Lemma extract_s3_key_shape_witness :
  Urllib.extract_s3_path_from_url nfkc_id brackets_ok "s3://eodata//a/b.SAFE?v=1#top"
  = inr "a/b.SAFE"
  /\ Str.startswith "a/b.SAFE" "/" = false /\ key_ok "a/b.SAFE" = true.
Proof.
  split; [reflexivity|].
  apply (extract_s3_key_shape nfkc_id brackets_ok "s3://eodata//a/b.SAFE?v=1#top");
    reflexivity.
Defined.

Lemma extract_undoes_s3_uri_witness :
  Urllib.extract_s3_path_from_url nfkc_id brackets_ok
    (s3_uri "eodata" "Sentinel-2/MSI/L1C/T56.SAFE")
  = inr "Sentinel-2/MSI/L1C/T56.SAFE".
Proof.
  apply (extract_undoes_s3_uri nfkc_id brackets_ok "eodata"
           "Sentinel-2/MSI/L1C/T56.SAFE"); reflexivity.
Defined.

(** ** Heads and tails of paths *)

Lemma rfind1_absent c s : Str.chr_in c s = false -> Str.rfind1 c s = 0.
Proof.
  intros Hc. destruct (rfind1_spec c s) as [[H _]|(a & b & -> & _ & _)]; [done|].
  rewrite chr_in_app, chr_in_cons, Ascii.eqb_refl in Hc.
  by rewrite orb_true_r in Hc.
Qed.

Lemma rfind1_app c a b :
  Str.chr_in c b = false -> Str.rfind1 c (a +:+ String c b) = S (String.length a).
Proof.
  intros Hb. induction a as [|x a IH].
  - rewrite append_nil_l. cbn [Str.rfind1].
    by rewrite (rfind1_absent _ _ Hb), Ascii.eqb_refl.
  - rewrite append_cons. cbn [Str.rfind1]. by rewrite IH.
Qed.

Lemma rstrip_snoc c s : Str.rstrip c (s +:+ String c "") = Str.rstrip c s.
Proof.
  induction s as [|a s IH].
  - rewrite append_nil_l. cbn [Str.rstrip]. by rewrite Ascii.eqb_refl.
  - rewrite append_cons. cbn [Str.rstrip]. by rewrite IH.
Qed.

Lemma rstrip_id c s : Str.endswith s (String c "") = false -> Str.rstrip c s = s.
Proof.
  induction s as [|a s IH]; [done|]. intros H. cbn [Str.rstrip].
  destruct s as [|b s].
  - cbn [Str.rstrip]. destruct (Ascii.eqb_spec a c) as [->|]; [|done].
    cbn in H. by rewrite Ascii.eqb_refl in H.
  - rewrite endswith_tail in H by done. by rewrite (IH H).
Qed.

Lemma rstrip_times c n : Str.rstrip c (Str.times c n) = "".
Proof.
  induction n as [|n IH]; [done|]. cbn [Str.times Str.rstrip].
  by rewrite IH, Ascii.eqb_refl.
Qed.

Lemma endswith_app_r y x c :
  x <> "" -> Str.endswith (y +:+ x) (String c "") = Str.endswith x (String c "").
Proof.
  intros Hx. induction y as [|a y IH]; [by rewrite append_nil_l|].
  rewrite append_cons, endswith_tail; [done|].
  destruct y; [by rewrite append_nil_l|by rewrite append_cons].
Qed.

(** [os.path.split] undoes [os.path.join] on a directory and a name. *)
Lemma split_dir_leaf dir leaf :
  dir <> "" -> Str.endswith dir "/" = false -> Str.chr_in "/" leaf = false ->
  Posixpath.split (dir +:+ String "/" leaf) = (dir, leaf).
Proof.
  intros Hne Hend Hleaf. unfold Posixpath.split, Posixpath.sep.
  rewrite (rfind1_app _ _ _ Hleaf), take_app_S, drop_app_S.
  assert (Hstrip : Str.rstrip "/" (dir +:+ "/") = dir)
    by (by rewrite rstrip_snoc, rstrip_id).
  destruct (String.eqb_spec (dir +:+ "/") "") as [E|_].
  { by destruct dir. }
  destruct (String.eqb_spec (dir +:+ "/")
              (Str.times "/" (String.length (dir +:+ "/")))) as [E|_].
  { rewrite E, rstrip_times in Hstrip. congruence. }
  simpl. by rewrite Hstrip.
Qed.

Lemma basename_app_name y x :
  y = "" \/ Str.endswith y "/" = true -> Str.chr_in "/" x = false ->
  Posixpath.basename (y +:+ x) = x.
Proof.
  intros Hy Hx. unfold Posixpath.basename, Posixpath.sep. destruct Hy as [->|Hy].
  - by rewrite append_nil_l, (rfind1_absent _ _ Hx).
  - apply endswith_app_inv in Hy as [y0 ->].
    by rewrite append_assoc, append_cons, append_nil_l, (rfind1_app _ _ _ Hx),
         drop_app_S.
Qed.

Lemma basename_app_dir y x :
  Str.endswith y "/" = true -> Posixpath.basename (y +:+ x) = Posixpath.basename x.
Proof.
  intros Hy.
  destruct (rfind1_spec "/" x) as [[_ Hx]|(a & b & -> & Hb & _)].
  - rewrite (basename_app_name y x); [|by right|done].
    unfold Posixpath.basename, Posixpath.sep. by rewrite (rfind1_absent _ _ Hx).
  - unfold Posixpath.basename, Posixpath.sep.
    rewrite <- append_assoc, !(rfind1_app _ _ _ Hb). by rewrite !drop_app_S.
Qed.

Lemma basename_join target name :
  Str.chr_in "/" name = false -> Posixpath.basename (Posixpath.join target name) = name.
Proof.
  intros Hname. unfold Posixpath.join.
  rewrite (startswith_absent _ _ Hname).
  destruct (String.eqb_spec target "") as [->|_]; simpl.
  - by apply basename_app_name; [left|].
  - destruct (Str.endswith target "/") eqn:E.
    + by apply basename_app_name; [right|].
    + rewrite <- append_assoc. apply basename_app_name; [right|done].
      by apply endswith_app.
Qed.

Lemma lstrip_id c s :
  Str.startswith s (String c "") = false -> Str.lstrip (String c "") s = s.
Proof.
  destruct s as [|a s]; [done|]. unfold Str.lstrip. cbn [Str.lstrip_by Str.startswith].
  rewrite chr_in_cons, Ascii.eqb_sym, andb_true_r. by intros ->.
Qed.

Lemma safe_dir_of_key key :
  Str.endswith key "/" = false -> safe_dir_of key = Posixpath.basename key.
Proof.
  intros H. unfold safe_dir_of, slash_terminated. rewrite H. cbn [negb].
  by rewrite rstrip_snoc, rstrip_id.
Qed.
(** ** The cells around [download] *)

Lemma s3_uri_dir bucket key :
  key <> "" -> Str.endswith key "/" = false ->
  s3_uri bucket key <> "" /\ Str.endswith (s3_uri bucket key) "/" = false.
Proof.
  intros Hne Hend. split; [done|]. unfold s3_uri.
  by rewrite <- !append_assoc, endswith_app_r.
Qed.

Section FetchProduct.

Variable normalize_NFKC : string -> string.
Variable check_bracketed_netloc : string -> option string.

(** X10: the cell that fetches the product takes the folder of the
    manifest.  For the address [s3://bucket/key/leaf] of the manifest
    (a bucket name and a key the parser takes as they are, the key not
    empty and without a slash at either end, [leaf] a single name) it
    runs [download] on the prefix [key] with the target ["."]; the bucket
    read is the one named [BUCKET_NAME], never the one in the address. *)
Theorem fetch_product_of_manifest s3 BUCKET_NAME bucket key leaf w :
  bucket_name_ok bucket = true -> key_ok key = true ->
  key <> "" -> Str.startswith key "/" = false -> Str.endswith key "/" = false ->
  Str.chr_in "/" leaf = false ->
  fetch_product normalize_NFKC check_bracketed_netloc s3 BUCKET_NAME
    (s3_uri bucket key +:+ String "/" leaf) w
  = download (s3 BUCKET_NAME) key "." w.
Proof.
  intros Hb Hk Hne Hstart Hend Hleaf.
  destruct (s3_uri_dir bucket key Hne Hend) as [Hu1 Hu2].
  unfold fetch_product. rewrite (split_dir_leaf _ _ Hu1 Hu2 Hleaf).
  unfold bind, lift.
  by rewrite (extract_s3_uri _ _ _ _ Hb Hk), (lstrip_id _ _ Hstart).
Qed.

End FetchProduct.

Lemma fetch_product_of_manifest_witness :
  fetch_product nfkc_id brackets_ok sample_resource "eodata"
    "s3://other-bucket/Sentinel-2/T56.SAFE/manifest.safe" sample_world
  = download sample_bucket "Sentinel-2/T56.SAFE" "." sample_world.
Proof.
  apply (fetch_product_of_manifest nfkc_id brackets_ok sample_resource "eodata"
           "other-bucket" "Sentinel-2/T56.SAFE" "manifest.safe" sample_world);
    (reflexivity || discriminate).
Defined.

(** ** The name of the Zarr store *)

Lemma endswith_inv s suf : Str.endswith s suf = true -> exists s0, s = s0 +:+ suf.
Proof.
  induction s as [|a s IH]; cbn [Str.endswith].
  - destruct (String.eqb_spec "" suf) as [<-|]; [by exists ""|done].
  - destruct (String.eqb_spec (String a s) suf) as [<-|_]; [by exists ""|].
    intros [s0 ->]%IH. by exists (String a s0).
Qed.

Lemma length_append a b : String.length (a +:+ b) = String.length a + String.length b.
Proof. induction a as [|x a IH]; [done|]. rewrite append_cons. simpl. by rewrite IH. Qed.

Lemma replace_scan_nil fuel old new : Str.replace_scan fuel old new "" = "".
Proof. by destruct fuel. Qed.

Lemma safe_prefix_inv stem :
  Str.startswith (stem +:+ ".SAFE") ".SAFE" = true ->
  stem = "" \/ exists rest, stem = ".SAFE" +:+ rest.
Proof.
  destruct stem as [|c0 [|c1 [|c2 [|c3 [|c4 rest]]]]]; [by left|..];
    rewrite ?append_cons, ?append_nil_l; cbn [Str.startswith]; intros H;
    repeat (apply andb_prop in H as [? H]);
    repeat match goal with
           | E : Ascii.eqb _ _ = true |- _ => apply Ascii.eqb_eq in E
           end; try discriminate.
  subst. right. by exists rest.
Qed.

Lemma replace_scan_safe_suffix fuel stem :
  String.length stem + 5 <= fuel ->
  exists r,
    Str.replace_scan fuel ".SAFE" ".zarr" (stem +:+ ".SAFE") = r +:+ ".zarr"
    /\ String.length r = String.length stem.
Proof.
  revert stem. induction fuel as [|fuel IH]; intros stem Hlen; [lia|].
  destruct (Str.startswith (stem +:+ ".SAFE") ".SAFE") eqn:Hst.
  - destruct (safe_prefix_inv _ Hst) as [->|[rest ->]].
    + exists "". split; [|done]. rewrite append_nil_l.
      change (Str.replace_scan (S fuel) ".SAFE" ".zarr" ".SAFE")
        with (".zarr" +:+ Str.replace_scan fuel ".SAFE" ".zarr" "").
      by rewrite replace_scan_nil.
    + rewrite length_append in Hlen. simpl in Hlen.
      destruct (IH rest ltac:(lia)) as (r & Hr & Hlr).
      exists (".zarr" +:+ r). split.
      * rewrite append_assoc.
        change (Str.replace_scan (S fuel) ".SAFE" ".zarr" (".SAFE" +:+ (rest +:+ ".SAFE")))
          with (".zarr" +:+ Str.replace_scan fuel ".SAFE" ".zarr" (rest +:+ ".SAFE")).
        by rewrite Hr, append_assoc.
      * rewrite !length_append, Hlr. done.
  - destruct stem as [|c stem]; [done|].
    simpl in Hlen. destruct (IH stem ltac:(lia)) as (r & Hr & Hlr).
    exists (String c r). split; [|by simpl; rewrite Hlr].
    rewrite append_cons in *. cbn [Str.replace_scan]. rewrite Hst.
    by rewrite Hr, append_cons.
Qed.

Lemma replace_scan_keeps_sep fuel s :
  Str.chr_in "/" (Str.replace_scan fuel ".SAFE" ".zarr" s) = Str.chr_in "/" s.
Proof.
  revert s. induction fuel as [|fuel IH]; intros s; [done|].
  destruct s as [|c s]; [done|]. cbn [Str.replace_scan].
  destruct (Str.startswith (String c s) ".SAFE") eqn:Hst.
  - apply startswith_app in Hst as [r Hr]. rewrite Hr.
    change (Str.drop (String.length ".SAFE") (".SAFE" +:+ r)) with r.
    by rewrite !chr_in_app, IH.
  - by rewrite !chr_in_cons, IH.
Qed.

Lemma zarr_name_shape name :
  Str.endswith name ".SAFE" = true ->
  Str.endswith (Str.replace ".SAFE" ".zarr" name) ".zarr" = true
  /\ Str.chr_in "/" (Str.replace ".SAFE" ".zarr" name) = Str.chr_in "/" name
  /\ String.length (Str.replace ".SAFE" ".zarr" name) = String.length name.
Proof.
  intros [stem ->]%endswith_inv.
  change (Str.replace ".SAFE" ".zarr" (stem +:+ ".SAFE"))
    with (Str.replace_scan (String.length (stem +:+ ".SAFE")) ".SAFE" ".zarr"
            (stem +:+ ".SAFE")).
  split_and!.
  - destruct (replace_scan_safe_suffix (String.length (stem +:+ ".SAFE")) stem)
      as (r & -> & _); [by rewrite length_append|].
    by apply endswith_app.
  - apply replace_scan_keeps_sep.
  - destruct (replace_scan_safe_suffix (String.length (stem +:+ ".SAFE")) stem)
      as (r & -> & Hr); [by rewrite length_append|].
    by rewrite !length_append, Hr.
Qed.

(** X11: the Zarr store is named after the directory [download]
    returned.  When [download] has returned [p], the cell puts the store
    in the working directory under the name of the [.SAFE] directory
    with every [.SAFE] in it replaced by [.zarr]; that name ends with
    [.zarr], is as long as the directory name and has no slash, whatever
    the target directory was. *)
Theorem zarr_path_of_download b product target w p w' :
  download b product target w = (inr p, w') ->
  zarr_path p w'
  = (inr (Posixpath.join (getcwd w')
            (Str.replace ".SAFE" ".zarr" (safe_dir_of product))), w')
  /\ Str.endswith (Str.replace ".SAFE" ".zarr" (safe_dir_of product)) ".zarr" = true
  /\ Str.chr_in "/" (Str.replace ".SAFE" ".zarr" (safe_dir_of product)) = false
  /\ String.length (Str.replace ".SAFE" ".zarr" (safe_dir_of product))
     = String.length (safe_dir_of product).
Proof.
  intros (files & _ & _ & -> & Hsafe & _)%download_mirror_of.
  assert (Hsep : Str.chr_in "/" (safe_dir_of product) = false)
    by apply basename_no_sep.
  destruct (zarr_name_shape _ Hsafe) as (H1 & H2 & H3).
  split_and!; [|done|congruence|done].
  unfold zarr_path, local_path_of. by rewrite split_basename, basename_join.
Qed.

Lemma zarr_path_of_download_witness :
  zarr_path "./T56.SAFE"
    (download sample_bucket "Sentinel-2/T56.SAFE" "." sample_world).2
  = (inr "/home/user/T56.zarr",
     (download sample_bucket "Sentinel-2/T56.SAFE" "." sample_world).2).
Proof.
  rewrite (proj1 (zarr_path_of_download sample_bucket "Sentinel-2/T56.SAFE" "."
                    sample_world "./T56.SAFE"
                    (download sample_bucket "Sentinel-2/T56.SAFE" "." sample_world).2
                    ltac:(vm_compute; reflexivity))).
  vm_compute. reflexivity.
Defined.

Section ZarrNames.

Variable normalize_NFKC : string -> string.
Variable check_bracketed_netloc : string -> option string.

(** X12: the two conversions write to the same store.  For a manifest
    address [s3://bucket/key/leaf] (a bucket name and a key the parser
    takes as they are, the key not empty and without a slash at either
    end, [leaf] a single name), the path the first conversion derives
    from what [download] returned is the path the second derives from
    the address itself. *)
Theorem zarr_paths_agree s3 BUCKET_NAME bucket key leaf w p w' :
  bucket_name_ok bucket = true -> key_ok key = true ->
  key <> "" -> Str.startswith key "/" = false -> Str.endswith key "/" = false ->
  Str.chr_in "/" leaf = false ->
  fetch_product normalize_NFKC check_bracketed_netloc s3 BUCKET_NAME
    (s3_uri bucket key +:+ String "/" leaf) w = (inr p, w') ->
  zarr_path p w'
  = (inr (zarr_path_of_href (getcwd w') (s3_uri bucket key +:+ String "/" leaf)), w').
Proof.
  intros Hb Hk Hne Hstart Hend Hleaf Hfetch.
  destruct (s3_uri_dir bucket key Hne Hend) as [Hu1 Hu2].
  unfold fetch_product in Hfetch. rewrite (split_dir_leaf _ _ Hu1 Hu2 Hleaf) in Hfetch.
  unfold bind, lift in Hfetch.
  rewrite (extract_s3_uri _ _ _ _ Hb Hk), (lstrip_id _ _ Hstart) in Hfetch.
  apply download_mirror_of in Hfetch as (files & _ & _ & -> & _).
  unfold zarr_path, zarr_path_of_href, local_path_of.
  rewrite (split_dir_leaf _ _ Hu1 Hu2 Hleaf), !split_basename.
  rewrite basename_join by apply basename_no_sep.
  rewrite (safe_dir_of_key _ Hend). unfold s3_uri.
  rewrite <- !append_assoc. rewrite basename_app_dir; [done|].
  by apply endswith_app.
Qed.

End ZarrNames.

Lemma zarr_paths_agree_witness :
  zarr_path "./T56.SAFE"
    (download sample_bucket "Sentinel-2/T56.SAFE" "." sample_world).2
  = (inr (zarr_path_of_href "/home/user"
            "s3://eodata/Sentinel-2/T56.SAFE/manifest.safe"),
     (download sample_bucket "Sentinel-2/T56.SAFE" "." sample_world).2).
Proof.
  apply (zarr_paths_agree nfkc_id brackets_ok sample_resource "eodata" "eodata"
           "Sentinel-2/T56.SAFE" "manifest.safe" sample_world "./T56.SAFE"
           (download sample_bucket "Sentinel-2/T56.SAFE" "." sample_world).2);
    try reflexivity; discriminate.
Defined.

(** ** Which key a file comes from *)

Lemma download_loop b product target w p w' :
  download b product target w = (inr p, w') ->
  exists files w1,
    objects_filter b (slash_terminated product) = inr files
    /\ files <> []
    /\ Str.endswith (safe_dir_of product) ".SAFE" = true
    /\ p = local_path_of product target
    /\ makedirs p w = (inr tt, w1)
    /\ for_each files (download_one b (slash_terminated product) p) w1 = (inr tt, w').
Proof.
  rewrite download_unfold.
  destruct (objects_filter b (slash_terminated product)) as [e|[|key files]];
    [done..|].
  destruct (Str.endswith (safe_dir_of product) ".SAFE") eqn:Hsafe; [|done].
  cbn [negb]. cbv zeta. fold (local_path_of product target).
  destruct (makedirs _ w) as [[e|[]] w1] eqn:Emk; [done|].
  destruct (for_each _ _ w1) as [[e|[]] w2] eqn:Eloop; [done|].
  intros [= <- <-]. by exists (key :: files), w1.
Qed.

Lemma written_inv b prefix local_path w key l body :
  written b prefix local_path w key = Some (l, body) ->
  Str.endswith key "/" = false
  /\ exists rel,
       Posixpath.relpath (getcwd w) key prefix = inr rel
       /\ file_loc w (Posixpath.join local_path rel) = Some l
       /\ get_object b key = inr body.
Proof.
  unfold written. destruct (Str.endswith key "/"); [done|].
  destruct (Posixpath.relpath _ _ _) as [e|rel]; [done|].
  destruct (file_loc _ _) as [l'|] eqn:Hloc; [|done].
  destruct (get_object b key) as [e|body']; [done|].
  intros [= <- <-]. split; [done|]. by exists rel.
Qed.

Lemma written_intro b prefix local_path w key rel l body :
  Str.endswith key "/" = false ->
  Posixpath.relpath (getcwd w) key prefix = inr rel ->
  file_loc w (Posixpath.join local_path rel) = Some l ->
  get_object b key = inr body ->
  written b prefix local_path w key = Some (l, body).
Proof. unfold written. by intros -> -> -> ->. Qed.

Lemma written_grows b prefix local_path w w' key x :
  grows w w' -> written b prefix local_path w key = Some x ->
  written b prefix local_path w' key = Some x.
Proof.
  intros Hg. destruct x as [l body].
  intros (Hm & rel & Hrel & Hloc & Hget)%written_inv.
  eapply written_intro; eauto.
  - by rewrite (getcwd_grows _ _ Hg).
  - by eapply file_loc_grows.
Qed.

Lemma download_one_written b prefix local_path key w w' :
  download_one b prefix local_path key w = (inr tt, w') ->
  Str.endswith key "/" = false ->
  exists l body,
    written b prefix local_path w' key = Some (l, body)
    /\ tree w' !! l = Some (File body)
    /\ forall l' body', l' <> l -> tree w' !! l' = Some (File body') ->
                        tree w !! l' = Some (File body').
Proof.
  intros H Hm. apply download_one_returns in H as [[? _]|[_ H]]; [congruence|].
  destruct H as (rel & l & body & Hrel & Hloc & Hget & Hl & Hother).
  exists l, body. split_and!; [|done..]. by eapply written_intro.
Qed.

Lemma download_one_start b prefix local_path key w w' rel :
  download_one b prefix local_path key w = (inr tt, w') ->
  Str.endswith key "/" = false ->
  Posixpath.relpath (getcwd w') key prefix = inr rel ->
  node_at (tree w') (path_start w' (Posixpath.join local_path rel)) = Some Dir.
Proof.
  intros H Hm Hrel.
  pose proof (download_one_grows _ _ _ _ _ _ _ H) as Hg.
  rewrite (getcwd_grows _ _ Hg) in Hrel.
  rewrite download_one_cases, Hm, Hrel in H.
  destruct (makedirs _ w) as [[e|[]] wm] eqn:Emk; [done|].
  apply makedirs_dirname_resolves in Emk as [Hst _].
  apply download_file_grows in H as (Hcwd & Hdirs & _).
  unfold path_start in *. rewrite Hcwd. by apply Hdirs.
Qed.

Lemma loop_facts b prefix local_path xs w w' :
  for_each xs (download_one b prefix local_path) w = (inr tt, w') ->
  forall key, key ∈ xs -> Str.endswith key "/" = false ->
    exists l body rel,
      written b prefix local_path w' key = Some (l, body)
      /\ Posixpath.relpath (getcwd w') key prefix = inr rel
      /\ node_at (tree w') (path_start w' (Posixpath.join local_path rel)) = Some Dir
      /\ exists body', tree w' !! l = Some (File body').
Proof.
  revert w. induction xs as [|x xs IH]; intros w H key Hin Hm.
  { by apply elem_of_nil in Hin. }
  simpl in H. unfold bind in H.
  destruct (download_one b prefix local_path x w) as [[e|[]] w1] eqn:E1; [done|].
  apply elem_of_cons in Hin as [->|Hin]; [|by eapply IH].
  pose proof (loop_grows b prefix local_path xs w1) as Hg. rewrite H in Hg.
  simpl in Hg.
  destruct (download_one_written _ _ _ _ _ _ E1 Hm) as (l & body & Hw & Hl & _).
  pose proof (written_grows _ _ _ _ _ _ _ Hg Hw) as Hw'.
  destruct (written_inv _ _ _ _ _ _ _ Hw') as (_ & rel & Hrel & _).
  exists l, body, rel. split_and!; [done..| |].
  - assert (Hrel1 : Posixpath.relpath (getcwd w1) x prefix = inr rel)
      by (by rewrite <- (getcwd_grows _ _ Hg)).
    pose proof (download_one_start _ _ _ _ _ _ _ E1 Hm Hrel1) as Hst.
    destruct Hg as (Hcwd & Hdirs & _).
    unfold path_start in *. rewrite Hcwd. by apply Hdirs.
  - destruct Hg as (_ & _ & Hfiles). by eapply Hfiles.
Qed.

Lemma loop_untouched b prefix local_path xs w w' l n :
  for_each xs (download_one b prefix local_path) w = (inr tt, w') ->
  tree w !! l = Some (File n) ->
  existsb (maps_to b prefix local_path w' l) xs = false ->
  tree w' !! l = Some (File n).
Proof.
  revert w. induction xs as [|x xs IH]; intros w H Hl Hex.
  { by injection H as <-. }
  simpl in H. unfold bind in H.
  destruct (download_one b prefix local_path x w) as [[e|[]] w1] eqn:E1; [done|].
  simpl in Hex. apply orb_false_elim in Hex as [Hx Hex].
  eapply IH; [exact H| |exact Hex].
  destruct (Str.endswith x "/") eqn:Hm.
  { rewrite download_one_cases, Hm in E1. by injection E1 as <-. }
  pose proof (loop_grows b prefix local_path xs w1) as Hg. rewrite H in Hg.
  simpl in Hg.
  destruct (download_one_written _ _ _ _ _ _ E1 Hm) as (lx & body & Hw & _ & Hother).
  unfold maps_to in Hx. rewrite (written_grows _ _ _ _ _ _ _ Hg Hw) in Hx.
  apply bool_decide_eq_false in Hx.
  destruct (download_one_grows _ _ _ _ _ _ _ E1) as (_ & _ & Hfiles).
  destruct (Hfiles _ _ Hl) as [n' Hn'].
  rewrite Hn'. f_equal. f_equal.
  apply Hother in Hn'; [|done]. congruence.
Qed.

Lemma loop_last_writer b prefix local_path pre key post w w' l body :
  for_each (pre ++ key :: post) (download_one b prefix local_path) w = (inr tt, w') ->
  written b prefix local_path w' key = Some (l, body) ->
  existsb (maps_to b prefix local_path w' l) post = false ->
  tree w' !! l = Some (File body).
Proof.
  intros H Hw Hex. rewrite for_each_app in H.
  destruct (for_each pre _ w) as [[e|[]] w2]; [done|].
  simpl in H. unfold bind in H.
  destruct (download_one b prefix local_path key w2) as [[e|[]] w3] eqn:E; [done|].
  destruct (written_inv _ _ _ _ _ _ _ Hw) as (Hm & _).
  destruct (download_one_written _ _ _ _ _ _ E Hm) as (l3 & body3 & Hw3 & Hl3 & _).
  pose proof (loop_grows b prefix local_path post w3) as Hg. rewrite H in Hg.
  simpl in Hg.
  rewrite (written_grows _ _ _ _ _ _ _ Hg Hw3) in Hw. injection Hw as -> ->.
  by eapply loop_untouched.
Qed.

(** X13: when two listed keys lead to the same local file, the later
    one wins.  After a completed [download] every listed key that is not
    a directory marker has a local file, and that file holds the object
    of the last key of the listing that is written there. *)
Theorem last_key_wins b product target w p w' files :
  download b product target w = (inr p, w') ->
  objects_filter b (slash_terminated product) = inr files ->
  (forall key, key ∈ files -> is_marker key = false ->
     exists l body, written b (slash_terminated product) p w' key = Some (l, body))
  /\ (forall pre key post l body,
        files = pre ++ key :: post ->
        written b (slash_terminated product) p w' key = Some (l, body) ->
        existsb (maps_to b (slash_terminated product) p w' l) post = false ->
        tree w' !! l = Some (File body)).
Proof.
  intros (files' & w1 & Hls & _ & _ & _ & _ & Hloop)%download_loop Hls'.
  rewrite Hls in Hls'. injection Hls' as ->. split.
  - intros key Hin Hm.
    destruct (loop_facts _ _ _ _ _ _ Hloop key Hin Hm) as (l & body & _ & Hw & _).
    eauto.
  - intros pre key post l body -> Hw Hex. by eapply loop_last_writer.
Qed.

Lemma last_key_wins_witness :
  tree (download doubled_slash_bucket "T56.SAFE" "" sample_world).2
    !! ["home"; "user"; "T56.SAFE"; "B02.jp2"]
  = Some (File "second").
Proof.
  apply (proj2 (last_key_wins doubled_slash_bucket "T56.SAFE" "" sample_world
                  "T56.SAFE"
                  (download doubled_slash_bucket "T56.SAFE" "" sample_world).2
                  ["T56.SAFE//B02.jp2"; "T56.SAFE/B02.jp2"]
                  ltac:(vm_compute; reflexivity) eq_refl)
           ["T56.SAFE//B02.jp2"] "T56.SAFE/B02.jp2" []);
    vm_compute; reflexivity.
Defined.
(** ** Running [download] again *)

Lemma makedirs_from_existing name q t cur cs l :
  walk q t cur cs = inr l -> makedirs_from name t cur cs = (inr tt, t).
Proof.
  revert cur. induction cs as [|c cs IH]; intros cur; [done|]. simpl.
  destruct (node_at t (path_step cur c)) as [[|body]|]; [apply IH|done..].
Qed.

Lemma makedirs_existing name q w l :
  name <> "" -> node_at (tree w) (path_start w name) = Some Dir ->
  walk q (tree w) (path_start w name) (path_comps name) = inr l ->
  makedirs name w = (inr tt, w).
Proof.
  intros Hne Hst Hwalk. unfold makedirs.
  destruct (String.eqb_spec name ""); [done|]. rewrite Hst.
  rewrite (makedirs_from_existing _ _ _ _ _ _ Hwalk). by destruct w.
Qed.



Section Rerun.

Variable b : Bucket.
Variables prefix local_path : string.
Variable files : list string.
Variable W : world.

Hypothesis local_path_nonempty : local_path <> "".

Hypothesis facts :
  forall key, key ∈ files -> Str.endswith key "/" = false ->
    exists l body rel,
      written b prefix local_path W key = Some (l, body)
      /\ Posixpath.relpath (getcwd W) key prefix = inr rel
      /\ node_at (tree W) (path_start W (Posixpath.join local_path rel)) = Some Dir
      /\ exists body', tree W !! l = Some (File body').

Hypothesis last_writer :
  forall pre key post l body,
    files = pre ++ key :: post ->
    written b prefix local_path W key = Some (l, body) ->
    existsb (maps_to b prefix local_path W l) post = false ->
    tree W !! l = Some (File body).



End Rerun.



(** ** Where [download] writes *)

Lemma makedirs_from_app name q t cur cs1 cs2 m :
  walk q t cur cs1 = inr m ->
  makedirs_from name t cur (cs1 ++ cs2) = makedirs_from name t m cs2.
Proof.
  revert cur. induction cs1 as [|c cs1 IH]; intros cur; simpl.
  - by intros [= ->].
  - destruct (node_at t (path_step cur c)) as [[|body]|]; [apply IH|done..].
Qed.

Lemma makedirs_from_names name t cur cs r t' l :
  forallb is_name cs = true ->
  makedirs_from name t cur cs = (r, t') ->
  ~ cur `prefix_of` l -> t' !! l = t !! l.
Proof.
  revert t cur. induction cs as [|c cs IH]; intros t cur Hnames H Hl.
  { by injection H as _ <-. }
  simpl in Hnames. apply andb_prop in Hnames as [Hc Hnames].
  assert (Hdots : String.eqb c "." || String.eqb c ".." = false).
  { unfold is_name in Hc. by destruct (String.eqb c "."), (String.eqb c "..");
      rewrite ?andb_false_r in Hc. }
  simpl in H. rewrite (path_step_name _ _ Hdots), Hdots in H.
  assert (Hnext : ~ (cur ++ [c]) `prefix_of` l).
  { intros Hp. apply Hl. etrans; [|exact Hp]. by apply prefix_app_r. }
  destruct (node_at t (cur ++ [c])) as [[|body]|].
  - by eapply IH.
  - by injection H as _ <-.
  - rewrite (IH _ _ Hnames H Hnext). apply lookup_insert_ne.
    intros <-. by apply Hnext.
Qed.

Lemma dirname_plain_comps p rem :
  p <> "" -> plain rem = true ->
  path_comps (Posixpath.dirname (p +:+ String "/" rem))
  = path_comps p ++ removelast (Str.split "/" rem)
  /\ forallb is_name (removelast (Str.split "/" rem)) = true.
Proof.
  intros Hp Hplain.
  assert (Hnames : forallb is_name (removelast (Str.split "/" rem)) = true)
    by by apply forallb_removelast.
  split; [|done].
  rewrite dirname_comps, split_app, removelast_app, List.filter_app
    by apply split_nonnil.
  by rewrite (filter_nonempty_is_name (removelast _)).
Qed.

Lemma download_one_inside b prefix p key w r w' dest l :
  p <> "" -> Str.endswith p "/" = false ->
  Str.endswith prefix "/" = true -> Str.startswith key prefix = true ->
  Str.endswith key "/" || plain (key_remainder prefix key) = true ->
  walk p (tree w) (path_start w p) (path_comps p) = inr dest ->
  download_one b prefix p key w = (r, w') ->
  ~ dest `prefix_of` l -> tree w' !! l = tree w !! l.
Proof.
  intros Hp Hend Hprefix Hkey Hplain Hwalk H Hl.
  rewrite download_one_cases in H.
  destruct (Str.endswith key "/") eqn:Hm; [by injection H as _ <-|].
  simpl in Hplain. set (rem := key_remainder prefix key) in *.
  rewrite (startswith_remainder _ _ Hkey) in H. fold rem in H.
  rewrite (relpath_plain _ _ _ (getcwd_absolute w) Hprefix Hplain) in H.
  rewrite (join_plain _ _ Hp Hend Hplain) in H.
  destruct (makedirs _ w) as [rm wm] eqn:Emk.
  assert (Hmk : tree wm !! l = tree w !! l).
  { unfold makedirs in Emk. destruct (String.eqb _ ""); [by injection Emk as _ <-|].
    unfold path_start in *. rewrite dirname_isabs in Emk.
    unfold Posixpath.isabs in *.
    rewrite startswith_app_nonempty in Emk by done.
    destruct (node_at (tree w) _) as [[|body]|]; [|by injection Emk as _ <-..].
    destruct (dirname_plain_comps p rem Hp Hplain) as [Hcomps Hnames].
    rewrite Hcomps in Emk.
    rewrite (makedirs_from_app _ _ _ _ _ _ _ Hwalk) in Emk.
    destruct (makedirs_from _ _ dest _) as [r0 t] eqn:E.
    injection Emk as _ <-. simpl. by eapply makedirs_from_names. }
  pose proof (makedirs_inv _ _ _ _ Emk) as [Hcwd _].
  destruct rm as [e|[]]; [by injection H as _ <-|].
  destruct r as [e|[]].
  { apply download_file_fails in H as ->. done. }
  apply download_file_writes in H as (body & dir & leaf & _ & Hloc & _ & _ & ->).
  rewrite <- (join_plain _ _ Hp Hend Hplain) in Hloc.
  apply file_loc_plain in Hloc as [Hloc _]; [|done..].
  simpl. rewrite lookup_insert_ne; [done|].
  intros <-. apply Hl. rewrite Hloc.
  apply walk_result in Hwalk as ->.
  unfold lexical_loc, path_start. rewrite Hcwd. by apply prefix_app_r.
Qed.

(** X15: on a file system without symbolic links (the one modelled),
    [download] with plain keys writes nothing outside the destination
    directory.  When the listing is not empty, the name ends in [.SAFE]
    and every listed key that is not a directory marker continues the
    prefix with a plain relative path (no empty name, no [.] and no
    [..]), then, whatever the outcome, the entries that do not lie at or
    below the destination are as [os.makedirs] of the destination left
    them. *)
Theorem download_stays_inside b product target w files l :
  objects_filter b (slash_terminated product) = inr files ->
  files <> [] ->
  Str.endswith (safe_dir_of product) ".SAFE" = true ->
  plain_keys (slash_terminated product) files = true ->
  ~ lexical_loc w (local_path_of product target) `prefix_of` l ->
  tree (download b product target w).2 !! l
  = tree (makedirs (local_path_of product target) w).2 !! l.
Proof.
  intros Hls Hne Hsafe Hplain Hl.
  destruct (local_path_shape product target Hsafe) as [Hp Hend].
  rewrite download_unfold, Hls. destruct files as [|key0 files0]; [done|].
  rewrite Hsafe. cbn [negb]. cbv zeta. fold (local_path_of product target).
  set (p := local_path_of product target) in *.
  set (files := key0 :: files0) in *.
  destruct (makedirs p w) as [[e|[]] w1] eqn:Emk; [done|].
  pose proof (makedirs_inv _ _ _ _ Emk) as [Hcwd1 _].
  destruct (makedirs_resolves _ p _ _ Emk) as (_ & dest & Hwalk & _).
  assert (Hdest : dest = lexical_loc w p) by by apply walk_result in Hwalk.
  pose proof (for_each_inv
                (fun wc => grows w1 wc /\ tree wc !! l = tree w1 !! l)
                (fun _ wc => grows w1 wc /\ tree wc !! l = tree w1 !! l)
                files (download_one b (slash_terminated product) p) w1
                (conj (grows_refl w1) eq_refl)) as Hloop.
  assert (Hgoal : tree (for_each files
                          (download_one b (slash_terminated product) p) w1).2 !! l
                  = tree w1 !! l).
  { destruct (for_each _ _ w1) as [[e|[]] w2]; simpl; apply Hloop;
      intros key wc Hin [Hg Hsame];
      destruct (download_one b (slash_terminated product) p key wc)
        as [[e1|[]] wn] eqn:E;
      (split; [eapply grows_trans; [exact Hg|eapply download_one_grows, E]|]);
      rewrite <- Hsame;
      (eapply download_one_inside; [exact Hp|exact Hend|apply slash_terminated_ends
                                   |by eapply objects_filter_prefix| | |exact E|]);
      try (unfold plain_keys in Hplain; rewrite forallb_forall in Hplain;
           apply Hplain; by apply list_elem_of_In);
      try (destruct Hg as (Hcwd & Hdirs & _); unfold path_start; rewrite Hcwd;
           fold (path_start w1 p); unfold path_start; rewrite Hcwd1;
           fold (path_start w p);
           exact (walk_grows _ _ _ _ _ _ Hdirs Hwalk));
      by rewrite Hdest. }
  by destruct (for_each _ _ w1) as [[e|[]] w2].
Qed.

Lemma download_stays_inside_witness :
  tree (download sample_bucket "Sentinel-2/T56.SAFE" "out" sample_world).2
    !! ["home"; "user"; "notes.txt"]
  = tree (makedirs "out/T56.SAFE" sample_world).2 !! ["home"; "user"; "notes.txt"].
Proof.
  apply (download_stays_inside sample_bucket "Sentinel-2/T56.SAFE" "out" sample_world
           ["Sentinel-2/T56.SAFE/"; "Sentinel-2/T56.SAFE/GRANULE/";
            "Sentinel-2/T56.SAFE/GRANULE/B02.jp2"; "Sentinel-2/T56.SAFE/INSPIRE.xml";
            "Sentinel-2/T56.SAFE/manifest.safe"]); try reflexivity; [done|].
  apply (bool_decide_unpack _). vm_compute. exact I.
Defined.

(** ** A regular file in the way *)

Lemma node_at_snoc (t : gmap (list string) node) d x :
  node_at t (d ++ [x]) = t !! (d ++ [x]).
Proof. by destruct d. Qed.

Lemma is_dir_name_false leaf :
  is_dir_name leaf = false ->
  nonempty leaf = true /\ String.eqb leaf "." || String.eqb leaf ".." = false.
Proof.
  unfold is_dir_name, nonempty.
  by destruct (String.eqb leaf ""), (String.eqb leaf "."), (String.eqb leaf "..").
Qed.

Lemma makedirs_onto_file p w l body :
  wf_world w -> file_loc w p = Some l -> tree w !! l = Some (File body) ->
  makedirs p w = (inl (FileExistsError p), w).
Proof.
  intros Hwf Hloc Hl. unfold file_loc in Hloc.
  destruct (walk p (tree w) (path_start w p) _) as [e|dir] eqn:Hwalk; [done|].
  destruct (is_dir_name _) eqn:Hleaf; [done|]. injection Hloc as <-.
  apply is_dir_name_false in Hleaf as [Hne Hdots].
  set (cs := Str.split "/" p) in *.
  assert (Hcomps : path_comps p
                   = List.filter nonempty (removelast cs) ++ [List.last cs ""]).
  { unfold path_comps. fold cs.
    assert (Hcs : cs = removelast cs ++ [List.last cs ""])
      by apply app_removelast_last, split_nonnil.
    rewrite Hcs at 1. rewrite List.filter_app. simpl. by rewrite Hne. }
  unfold makedirs.
  destruct (String.eqb_spec p "") as [->|_]; [done|].
  rewrite (path_start_dir _ _ Hwf), Hcomps.
  rewrite (makedirs_from_app _ _ _ _ _ _ _ Hwalk). simpl.
  rewrite (path_step_name _ _ Hdots), node_at_snoc, Hl. by destruct w.
Qed.

(** X16: a regular file where the destination directory should be stops
    [download] at once.  On a well-formed file system, when the listing
    is not empty, the name ends in [.SAFE] and the destination path is
    that of a regular file, [download] raises [FileExistsError] for that
    path; nothing is fetched and the file system is as it was. *)
Theorem destination_is_a_file b product target w files body :
  wf_world w ->
  objects_filter b (slash_terminated product) = inr files ->
  files <> [] ->
  Str.endswith (safe_dir_of product) ".SAFE" = true ->
  read_file w (local_path_of product target) = Some body ->
  download b product target w
  = (inl (FileExistsError (local_path_of product target)), w).
Proof.
  intros Hwf Hls Hne Hsafe Hread. unfold read_file in Hread.
  destruct (file_loc w _) as [l|] eqn:Hloc; [|done].
  destruct (tree w !! l) as [[|body']|] eqn:Hl; [done| |done].
  rewrite download_unfold, Hls. destruct files as [|key files]; [done|].
  rewrite Hsafe. cbn [negb]. cbv zeta. fold (local_path_of product target).
  by rewrite (makedirs_onto_file _ _ _ _ Hwf Hloc Hl).
Qed.

Lemma destination_is_a_file_witness :
  read_file blocked_world "out/T56.SAFE" = Some "not a directory"
  /\ download sample_bucket "Sentinel-2/T56.SAFE" "out" blocked_world
     = (inl (FileExistsError "out/T56.SAFE"), blocked_world).
Proof.
  assert (Hwf : wf_world blocked_world)
    by (apply (bool_decide_unpack _); vm_compute; exact I).
  split; [reflexivity|].
  apply (destination_is_a_file sample_bucket "Sentinel-2/T56.SAFE" "out" blocked_world
           ["Sentinel-2/T56.SAFE/"; "Sentinel-2/T56.SAFE/GRANULE/";
            "Sentinel-2/T56.SAFE/GRANULE/B02.jp2"; "Sentinel-2/T56.SAFE/INSPIRE.xml";
            "Sentinel-2/T56.SAFE/manifest.safe"] "not a directory" Hwf);
    (reflexivity || discriminate).
Defined.

(** ** Running [get_product] again *)

Lemma download_file_again b key p w w' :
  download_file b key p w = (inr tt, w') -> download_file b key p w' = (inr tt, w').
Proof.
  intros H.
  pose proof (download_file_grows _ _ _ _ _ _ H) as (Hcwd & Hdirs & _).
  unfold download_file in *.
  destruct (get_object b key) as [e|body]; [done|].
  destruct (String.eqb p ""); [done|].
  assert (Hstart : path_start w' p = path_start w p)
    by (unfold path_start; by rewrite Hcwd).
  rewrite Hstart.
  destruct (node_at (tree w) (path_start w p)) as [[|bd]|] eqn:Hst; [|done..].
  rewrite (Hdirs _ Hst).
  destruct (walk p (tree w) _ _) as [e|dir] eqn:Hwalk; [done|].
  rewrite (walk_grows _ _ _ _ _ _ Hdirs Hwalk).
  destruct (is_dir_name _); [done|].
  set (l := dir ++ [List.last (Str.split "/" p) ""]) in *.
  assert (Hw' : w' = mkWorld (cwd w) (<[l := File body]> (tree w)))
    by (destruct (tree w !! l) as [[|bd]|]; congruence).
  rewrite Hw'. simpl. rewrite lookup_insert_eq. by rewrite insert_insert_eq.
Qed.

(** X17: [get_product] can be run again.  After a call that returned,
    the same call returns the same path and leaves the file system as it
    is; it prints its two lines once more. *)
Theorem get_product_again str s3 bucket_name object_url output_path p path p' :
  get_product str s3 bucket_name object_url output_path p = (inr path, p') ->
  get_product str s3 bucket_name object_url output_path p'
  = (inr path,
     mkProcess
       (stdout p' ++ ["Downloading " +:+ object_url +:+ " to " +:+ path +:+ "...";
                      "Successfully downloaded to " +:+ path])
       (fs p')).
Proof.
  rewrite !get_product_unfold.
  destruct (makedirs output_path (fs p)) as [[e|[]] w1] eqn:Emk; [done|].
  cbv zeta.
  destruct (download_file _ _ _ w1) as [[e|[]] w2] eqn:Edl; [done|].
  intros [= <- <-]. simpl.
  pose proof (download_file_grows _ _ _ _ _ _ Edl) as (Hcwd & Hdirs & _).
  pose proof (makedirs_inv _ _ _ _ Emk) as [Hcwd1 _].
  assert (Hne : output_path <> "").
  { intros ->. by vm_compute in Emk. }
  destruct (makedirs_resolves _ output_path _ _ Emk) as (Hst & l & Hwalk & _).
  assert (Hstart : path_start w2 output_path = path_start (fs p) output_path)
    by (unfold path_start; by rewrite Hcwd, Hcwd1).
  rewrite (makedirs_existing output_path output_path w2 l); [|done|..].
  - by rewrite (download_file_again _ _ _ _ _ Edl).
  - rewrite Hstart. by apply Hdirs.
  - rewrite Hstart. by apply (walk_grows _ _ _ _ _ _ Hdirs).
Qed.

Lemma get_product_again_witness :
  (get_product exn_text sample_resource "eodata" "Sentinel-2/T56.SAFE/manifest.safe"
     "out"
     (get_product exn_text sample_resource "eodata" "Sentinel-2/T56.SAFE/manifest.safe"
        "out" (mkProcess [] sample_world)).2).1
  = inr "out/manifest.safe".
Proof.
  rewrite (get_product_again exn_text sample_resource "eodata"
             "Sentinel-2/T56.SAFE/manifest.safe" "out" (mkProcess [] sample_world)
             "out/manifest.safe"
             (get_product exn_text sample_resource "eodata"
                "Sentinel-2/T56.SAFE/manifest.safe" "out" (mkProcess [] sample_world)).2
             ltac:(vm_compute; reflexivity)).
  reflexivity.
Defined.

(** ** The connector's other methods *)

Lemma names_returns {Value : Type} (buckets : list (gmap string Value)) ns :
  Connector.names buckets = inr ns
  <-> Forall2 (fun bucket name => bucket !! "Name" = Some name) buckets ns.
Proof.
  revert ns. induction buckets as [|bucket buckets IH]; intros ns; simpl.
  - split; [by intros [= <-]; constructor|by intros ->%Forall2_nil_inv_l].
  - destruct (bucket !! "Name") as [name|] eqn:Hname.
    + destruct (Connector.names buckets) as [e|ns'] eqn:Hns.
      * split; [done|]. intros (n & ns'' & _ & H & ->)%Forall2_cons_inv_l.
        by apply IH in H.
      * split.
        -- intros [= <-]. constructor; [done|]. by apply IH.
        -- intros (n & ns'' & Hn & H & ->)%Forall2_cons_inv_l.
           apply IH in H. congruence.
    + split; [done|]. intros (n & ns'' & Hn & _)%Forall2_cons_inv_l. congruence.
Qed.

Lemma names_raises {Value : Type} (buckets : list (gmap string Value)) e :
  Connector.names buckets = inl e
  <-> e = Connector.KeyError "Name"
      /\ Exists (fun bucket => bucket !! "Name" = None) buckets.
Proof.
  revert e. induction buckets as [|bucket buckets IH]; intros e; simpl.
  - split; [done|]. by intros [_ H%Exists_nil].
  - destruct (bucket !! "Name") as [name|] eqn:Hname.
    + destruct (Connector.names buckets) as [e'|ns'] eqn:Hns.
      * split.
        -- intros [= <-]. destruct (proj1 (IH e') eq_refl) as [-> H].
           split; [done|]. by apply Exists_cons_tl.
        -- intros [-> H]. apply Exists_cons in H as [H|H]; [congruence|].
           by apply IH.
      * split; [done|]. intros [-> H]. apply Exists_cons in H as [H|H]; [congruence|].
        by pose proof (proj2 (IH (Connector.KeyError "Name")) (conj eq_refl H)).
    + split; [|by intros [-> _]]. intros [= <-]. split; [done|].
      by apply Exists_cons_hd.
Qed.

(** X18: [list_buckets] gives the names in the order of the response.
    What the client raises is passed on; a response without ['Buckets']
    gives the empty list; otherwise the result is the ['Name'] of every
    listed bucket, one for one and in order, and the call raises
    [KeyError('Name')], and nothing else, exactly when some listed
    bucket has no ['Name']. *)
Theorem list_buckets_names {Session Resource Client Value : Type}
    (client_list_buckets : Client -> exn + Connector.ListBucketsOutput Value)
    (self : Connector.S3Connector Session Resource Client) :
  match client_list_buckets (Connector.s3_client self) with
  | inl e => Connector.list_buckets client_list_buckets self = inl (Connector.Raised e)
  | inr response =>
      match Connector.Buckets response with
      | None => Connector.list_buckets client_list_buckets self = inr []
      | Some buckets =>
          (forall ns,
             Connector.list_buckets client_list_buckets self = inr ns
             <-> Forall2 (fun bucket name => bucket !! "Name" = Some name) buckets ns)
          /\ (forall e,
                Connector.list_buckets client_list_buckets self = inl e
                <-> e = Connector.KeyError "Name"
                    /\ Exists (fun bucket => bucket !! "Name" = None) buckets)
      end
  end.
Proof.
  unfold Connector.list_buckets.
  destruct (client_list_buckets _) as [e|response]; [done|].
  destruct (Connector.Buckets response) as [buckets|]; [|done].
  split; [apply names_returns|apply names_raises].
Qed.

Lemma list_buckets_names_witness :
  Connector.list_buckets sample_list_buckets
    (Connector.mkS3Connector Connector.PyNone Connector.PyNone Connector.PyNone
       (Connector.PyStr "default") tt tt tt)
  = inr ["eodata"; "DIAS"].
Proof.
  pose proof (list_buckets_names sample_list_buckets
                (Connector.mkS3Connector Connector.PyNone Connector.PyNone
                   Connector.PyNone (Connector.PyStr "default") tt tt tt)) as [H _].
  apply H. by repeat constructor.
Defined.

(** ** What [download] reads of the bucket *)

Lemma assoc_filter (f : string -> bool) key os :
  f key = true ->
  assoc key (List.filter (fun o => f (fst o)) os) = assoc key os.
Proof.
  intros Hk. induction os as [|[k v] os IH]; [done|]. simpl.
  destruct (f k) eqn:Hf; simpl.
  - by rewrite IH.
  - destruct (String.eqb_spec k key) as [->|_]; [congruence|done].
Qed.

Lemma download_one_under_prefix b prefix local_path key w :
  Str.startswith key prefix = true ->
  download_one (under_prefix b prefix) prefix local_path key w
  = download_one b prefix local_path key w.
Proof.
  intros Hk. rewrite !download_one_cases.
  destruct (Str.endswith key "/"); [done|].
  destruct (Posixpath.relpath _ _ _); [done|].
  destruct (makedirs _ w) as [[e|[]] wm]; [done|].
  unfold download_file, get_object, under_prefix. simpl.
  by rewrite (assoc_filter (fun k => Str.startswith k prefix)).
Qed.

Lemma loop_under_prefix b prefix local_path xs w :
  Forall (fun key => Str.startswith key prefix = true) xs ->
  for_each xs (download_one (under_prefix b prefix) prefix local_path) w
  = for_each xs (download_one b prefix local_path) w.
Proof.
  intros H. revert w. induction H as [|x xs Hx _ IH]; intros w; [done|].
  simpl. unfold bind. rewrite (download_one_under_prefix _ _ _ _ _ Hx).
  destruct (download_one b _ _ _ w) as [[e|[]] w1]; [done|apply IH].
Qed.

Lemma filter_filter_same {A} (f : A -> bool) l :
  List.filter f (List.filter f l) = List.filter f l.
Proof.
  induction l as [|x l IH]; [done|]. simpl.
  destruct (f x) eqn:Hx; simpl; by rewrite ?Hx, IH.
Qed.

(** X19: [download] reads nothing of the bucket but what lies under the
    prefix: result and file system are the same when every object
    whose key does not start with the slash-terminated prefix is taken
    out of the bucket. *)
Theorem download_reads_only_prefix b product target w :
  download (under_prefix b (slash_terminated product)) product target w
  = download b product target w.
Proof.
  rewrite !download_unfold.
  assert (Hls : objects_filter (under_prefix b (slash_terminated product))
                  (slash_terminated product)
                = objects_filter b (slash_terminated product)).
  { unfold objects_filter, under_prefix. simpl.
    by rewrite (filter_filter_same
                  (fun o => Str.startswith (fst o) (slash_terminated product))). }
  rewrite Hls.
  destruct (objects_filter b (slash_terminated product)) as [e|[|key files]] eqn:E;
    [done..|].
  destruct (negb _); [done|]. cbv zeta.
  destruct (makedirs _ w) as [[e|[]] w1]; [done|].
  rewrite loop_under_prefix; [done|].
  apply Forall_forall. intros k Hin. by eapply objects_filter_prefix.
Qed.

(** ** The target [""] and the target ["."] *)

Lemma join_all_relative a p :
  Str.startswith a "/" = false ->
  Forall (fun x => Str.startswith x "/" = false) p ->
  Str.startswith (Posixpath.join_all a p) "/" = false.
Proof.
  intros Ha Hp. revert a Ha. unfold Posixpath.join_all.
  induction Hp as [|x p Hx _ IH]; intros a Ha; [done|]. simpl. apply IH.
  unfold Posixpath.join. rewrite Hx.
  destruct a as [|c a].
  - simpl. by rewrite append_nil_l.
  - destruct (_ || _); rewrite !append_cons; cbn [Str.startswith] in *; done.
Qed.

Lemma relpath_relative getcwd path start rel :
  Posixpath.relpath getcwd path start = inr rel -> Str.startswith rel "/" = false.
Proof.
  unfold Posixpath.relpath. destruct (String.eqb path ""); [done|]. cbv zeta.
  set (start_list := List.filter _ (Str.split _ (Posixpath.abspath getcwd start))).
  set (path_list := List.filter _ (Str.split _ (Posixpath.abspath getcwd path))).
  set (i := Posixpath.commonprefix_len start_list path_list).
  assert (Hall : Forall (fun x => Str.startswith x "/" = false)
                   (repeat ".." (length start_list - i) ++ skipn i path_list)).
  { apply Forall_forall. intros x [Hx|Hx]%list_elem_of_In%in_app_or.
    - by apply repeat_spec in Hx as ->.
    - assert (Hin : In x path_list).
      { rewrite <- (firstn_skipn i path_list). apply in_or_app. by right. }
      apply filter_In in Hin as [Hin _].
      apply startswith_absent.
      pose proof (split_no_sep "/" (Posixpath.abspath getcwd path)) as Hns.
      rewrite List.Forall_forall in Hns. by apply Hns. }
  destruct (repeat _ _ ++ _) as [|a p]; [by intros [= <-]|].
  intros [= <-]. apply Forall_cons in Hall as [Ha Hp]. by apply join_all_relative.
Qed.

Lemma rstrip_cons_ne c x s :
  x <> c -> Str.rstrip c (String x s) = String x (Str.rstrip c s).
Proof.
  intros Hx. cbn [Str.rstrip]. destruct (Str.rstrip c s); [|done].
  by destruct (Ascii.eqb_spec x c).
Qed.

Lemma rstrip_cons_nonempty c x s :
  Str.rstrip c s <> "" -> Str.rstrip c (String x s) = String x (Str.rstrip c s).
Proof. intros H. cbn [Str.rstrip]. by destruct (Str.rstrip c s). Qed.

Lemma relative_first_char x :
  x <> "" -> Str.startswith x "/" = false -> exists c r, x = String c r /\ c <> "/"%char.
Proof.
  destruct x as [|c r]; [done|]. intros _ H. exists c, r. split; [done|].
  intros ->. done.
Qed.

Lemma dirname_dot x :
  Str.startswith x "/" = false -> Str.chr_in "/" x = true ->
  Posixpath.dirname ("./" +:+ x) = "./" +:+ Posixpath.dirname x
  /\ Posixpath.dirname x <> ""
  /\ Str.startswith (Posixpath.dirname x) "/" = false.
Proof.
  intros Hrel Hsep.
  destruct (rfind1_spec "/" x) as [[_ H]|(a & b & -> & Hb & Hi)]; [congruence|].
  destruct a as [|c a].
  { by rewrite append_nil_l in Hrel. }
  assert (Hc : c <> "/"%char).
  { intros ->. by rewrite append_cons in Hrel. }
  assert (Hd : Posixpath.dirname (String c a +:+ String "/" b)
               = String c (Str.rstrip "/" (a +:+ "/"))).
  { unfold Posixpath.dirname, Posixpath.sep. rewrite Hi, take_app_S.
    rewrite append_cons. cbn [String.length Str.times].
    destruct (String.eqb_spec (String c (a +:+ "/"))
                (String "/" (Str.times "/" (String.length (a +:+ "/")))))
      as [[= E _]|_]; [done|].
    simpl. by apply rstrip_cons_ne. }
  rewrite Hd. split_and!; [|done|].
  - unfold Posixpath.dirname, Posixpath.sep.
    change ("./" +:+ (String c a +:+ String "/" b))
      with (String "." (String "/" (String c a +:+ String "/" b))).
    rewrite <- !append_cons, (rfind1_app _ _ _ Hb), take_app_S.
    rewrite !append_cons, !append_nil_l. cbn [String.length Str.times].
    repeat match goal with
           | |- context [String.eqb ?x ?y] =>
               destruct (String.eqb_spec x y) as [?|_]; [discriminate|]
           end.
    cbn [negb andb].
    rewrite (rstrip_cons_ne "/" ".") by done.
    rewrite (rstrip_cons_nonempty "/" "/"); rewrite (rstrip_cons_ne "/" c) by done;
      done.
  - cbn [Str.startswith]. destruct (Ascii.eqb_spec "/" c); [by subst|done].
Qed.

Lemma makedirs_from_label n1 n2 t cur cs :
  (makedirs_from n1 t cur cs).2 = (makedirs_from n2 t cur cs).2
  /\ match (makedirs_from n1 t cur cs).1, (makedirs_from n2 t cur cs).1 with
     | inr _, inr _ | inl _, inl _ => True
     | _, _ => False
     end.
Proof.
  revert t cur. induction cs as [|c cs IH]; intros t cur; [done|]. simpl.
  destruct (node_at t (path_step cur c)) as [[|body]|]; [apply IH|done|].
  destruct (_ || _); [done|apply IH].
Qed.

Lemma path_comps_dot q : path_comps ("./" +:+ q) = "." :: path_comps q.
Proof.
  unfold path_comps.
  change ("./" +:+ q) with ("." +:+ String "/" q). by rewrite split_app.
Qed.

Lemma makedirs_dot q w :
  q <> "" -> Str.startswith q "/" = false ->
  same_effect (makedirs ("./" +:+ q) w) (makedirs q w).
Proof.
  intros Hq Hrel. unfold makedirs.
  change (String.eqb ("./" +:+ q) "") with false. cbv iota.
  destruct (String.eqb_spec q ""); [done|].
  unfold path_start, Posixpath.isabs. rewrite Hrel.
  change (Str.startswith ("./" +:+ q) "/") with false. cbv iota.
  destruct (node_at (tree w) (cwd w)) as [[|body]|] eqn:Hcwd; [|done..].
  rewrite path_comps_dot. cbn [makedirs_from].
  change (path_step (cwd w) ".") with (cwd w). rewrite Hcwd.
  pose proof (makedirs_from_label ("./" +:+ q) q (tree w) (cwd w) (path_comps q))
    as [Ht Hr].
  destruct (makedirs_from ("./" +:+ q) _ _ _) as [r1 t1].
  destruct (makedirs_from q _ _ _) as [r2 t2].
  simpl in *. subst. done.
Qed.

Lemma last_cons_nonnil {A} (x : A) l d : l <> [] -> List.last (x :: l) d = List.last l d.
Proof. by destruct l. Qed.

Lemma removelast_cons_nonnil {A} (x : A) l :
  l <> [] -> removelast (x :: l) = x :: removelast l.
Proof. by destruct l. Qed.

Lemma walk_label_fails p q t cur cs e :
  walk p t cur cs = inl e -> exists e', walk q t cur cs = inl e'.
Proof.
  intros H. destruct (walk q t cur cs) as [e'|l] eqn:E; [by exists e'|].
  apply (walk_label _ p) in E. congruence.
Qed.

Lemma download_file_dot b key f w :
  f <> "" -> Str.startswith f "/" = false ->
  same_effect (download_file b key ("./" +:+ f) w) (download_file b key f w).
Proof.
  intros Hf Hrel. unfold download_file.
  destruct (get_object b key) as [e|body]; [done|].
  change (String.eqb ("./" +:+ f) "") with false. cbv iota.
  destruct (String.eqb_spec f ""); [done|].
  unfold path_start, Posixpath.isabs. rewrite Hrel.
  change (Str.startswith ("./" +:+ f) "/") with false. cbv iota.
  assert (Hsplit : Str.split "/" ("./" +:+ f) = "." :: Str.split "/" f).
  { change ("./" +:+ f) with ("." +:+ String "/" f). by rewrite split_app. }
  rewrite !Hsplit.
  rewrite !last_cons_nonnil, removelast_cons_nonnil by apply split_nonnil.
  destruct (node_at (tree w) (cwd w)) as [[|bd]|] eqn:Hcwd; [|done..].
  cbn [List.filter nonempty]. change (nonempty ".") with true. cbv iota.
  cbn [walk]. change (path_step (cwd w) ".") with (cwd w). rewrite Hcwd.
  destruct (walk f (tree w) (cwd w) _) as [e|dir] eqn:Hwalk.
  - destruct (walk_label_fails _ ("./" +:+ f) _ _ _ _ Hwalk) as [e' ->]. done.
  - rewrite (walk_label _ ("./" +:+ f) _ _ _ _ Hwalk).
    destruct (is_dir_name _); [done|].
    by destruct (tree w !! _) as [[|bd]|].
Qed.

Lemma join_dot d rel :
  d <> "" -> Str.endswith d "/" = false -> Str.startswith rel "/" = false ->
  Posixpath.join ("./" +:+ d) rel = "./" +:+ Posixpath.join d rel
  /\ Posixpath.join d rel = d +:+ String "/" rel.
Proof.
  intros Hd Hend Hrel. unfold Posixpath.join. rewrite Hrel.
  change (String.eqb ("./" +:+ d) "") with false.
  rewrite (endswith_app_r "./" d "/" Hd), Hend.
  destruct (String.eqb_spec d ""); [done|]. simpl.
  by rewrite !append_assoc.
Qed.

Lemma download_one_dot b prefix d key w :
  d <> "" -> Str.endswith d "/" = false -> Str.startswith d "/" = false ->
  same_effect (download_one b prefix ("./" +:+ d) key w)
              (download_one b prefix d key w).
Proof.
  intros Hd Hend Hstart. rewrite !download_one_cases.
  destruct (Str.endswith key "/"); [done|].
  destruct (Posixpath.relpath _ _ _) as [e|rel] eqn:Hrel; [done|].
  apply relpath_relative in Hrel.
  destruct (join_dot d rel Hd Hend Hrel) as [-> Hjoin].
  set (path := Posixpath.join d rel) in *.
  assert (Hpath : Str.startswith path "/" = false)
    by (by rewrite Hjoin, startswith_app_nonempty).
  assert (Hsep : Str.chr_in "/" path = true) by by apply join_has_sep.
  destruct (dirname_dot path Hpath Hsep) as (-> & Hdn & Hdrel).
  pose proof (makedirs_dot (Posixpath.dirname path) w Hdn Hdrel) as [Hw Hr].
  destruct (makedirs ("./" +:+ _) w) as [[e1|[]] w1];
    destruct (makedirs (Posixpath.dirname path) w) as [[e2|[]] w2];
    simpl in *; subst; try done.
  apply download_file_dot; [|done]. by apply has_sep_nonempty.
Qed.

Lemma loop_dot b prefix d xs w :
  d <> "" -> Str.endswith d "/" = false -> Str.startswith d "/" = false ->
  same_effect (for_each xs (download_one b prefix ("./" +:+ d)) w)
              (for_each xs (download_one b prefix d) w).
Proof.
  intros Hd Hend Hstart. revert w. induction xs as [|x xs IH]; intros w; [done|].
  simpl. unfold bind.
  pose proof (download_one_dot b prefix d x w Hd Hend Hstart) as [Hw Hr].
  destruct (download_one b prefix ("./" +:+ d) x w) as [[e1|[]] w1];
    destruct (download_one b prefix d x w) as [[e2|[]] w2];
    simpl in *; subst; done.
Qed.

(** X20: the target ["."], which the notebook passes, and the default
    target [""] come to the same: both runs leave the same file system,
    and they return together or raise together; the path returned for
    ["."] is the one returned for [""] behind ["./"]. *)
Theorem target_dot_is_default b product w :
  (download b product "." w).2 = (download b product "" w).2
  /\ match (download b product "" w).1 with
     | inr p => (download b product "." w).1 = inr ("./" +:+ p)
     | inl _ => exists e, (download b product "." w).1 = inl e
     end.
Proof.
  rewrite !download_unfold.
  destruct (objects_filter b (slash_terminated product)) as [e|[|key files]];
    [split; [done|by eexists]..|].
  destruct (Str.endswith (safe_dir_of product) ".SAFE") eqn:Hsafe;
    cbn [negb]; [|split; [done|by eexists]].
  cbv zeta. set (d := safe_dir_of product) in *.
  assert (Hd : d <> "") by by apply safe_suffix_nonempty.
  assert (Hsep : Str.chr_in "/" d = false) by apply basename_no_sep.
  assert (Hstart : Str.startswith d "/" = false) by by apply startswith_absent.
  assert (Hend : Str.endswith d "/" = false).
  { destruct (Str.endswith d "/") eqn:E; [|done].
    apply endswith_chr_in in E. congruence. }
  assert (Hj0 : Posixpath.join "" d = d).
  { unfold Posixpath.join. by rewrite Hstart, append_nil_l. }
  assert (Hj1 : Posixpath.join "." d = "./" +:+ d).
  { unfold Posixpath.join. by rewrite Hstart. }
  rewrite Hj0, Hj1.
  pose proof (makedirs_dot d w Hd Hstart) as [Hw Hr].
  destruct (makedirs ("./" +:+ d) w) as [[e1|[]] w1];
    destruct (makedirs d w) as [[e2|[]] w2];
    cbn [fst snd] in *; subst; try done; [split; [done|by eexists]|].
  pose proof (loop_dot b (slash_terminated product) d (key :: files) w2
                Hd Hend Hstart) as [Hw' Hr'].
  destruct (for_each _ (download_one b _ ("./" +:+ d)) w2) as [[e1|[]] w1'];
    destruct (for_each _ (download_one b _ d) w2) as [[e2|[]] w2'];
    cbn [fst snd] in *; subst; try done. split; [done|by eexists].
Qed.

(** ** Files [download] is not concerned with *)

Lemma download_one_fails_keeps b prefix local_path key w e w1 l n :
  download_one b prefix local_path key w = (inl e, w1) ->
  tree w !! l = Some (File n) -> tree w1 !! l = Some (File n).
Proof.
  rewrite download_one_cases. intros H Hl.
  destruct (Str.endswith key "/"); [done|].
  destruct (Posixpath.relpath _ _ _) as [e0|rel]; [by injection H as _ <-|].
  destruct (makedirs _ w) as [rm wm] eqn:Emk.
  apply makedirs_inv in Emk as [_ [Hsub _]].
  assert (Hm : tree wm !! l = Some (File n)) by by eapply lookup_weaken.
  destruct rm as [e1|[]]; [by injection H as _ <-|].
  by apply download_file_fails in H as ->.
Qed.

Lemma loop_untouched_any b prefix local_path xs w r w' l n :
  for_each xs (download_one b prefix local_path) w = (r, w') ->
  tree w !! l = Some (File n) ->
  existsb (maps_to b prefix local_path w' l) xs = false ->
  tree w' !! l = Some (File n).
Proof.
  revert w. induction xs as [|x xs IH]; intros w H Hl Hex.
  { by injection H as _ <-. }
  simpl in H. unfold bind in H.
  destruct (download_one b prefix local_path x w) as [[e|[]] w1] eqn:E1.
  { injection H as _ <-. by eapply download_one_fails_keeps. }
  simpl in Hex. apply orb_false_elim in Hex as [Hx Hex].
  eapply IH; [exact H| |exact Hex].
  destruct (Str.endswith x "/") eqn:Hm.
  { rewrite download_one_cases, Hm in E1. by injection E1 as <-. }
  pose proof (loop_grows b prefix local_path xs w1) as Hg. rewrite H in Hg.
  simpl in Hg.
  destruct (download_one_written _ _ _ _ _ _ E1 Hm) as (lx & body & Hw & _ & Hother).
  unfold maps_to in Hx. rewrite (written_grows _ _ _ _ _ _ _ Hg Hw) in Hx.
  apply bool_decide_eq_false in Hx.
  destruct (download_one_grows _ _ _ _ _ _ _ E1) as (_ & _ & Hfiles).
  destruct (Hfiles _ _ Hl) as [n' Hn'].
  rewrite Hn'. f_equal. f_equal.
  apply Hother in Hn'; [|done]. congruence.
Qed.

(** X21: [download] changes no file but those it writes.  Whatever the
    outcome, a regular file that was there before and at whose place no
    listed key is written has its content of before; so what an earlier
    run left in the destination directory under another name stays
    there. *)
Theorem other_files_keep_content b product target w files l body :
  objects_filter b (slash_terminated product) = inr files ->
  tree w !! l = Some (File body) ->
  existsb (maps_to b (slash_terminated product) (local_path_of product target)
             (download b product target w).2 l) files = false ->
  tree (download b product target w).2 !! l = Some (File body).
Proof.
  intros Hls Hl. rewrite download_unfold, Hls.
  destruct files as [|key files]; [done|].
  destruct (negb _); [done|]. cbv zeta. fold (local_path_of product target).
  destruct (makedirs _ w) as [rm w1] eqn:Emk.
  apply makedirs_inv in Emk as [_ [Hsub _]].
  assert (Hm : tree w1 !! l = Some (File body)) by by eapply lookup_weaken.
  destruct rm as [e|[]]; [done|].
  destruct (for_each _ _ w1) as [r w2] eqn:Eloop.
  intros Hex.
  assert (Hex' : existsb (maps_to b (slash_terminated product)
                            (local_path_of product target) w2 l) (key :: files)
                 = false) by by destruct r as [e|[]].
  pose proof (loop_untouched_any _ _ _ _ _ _ _ _ _ Eloop Hm Hex').
  by destruct r as [e|[]].
Qed.

Lemma other_files_keep_content_witness :
  tree (download manifest_bucket "T56.SAFE" "" used_world).2
    !! ["home"; "user"; "T56.SAFE"; "old.tmp"]
  = Some (File "stale").
Proof.
  apply (other_files_keep_content manifest_bucket "T56.SAFE" "" used_world
           ["T56.SAFE/manifest.safe"]); vm_compute; reflexivity.
Defined.

(** ** The directory [download] returns *)

(** X22: the path [download] returns is that of a directory: in the
    file system the run has left it resolves, to the place the path
    spells out, and a directory is there. *)
Theorem download_returns_directory b product target w p w' :
  download b product target w = (inr p, w') ->
  dir_loc w' p = Some (lexical_loc w p)
  /\ node_at (tree w') (lexical_loc w p) = Some Dir.
Proof.
  intros (files & w1 & _ & _ & _ & -> & Hmk & Hloop)%download_loop.
  pose proof (loop_grows b (slash_terminated product) (local_path_of product target)
                files w1) as Hg.
  rewrite Hloop in Hg. simpl in Hg. destruct Hg as (Hcwd & Hdirs & _).
  pose proof (makedirs_inv _ _ _ _ Hmk) as [Hcwd1 _].
  destruct (makedirs_resolves _ (local_path_of product target) _ _ Hmk)
    as (_ & l & Hwalk & Hl).
  pose proof (walk_result _ _ _ _ _ Hwalk) as ->.
  fold (lexical_loc w (local_path_of product target)) in *.
  split; [|by apply Hdirs].
  unfold dir_loc, path_start. rewrite Hcwd, Hcwd1.
  fold (path_start w (local_path_of product target)).
  by rewrite (walk_grows _ _ _ _ _ _ Hdirs Hwalk).
Qed.

Lemma download_returns_directory_witness :
  dir_loc (download sample_bucket "Sentinel-2/T56.SAFE" "out" sample_world).2
    "out/T56.SAFE"
  = Some ["home"; "user"; "out"; "T56.SAFE"].
Proof.
  apply (download_returns_directory sample_bucket "Sentinel-2/T56.SAFE" "out"
           sample_world "out/T56.SAFE"
           (download sample_bucket "Sentinel-2/T56.SAFE" "out" sample_world).2).
  vm_compute. reflexivity.
Defined.

(** ** A key that is a file and a folder *)







(** ** A regular file where [get_product] wants its directory *)

(** X24: when the output path of [get_product] is that of a regular
    file (on a well-formed file system), the call raises
    [FileExistsError] for that path before anything is printed or
    fetched, and nothing changes. *)
Theorem get_product_output_is_a_file str s3 bucket_name object_url output_path p body :
  wf_world (fs p) ->
  read_file (fs p) output_path = Some body ->
  get_product str s3 bucket_name object_url output_path p
  = (inl (FileExistsError output_path), p).
Proof.
  intros Hwf Hread. unfold read_file in Hread.
  destruct (file_loc (fs p) _) as [l|] eqn:Hloc; [|done].
  destruct (tree (fs p) !! l) as [[|body']|] eqn:Hl; [done| |done].
  rewrite get_product_unfold, (makedirs_onto_file _ _ _ _ Hwf Hloc Hl).
  by destruct p.
Qed.

Lemma get_product_output_is_a_file_witness :
  get_product exn_text sample_resource "eodata" "Sentinel-2/T56.SAFE/manifest.safe"
    "out/T56.SAFE" (mkProcess [] blocked_world)
  = (inl (FileExistsError "out/T56.SAFE"), mkProcess [] blocked_world).
Proof.
  apply (get_product_output_is_a_file exn_text sample_resource "eodata"
           "Sentinel-2/T56.SAFE/manifest.safe" "out/T56.SAFE"
           (mkProcess [] blocked_world) "not a directory").
  - apply (bool_decide_unpack _). vm_compute. exact I.
  - reflexivity.
Defined.
